(** * Hong Kong air-quality visualisation (week03/main_improved.py)

    A shallow embedding of the program's data model and logic, and the
    properties of its specification checked against it.

    Number representation.  Python [int] values are [Z].  Python
    [float] values are modelled as exact rationals [Q]: addition,
    multiplication, division and comparison are the exact ones, so the
    results below are statements about the program's arithmetic with
    binary64 rounding left out.  Equality of two [float]s is [Qeq],
    written [==].  Some statements about computed values carry an
    allowance for that rounding ([rounding_slack], or a bound with room
    to spare), so that they hold of the binary64 program as well.

    Sources of randomness and time are inputs: the draws of
    [np.random.normal] come from a stream that the generators consume in
    order, and each call of [Particle.move] receives its
    [random.uniform] draw and its [pygame.time.get_ticks] reading.
    [np.cos] and [np.sin] are section variables. *)

From Stdlib Require Import ZArith QArith Qround Qabs Lqa Lia List.
From Stdlib Require Import Sorted Permutation.
From stdpp Require Import base option gmap strings list.

Open Scope Q_scope.

(** ** Python and NumPy primitives *)

(** [a < b] on floats, as a boolean. *)
Definition Qltb (a b : Q) : bool := negb (Qle_bool b a).

(** [int(q)]: truncation toward zero. *)
Definition py_int (q : Q) : Z := Z.quot (Qnum q) (Zpos (Qden q)).

(** [a % b] on floats: the result takes the sign of [b]. *)
Definition py_mod (a b : Q) : Q := a - b * inject_Z (Qfloor (a / b)).

(** [l[i]] on a list: a negative index counts from the end; an index out
    of range raises [IndexError], here [None]. *)
Definition py_index {A : Type} (l : list A) (i : Z) : option A :=
  let n := Z.of_nat (length l) in
  if (i <? 0)%Z
  then (if (n + i <? 0)%Z then None else l !! Z.to_nat (n + i))
  else l !! Z.to_nat i.

(** [np.mean] of a one-dimensional array. *)
Definition np_sum (a : list Q) : Q := foldr Qplus 0 a.
Definition np_mean (a : list Q) : Q := np_sum a / inject_Z (Z.of_nat (length a)).

(** [np.clip(a, lo, hi)], on a scalar and element by element. *)
Definition clip1 (lo hi v : Q) : Q :=
  if Qltb v lo then lo else if Qltb hi v then hi else v.
Definition np_clip (a : list Q) (lo hi : Q) : list Q := map (clip1 lo hi) a.

(** ** Module-level constants *)

Definition WIDTH : Z := 1200.
Definition HEIGHT : Z := 800.

Definition DISTRICTS : list string :=
  ["Central & Western"; "Eastern"; "Southern"; "Wan Chai"; "Kowloon City";
   "Kwun Tong"; "Sham Shui Po"; "Wong Tai Sin"; "Yau Tsim Mong"]%string.

Definition Color : Type := (Z * Z * Z)%type.

Record AqiLevel := {
  level_range : Z * Z;
  level_color : Color;
  level_name : string;
  level_desc : string
}.

Definition AQI_LEVELS : list AqiLevel := [
  {| level_range := (0, 50)%Z; level_color := (50, 205, 50)%Z;
     level_name := "Good";
     level_desc := "Air quality is satisfactory with minimal air pollution" |};
  {| level_range := (51, 100)%Z; level_color := (255, 255, 0)%Z;
     level_name := "Moderate";
     level_desc := "Air quality is acceptable but may affect sensitive groups" |};
  {| level_range := (101, 150)%Z; level_color := (255, 165, 0)%Z;
     level_name := "Unhealthy for Sensitive";
     level_desc := "Members of sensitive groups may experience health effects" |};
  {| level_range := (151, 200)%Z; level_color := (255, 69, 0)%Z;
     level_name := "Unhealthy";
     level_desc := "Everyone may begin to experience health effects" |};
  {| level_range := (201, 300)%Z; level_color := (255, 0, 0)%Z;
     level_name := "Very Unhealthy";
     level_desc := "Health warnings of emergency conditions for everyone" |};
  {| level_range := (301, 500)%Z; level_color := (128, 0, 0)%Z;
     level_name := "Hazardous";
     level_desc := "Health alert: everyone may experience serious health effects" |}
]%string.

Definition GRADIENT_COLORS : list Color := map level_color AQI_LEVELS.

(** The entries of the [COLORS] dictionary that the logic reads. *)
Module COLORS.
Definition highlight : Color := (255, 215, 0)%Z.
Definition particle_good : Color := (50, 205, 50)%Z.
Definition particle_moderate : Color := (255, 255, 0)%Z.
Definition particle_unhealthy : Color := (255, 165, 0)%Z.
Definition particle_hazardous : Color := (255, 0, 0)%Z.
End COLORS.

(** ** Color mapper (lines 92-107) *)

(** One channel of [interpolate_color]: [int(c1 + (c2 - c1) * factor)]. *)
Definition interpolate_channel (c1 c2 : Z) (factor : Q) : Z :=
  py_int (inject_Z c1 + (inject_Z c2 - inject_Z c1) * factor).

Definition interpolate_color (color1 color2 : Color) (factor : Q) : Color :=
  let '(r1, g1, b1) := color1 in
  let '(r2, g2, b2) := color2 in
  (interpolate_channel r1 r2 factor,
   interpolate_channel g1 g2 factor,
   interpolate_channel b1 b2 factor).

(** [get_color_for_value(value, min_val, max_val)]; the callers use the
    defaults [min_val = 0] and [max_val = 150].  The division by
    [section_size] is reached only when [min_val < value < max_val], where
    [section_size > 0]. *)
Definition get_color_for_value (value min_val max_val : Q) : option Color :=
  if Qle_bool value min_val then py_index GRADIENT_COLORS 0
  else if Qle_bool max_val value then py_index GRADIENT_COLORS (-1)
  else
    let section_size :=
      (max_val - min_val) / inject_Z (Z.of_nat (length GRADIENT_COLORS) - 1) in
    let section := py_int ((value - min_val) / section_size) in
    let factor := py_mod (value - min_val) section_size / section_size in
    c1 ← py_index GRADIENT_COLORS section;
    c2 ← py_index GRADIENT_COLORS (section + 1);
    Some (interpolate_color c1 c2 factor).

(** ** Particle (lines 151-195) *)

Module Particle.

(** The attributes of a particle.  [size] is the attribute that
    [AirQualityViz.update_particles] assigns; [__init__] does not create
    it, so it is absent until the first update. *)
Record t := {
  x : Q;
  y : Q;
  z : Q;
  color : Color;
  base_size : Q;
  speed : Q;
  angle : Q;
  size : option Q
}.

(** [Particle(x, y, color, size, speed)]; [z0] and [angle0] are the two
    [random.uniform] draws of the constructor. *)
Definition init (x0 y0 : Q) (color0 : Color) (size0 speed0 : Q)
    (z0 angle0 : Q) : t :=
  {| x := x0; y := y0; z := z0; color := color0; base_size := size0;
     speed := speed0; angle := angle0; size := None |}.

(** What one call of [move] reads from its environment. *)
Record MoveEnv := {
  uniform : Q;       (* random.uniform(-0.1, 0.1) *)
  get_ticks : Z      (* pygame.time.get_ticks() *)
}.

(** What [draw] hands to the rendering backend. *)
Record Drawn := {
  main_color : Color;
  main_center : Z * Z;
  main_radius : Z;
  glow_color : Color * Z;
  glow_radius : Z;
  glow_corner : Z * Z
}.

Definition draw (self : t) : Drawn :=
  let depth_factor := (z self + 50) / 100 in
  let size := py_int (base_size self * (0.5 + depth_factor * 0.5)) in
  let shade (c : Z) := py_int (inject_Z c * (0.7 + depth_factor * 0.3)) in
  let '(r, g, b) := color self in
  let color := (shade r, shade g, shade b) in
  {| main_color := color;
     main_center := (py_int (x self), py_int (y self));
     main_radius := size;
     glow_color := (color, 50%Z);
     glow_radius := (size * 2)%Z;
     glow_corner := (py_int (x self - inject_Z (size * 2)),
                     py_int (y self - inject_Z (size * 2))) |}.

Section WithNumpy.
Variables np_cos np_sin : Q -> Q.

Definition move (self : t) (env : MoveEnv) : t :=
  let angle1 := angle self + uniform env in
  let x1 := x self + np_cos angle1 * speed self in
  let y1 := y self + np_sin angle1 * speed self in
  let z1 := 50 * np_sin (inject_Z (get_ticks env) * 0.001 + angle1) in
  let x2 :=
    if Qltb x1 0 then inject_Z WIDTH
    else if Qltb (inject_Z WIDTH) x1 then 0
    else x1 in
  let y2 :=
    if Qltb y1 0 then inject_Z HEIGHT
    else if Qltb (inject_Z HEIGHT) y1 then 0
    else y1 in
  {| x := x2; y := y2; z := z1; color := color self;
     base_size := base_size self; speed := speed self;
     angle := angle1; size := size self |}.
End WithNumpy.

End Particle.

(** ** The NumPy random generator

    The state of [np.random] is the sequence of values its future
    [normal] calls return and the number of values already drawn. *)

Record NpRandom := {
  draws : nat -> Q;
  pos : nat
}.

(** [np.random.normal(loc, scale)]: one draw. *)
Definition normal (g : NpRandom) : Q * NpRandom :=
  (draws g (pos g), {| draws := draws g; pos := S (pos g) |}).

(** [np.random.normal(loc, scale, n)]: an array of [n] draws. *)
Fixpoint normal_n (n : nat) (g : NpRandom) : list Q * NpRandom :=
  match n with
  | O => ([], g)
  | S n' =>
      let '(v, g1) := normal g in
      let '(vs, g2) := normal_n n' g1 in
      (v :: vs, g2)
  end.

(** [range(a, b)]. *)
Definition py_range (a b : Z) : list Z := seqZ a (b - a).

(** A [for] loop whose body may raise: the first exception ends it. *)
Fixpoint for_each {A S : Type} (l : list A) (body : S -> A -> option S)
    (s : S) : option S :=
  match l with
  | [] => Some s
  | a :: l' => s' ← body s a; for_each l' body s'
  end.

(** [d[k]] on a dictionary with integer keys, for a numeric key [k]: a
    float that is not integral is no key of it. *)
Definition lookup_num {V : Type} (d : gmap Z V) (k : Q) : option V :=
  if Qeq_bool k (inject_Z (Qfloor k)) then d !! Qfloor k else None.

(** [a // b] on integers: floor division; a zero divisor raises
    [ZeroDivisionError], here [None]. *)
Definition py_floordiv (a b : Z) : option Z :=
  if (b =? 0)%Z then None else Some (a `div` b)%Z.

(** [range(a, b, k)] for a positive step [k]. *)
Definition py_range_step (a b k : Z) : list Z :=
  (fun i => a + k * i)%Z <$> seqZ 0 ((b - a + k - 1) `div` k).

(** ** Timeline graph (lines 109-149) *)

Module Graph.

(** [self.rect], a [pygame.Rect(x, y, width, height)]. *)
Record t := {
  left : Z;
  top : Z;
  width : Z;
  height : Z
}.

Definition right (self : t) : Z := (left self + width self)%Z.
Definition bottom (self : t) : Z := (top self + height self)%Z.

(** [Graph(x, y, width, height)]. *)
Definition init (x y w h : Z) : t :=
  {| left := x; top := y; width := w; height := h |}.

(** What [draw] hands to the rendering backend: the horizontal grid lines
    with the value each is labelled with, the vertical grid lines with
    their year, the points of the data line, and whether the line is
    drawn. *)
Record Drawn := {
  hlines : list (Z * Z);
  vlines : list (Z * Z);
  points : list (Z * Q);
  polyline : bool
}.

Definition draw (self : t) (data : gmap Z (list Q)) (year_range : Z * Z)
    : option Drawn :=
  let '(first, last) := year_range in
  let hl :=
    (fun i => (top self + (height self * i) `div` 5, 150 - i * 30)%Z)
    <$> py_range 0 6 in
  let year_interval := 5%Z in
  vl ← mapM (fun year =>
               dx ← py_floordiv ((year - first) * width self) (last - first);
               Some ((left self + dx)%Z, year))
            (py_range_step first (last + 1) year_interval);
  pts ← mapM (fun year =>
                dx ← py_floordiv ((year - first) * width self) (last - first);
                sample ← data !! year;
                Some ((left self + dx)%Z,
                      inject_Z (bottom self)
                      - np_mean sample / 150 * inject_Z (height self)))
             (py_range first (last + 1));
  Some {| hlines := hl; vlines := vl; points := pts;
          polyline := (1 <? length pts)%nat |}.

End Graph.

(** ** AirQualityViz (lines 197-466) *)

Module AirQualityViz.

(** The attributes the logic uses.  [historical_events] is created by
    [generate_historical_data]; it is absent before its first call. *)
Record t := {
  particles : list Particle.t;
  year : Q;
  target_year : Z;
  year_transition_speed : Q;
  aqi_data : gmap Z (list Q);
  district_data : gmap string (gmap Z (list Q));
  selected_district : option string;
  historical_events : option (gmap Z string)
}.

Definition set_particles (self : t) (v : list Particle.t) : t :=
  {| particles := v; year := year self; target_year := target_year self;
     year_transition_speed := year_transition_speed self;
     aqi_data := aqi_data self; district_data := district_data self;
     selected_district := selected_district self;
     historical_events := historical_events self |}.

Definition set_year (self : t) (v : Q) : t :=
  {| particles := particles self; year := v; target_year := target_year self;
     year_transition_speed := year_transition_speed self;
     aqi_data := aqi_data self; district_data := district_data self;
     selected_district := selected_district self;
     historical_events := historical_events self |}.

Definition set_target_year (self : t) (v : Z) : t :=
  {| particles := particles self; year := year self; target_year := v;
     year_transition_speed := year_transition_speed self;
     aqi_data := aqi_data self; district_data := district_data self;
     selected_district := selected_district self;
     historical_events := historical_events self |}.

Definition set_aqi_data (self : t) (v : gmap Z (list Q)) : t :=
  {| particles := particles self; year := year self;
     target_year := target_year self;
     year_transition_speed := year_transition_speed self;
     aqi_data := v; district_data := district_data self;
     selected_district := selected_district self;
     historical_events := historical_events self |}.

Definition set_district_data (self : t)
    (v : gmap string (gmap Z (list Q))) : t :=
  {| particles := particles self; year := year self;
     target_year := target_year self;
     year_transition_speed := year_transition_speed self;
     aqi_data := aqi_data self; district_data := v;
     selected_district := selected_district self;
     historical_events := historical_events self |}.

Definition set_selected_district (self : t) (v : option string) : t :=
  {| particles := particles self; year := year self;
     target_year := target_year self;
     year_transition_speed := year_transition_speed self;
     aqi_data := aqi_data self; district_data := district_data self;
     selected_district := v;
     historical_events := historical_events self |}.

Definition set_historical_events (self : t) (v : gmap Z string) : t :=
  {| particles := particles self; year := year self;
     target_year := target_year self;
     year_transition_speed := year_transition_speed self;
     aqi_data := aqi_data self; district_data := district_data self;
     selected_district := selected_district self;
     historical_events := Some v |}.

(** The base pattern of a year: the [if]/[elif] chain of lines 235-264. *)
Definition base_pattern (year : Z) : list Q :=
  if (1993 <=? year)%Z && (year <=? 2000)%Z then
    [85; 95; 80; 75; 70; 65; 90; 100; 85; 80; 75; 70]
  else if (2000 <? year)%Z && (year <=? 2010)%Z then
    [70; 75; 65; 60; 55; 50; 80; 85; 70; 65; 60; 55]
  else if (2010 <? year)%Z && (year <=? 2015)%Z then
    [55; 60; 50; 45; 40; 35; 65; 70; 55; 50; 45; 40]
  else if (2015 <? year)%Z && (year <=? 2020)%Z then
    [40; 45; 35; 30; 25; 20; 50; 55; 40; 35; 30; 25]
  else
    [35; 40; 30; 25; 20; 15; 45; 50; 35; 30; 25; 20].

(** The table stored in [self.historical_events] (lines 271-278). *)
Definition EVENT_MARKS : gmap Z string :=
  list_to_map [
    (1995%Z, "实施空气质量指标");
    (2000%Z, "引入更严格的车辆排放标准");
    (2005%Z, "推行清洁生产伙伴计划");
    (2010%Z, "实施区域性空气质量管理策略");
    (2015%Z, "更新空气质量指标");
    (2020%Z, "实施更严格的空气质量目标")
  ]%string.

(** One iteration of the loop of [generate_historical_data]
    (lines 235-268): the base pattern, plus twelve draws, clipped. *)
Definition historical_year (acc : gmap Z (list Q) * NpRandom) (year : Z)
    : gmap Z (list Q) * NpRandom :=
  let '(data, g) := acc in
  let sample := base_pattern year in
  let '(noise, g1) := normal_n 12 g in
  let sample := zip_with Qplus sample noise in
  let sample := np_clip sample 0 150 in
  (<[year := sample]> data, g1).

Definition generate_historical_data (self : t) (g : NpRandom)
    : gmap Z (list Q) * t * NpRandom :=
  let '(data, g1) := foldl historical_year (∅, g) (py_range 1993 2024) in
  (data, set_historical_events self EVENT_MARKS, g1).

(** The body of the inner loop of [generate_district_data]
    (lines 223-226).  The source stores the sum and then replaces it by
    its clipped value; the two assignments are one insertion here. *)
Definition district_year (base_data : gmap Z (list Q)) (district : string)
    (acc : gmap string (gmap Z (list Q)) * NpRandom) (year : Z)
    : option (gmap string (gmap Z (list Q)) * NpRandom) :=
  let '(district_data, g) := acc in
  let '(variation, g1) := normal g in
  base ← base_data !! year;
  inner ← district_data !! district;
  let sample := np_clip (map (fun v => v + variation) base) 0 150 in
  Some (<[district := <[year := sample]> inner]> district_data, g1).

Definition generate_district_data (self : t) (g : NpRandom)
    : option (gmap string (gmap Z (list Q)) * t * NpRandom) :=
  let district_data : gmap string (gmap Z (list Q)) :=
    list_to_map ((fun district => (district, ∅)) <$> DISTRICTS) in
  let '(base_data, self1, g1) := generate_historical_data self g in
  '(district_data1, g2) ←
    for_each DISTRICTS
      (fun acc district =>
         for_each (py_range 1993 2024) (district_year base_data district) acc)
      (district_data, g1);
  Some (district_data1, self1, g2).

Definition get_particle_properties (aqi : Q) : Color * Q * Q :=
  if Qltb aqi 50 then (COLORS.particle_good, 3, 1)
  else if Qltb aqi 100 then (COLORS.particle_moderate, 4, 1.5)
  else if Qltb aqi 150 then (COLORS.particle_unhealthy, 5, 2)
  else (COLORS.particle_hazardous, 6, 2.5).

(** The random draws that create one particle. *)
Record ParticleSeed := {
  randint_x : Z;       (* random.randint(0, WIDTH) *)
  randint_y : Z;       (* random.randint(-100, HEIGHT) *)
  uniform_z : Q;       (* random.uniform(-50, 50) *)
  uniform_angle : Q    (* random.uniform(0, 2 * np.pi) *)
}.

Definition initialize_particles (self : t) (seeds : nat -> ParticleSeed)
    : option t :=
  let num_particles := 200%nat in
  sample ← lookup_num (aqi_data self) (year self);
  let current_aqi := np_mean sample in
  let '(color, size, speed) := get_particle_properties current_aqi in
  let created :=
    map (fun i =>
           let seed := seeds i in
           Particle.init (inject_Z (randint_x seed)) (inject_Z (randint_y seed))
             color size speed (uniform_z seed) (uniform_angle seed))
        (seq 0 num_particles) in
  Some (set_particles self (particles self ++ created)).

(** [AirQualityViz()]: the constructor, lines 198-213. *)
Definition init (g : NpRandom) (seeds : nat -> ParticleSeed)
    : option (t * NpRandom) :=
  let self :=
    {| particles := []; year := 1993; target_year := 1993;
       year_transition_speed := 0.05; aqi_data := ∅; district_data := ∅;
       selected_district := None; historical_events := None |} in
  let '(data, self, g) := generate_historical_data self g in
  let self := set_aqi_data self data in
  '(ddata, self, g) ← generate_district_data self g;
  let self := set_district_data self ddata in
  self ← initialize_particles self seeds;
  let self := set_selected_district self None in
  Some (self, g).

(** The value of the local [current_aqi] of [update_particles] at
    line 322, computed by lines 313-320. *)
Definition current_aqi (self : t) : option Q :=
  let current_year_int := py_int (year self) in
  let next_year_int := Z.min 2023 (current_year_int + 1) in
  let year_fraction := year self - inject_Z current_year_int in
  sample ← aqi_data self !! current_year_int;
  let current_aqi := np_mean sample in
  if Qltb 0 year_fraction then
    match aqi_data self !! next_year_int with
    | Some next =>
        let next_aqi := np_mean next in
        Some (current_aqi + (next_aqi - current_aqi) * year_fraction)
    | None => Some current_aqi
    end
  else Some current_aqi.

(** The value of the local [aqi] of [draw_district_visualization] for one
    district, computed by lines 344-351. *)
Definition district_aqi (self : t) (district : string) : option Q :=
  let current_year_int := py_int (year self) in
  let next_year_int := Z.min 2023 (current_year_int + 1) in
  let year_fraction := year self - inject_Z current_year_int in
  by_year ← district_data self !! district;
  sample ← by_year !! current_year_int;
  let aqi := np_mean sample in
  if Qltb 0 year_fraction then
    match by_year !! next_year_int with
    | Some next =>
        let next_aqi := np_mean next in
        Some (aqi + (next_aqi - aqi) * year_fraction)
    | None => Some aqi
    end
  else Some aqi.

(** The value of the local [overall_aqi] of [draw] at line 458, computed
    by lines 449-456. *)
Definition overall_aqi (self : t) : option Q :=
  let current_year_int := py_int (year self) in
  let next_year_int := Z.min 2023 (current_year_int + 1) in
  let year_fraction := year self - inject_Z current_year_int in
  sample ← aqi_data self !! current_year_int;
  let overall_aqi := np_mean sample in
  if Qltb 0 year_fraction then
    match aqi_data self !! next_year_int with
    | Some next =>
        let next_aqi := np_mean next in
        Some (overall_aqi + (next_aqi - overall_aqi) * year_fraction)
    | None => Some overall_aqi
    end
  else Some overall_aqi.

(** One cell of the district grid, as [draw_district_visualization]
    renders it. *)
Record Cell := {
  cell_rect : Z * Z * Z * Z;
  cell_fill : Color;
  cell_name : string;
  cell_aqi_text : Z;
  cell_highlight : bool
}.

Definition draw_district_visualization (self : t) : option (list Cell) :=
  let margin := 50%Z in
  let grid_size := 3%Z in
  let cell_width := ((WIDTH - 2 * margin) `div` grid_size)%Z in
  let cell_height := 200%Z in
  mapM (fun '(i, district) =>
          let row := (Z.of_nat i `div` grid_size)%Z in
          let col := (Z.of_nat i `mod` grid_size)%Z in
          let x := (margin + col * cell_width)%Z in
          let y := (100 + row * cell_height)%Z in
          aqi ← district_aqi self district;
          color ← get_color_for_value aqi 0 150;
          Some {| cell_rect := (x, y, cell_width - 10, cell_height - 10)%Z;
                  cell_fill := color;
                  cell_name := district;
                  cell_aqi_text := py_int aqi;
                  cell_highlight :=
                    bool_decide (Some district = selected_district self) |})
       (imap (fun i district => (i, district)) DISTRICTS).

(** [sorted(self.particles, key=lambda p: p.z)]: a stable sort. *)
Fixpoint insert_by_z (p : Particle.t) (l : list Particle.t) : list Particle.t :=
  match l with
  | [] => [p]
  | q :: l' =>
      if Qle_bool (Particle.z p) (Particle.z q) then p :: q :: l'
      else q :: insert_by_z p l'
  end.

Definition sorted_by_z (l : list Particle.t) : list Particle.t :=
  foldr insert_by_z [] l.

(** [self.timeline_graph]: created at line 212 and never assigned
    again. *)
Definition timeline_graph : Graph.t :=
  Graph.init 150 (HEIGHT - 200) (WIDTH - 300) 150.

(** What [draw] shows of the animation state: the district cells, the
    timeline graph, the particles back to front, the year and the overall
    AQI.  The legend and the event box, which cannot raise and read no
    state the properties below depend on, are left out. *)
Record Frame := {
  frame_cells : list Cell;
  frame_timeline : Graph.Drawn;
  frame_particles : list Particle.Drawn;
  frame_year_text : Z;
  frame_aqi_text : Z
}.

Definition draw (self : t) : option Frame :=
  cells ← draw_district_visualization self;
  timeline ← Graph.draw timeline_graph (aqi_data self) (1993, 2023)%Z;
  let sorted_particles := sorted_by_z (particles self) in
  aqi ← overall_aqi self;
  Some {| frame_cells := cells;
          frame_timeline := timeline;
          frame_particles := map Particle.draw sorted_particles;
          frame_year_text := py_int (year self);
          frame_aqi_text := py_int aqi |}.

Section WithNumpy.
Variables np_cos np_sin : Q -> Q.

(** [update_particles], lines 303-328.  [env i] is what the [move] of the
    [i]-th particle reads. *)
Definition update_particles (self : t) (env : nat -> Particle.MoveEnv)
    : option t :=
  let year1 :=
    if Qltb 0.01 (Qabs (year self - inject_Z (target_year self)))
    then year self
         + (inject_Z (target_year self) - year self)
           * year_transition_speed self
    else inject_Z (target_year self) in
  let self := set_year self year1 in
  aqi ← current_aqi self;
  let '(color, size, speed) := get_particle_properties aqi in
  let moved :=
    imap (fun i (particle : Particle.t) =>
            let particle :=
              {| Particle.x := Particle.x particle;
                 Particle.y := Particle.y particle;
                 Particle.z := Particle.z particle;
                 Particle.color := color;
                 Particle.base_size := Particle.base_size particle;
                 Particle.speed := speed;
                 Particle.angle := Particle.angle particle;
                 Particle.size := Some size |} in
            Particle.move np_cos np_sin particle (env i))
         (particles self) in
  Some (set_particles self moved).

End WithNumpy.

End AirQualityViz.

(** [n] successive calls of [update_particles]; the call numbered [k]
    (from 0) reads [envs k]. *)
Section Ticks.
Variables np_cos np_sin : Q -> Q.

Fixpoint run_ticks (n : nat) (envs : nat -> nat -> Particle.MoveEnv)
    (self : AirQualityViz.t) : option AirQualityViz.t :=
  match n with
  | O => Some self
  | S n' =>
      self' ← run_ticks n' envs self;
      AirQualityViz.update_particles np_cos np_sin self' (envs n')
  end.

End Ticks.

(** ** The main loop (lines 468-511) *)

Inductive Key := K_RIGHT | K_LEFT | K_SPACE | K_OTHER.

Inductive Event :=
  | QUIT
  | KEYDOWN (key : Key)
  | MOUSEBUTTONDOWN (pos : Z * Z)
  | OTHER_EVENT.

(** The local variables of [main]. *)
Record Loop := {
  viz : AirQualityViz.t;
  running : bool;
  frame_count : Z
}.

(** The body of the event loop, lines 476-499. *)
Definition handle_event (st : Loop) (event : Event) : option Loop :=
  match event with
  | QUIT =>
      Some {| viz := viz st; running := false; frame_count := frame_count st |}
  | KEYDOWN K_RIGHT =>
      let v := AirQualityViz.set_target_year (viz st)
                 (Z.min 2023 (AirQualityViz.target_year (viz st) + 1)) in
      Some {| viz := v; running := running st; frame_count := frame_count st |}
  | KEYDOWN K_LEFT =>
      let v := AirQualityViz.set_target_year (viz st)
                 (Z.max 1993 (AirQualityViz.target_year (viz st) - 1)) in
      Some {| viz := v; running := running st; frame_count := frame_count st |}
  | KEYDOWN K_SPACE =>
      Some {| viz := viz st; running := running st; frame_count := 0 |}
  | KEYDOWN K_OTHER => Some st
  | MOUSEBUTTONDOWN (mouse_x, mouse_y) =>
      let margin := 50%Z in
      let grid_size := 3%Z in
      let cell_width := ((WIDTH - 2 * margin) `div` grid_size)%Z in
      let cell_height := 200%Z in
      if (100 <=? mouse_y)%Z && (mouse_y <=? 700)%Z then
        let row := ((mouse_y - 100) `div` cell_height)%Z in
        let col := ((mouse_x - margin) `div` cell_width)%Z in
        let index := (row * grid_size + col)%Z in
        if (0 <=? index)%Z && (index <? Z.of_nat (length DISTRICTS))%Z then
          district ← py_index DISTRICTS index;
          let v := AirQualityViz.set_selected_district (viz st) (Some district) in
          Some {| viz := v; running := running st;
                  frame_count := frame_count st |}
        else Some st
      else Some st
  | OTHER_EVENT => Some st
  end.

(** The state after a pointer press that selects district [d]
    (line 499). *)
Definition select (st : Loop) (d : string) : Loop :=
  {| viz := AirQualityViz.set_selected_district (viz st) (Some d);
     running := running st; frame_count := frame_count st |}.

(** What one pass of the [while] loop reads: the pending events and the
    environment of the particle moves. *)
Record FrameInput := {
  events : list Event;
  move_env : nat -> Particle.MoveEnv
}.

Section WithNumpy.
Variables np_cos np_sin : Q -> Q.

(** One pass of the body of [while running], lines 475-511. *)
Definition frame (st : Loop) (inp : FrameInput)
    : option (Loop * AirQualityViz.Frame) :=
  st1 ← for_each (events inp) handle_event st;
  v ← AirQualityViz.update_particles np_cos np_sin (viz st1) (move_env inp);
  shown ← AirQualityViz.draw v;
  let frame_count1 := (frame_count st1 + 1)%Z in
  if (300 <=? frame_count1)%Z then
    let v1 :=
      AirQualityViz.set_target_year v
        (if (AirQualityViz.target_year v <? 2023)%Z
         then (AirQualityViz.target_year v + 1)%Z else 1993%Z) in
    Some ({| viz := v1; running := running st1; frame_count := 0 |}, shown)
  else
    Some ({| viz := v; running := running st1; frame_count := frame_count1 |},
          shown).

(** [while running]: the passes made for a given sequence of inputs. *)
Fixpoint main_loop (st : Loop) (inputs : list FrameInput) : option Loop :=
  match inputs with
  | [] => Some st
  | inp :: rest =>
      if running st then
        '(st1, _) ← frame st inp;
        main_loop st1 rest
      else Some st
  end.

(** The state of [main] when the loop is entered, lines 469-472. *)
Definition main_start (g : NpRandom) (seeds : nat -> AirQualityViz.ParticleSeed)
    : option Loop :=
  '(v, _) ← AirQualityViz.init g seeds;
  Some {| viz := v; running := true; frame_count := 0 |}.

End WithNumpy.

(** ** Reference definitions from the specification *)

(** The point at fraction [f] of the way from channel value [a] to channel
    value [b]: the linear interpolation the specification names. *)
Definition linear_interpolation (a b : Z) (f : Q) : Q :=
  inject_Z a + (inject_Z b - inject_Z a) * f.

(** The allowance for the rounding of a binary64 evaluation, which the
    rational model leaves out: far above the error of a few operations on
    values below 1000, far below 1. *)
Definition rounding_slack : Q := 1 # 1000000000.

(** [n] is the integer part of a non-negative value that is [x] up to the
    rounding allowance. *)
Definition int_of_about (x : Q) (n : Z) : Prop :=
  x - 1 - rounding_slack <= inject_Z n <= x + rounding_slack.

(** The interpolated-value rule in the specification's words: with
    [y0 = floor(current_year)], [y1 = min(2023, y0+1)] and
    [frac = current_year - y0], the value is [mean(sample[y0])], moved
    toward [mean(sample[y1])] by [frac] when [frac > 0] and [y1] has
    data. *)
Definition interpolated_value (sample : gmap Z (list Q)) (current_year : Q)
    : option Q :=
  let y0 := Qfloor current_year in
  let y1 := Z.min 2023 (y0 + 1) in
  let frac := current_year - inject_Z y0 in
  s0 ← sample !! y0;
  let value := np_mean s0 in
  match sample !! y1 with
  | Some s1 =>
      if Qltb 0 frac then Some (value + (np_mean s1 - value) * frac)
      else Some value
  | None => Some value
  end.

(** ** Predicates of the statements *)

(** A value inside the range the generators clip to. *)
Definition in_range (v : Q) : Prop := 0 <= v <= 150.

(** A year's sample: twelve monthly values, all in range. *)
Definition good_sample (s : list Q) : Prop :=
  length s = 12%nat /\ Forall in_range s.

(** The invariant of the loops of [generate_district_data]: every district
    is a key, every stored sample is good, and the entries [done d y] are
    present. *)
Definition district_inv (done : string -> Z -> Prop)
    (acc : gmap string (gmap Z (list Q)) * NpRandom) : Prop :=
  (forall d, d ∈ DISTRICTS -> is_Some (acc.1 !! d)) /\
  (forall d m y s, acc.1 !! d = Some m -> m !! y = Some s -> good_sample s) /\
  (forall d y, done d y -> exists m s, acc.1 !! d = Some m /\ m !! y = Some s).

(** The value [update_particles] assigns to [self.year]
    (lines 306-309). *)
Definition stepped_year (self : AirQualityViz.t) : Q :=
  if Qltb 0.01 (Qabs (AirQualityViz.year self
                      - inject_Z (AirQualityViz.target_year self)))
  then AirQualityViz.year self
       + (inject_Z (AirQualityViz.target_year self) - AirQualityViz.year self)
         * AirQualityViz.year_transition_speed self
  else inject_Z (AirQualityViz.target_year self).

(** The three assignments of [update_particles] to a particle
    (lines 325-327). *)
Definition restyle (color : Color) (size speed : Q) (p : Particle.t)
    : Particle.t :=
  {| Particle.x := Particle.x p; Particle.y := Particle.y p;
     Particle.z := Particle.z p; Particle.color := color;
     Particle.base_size := Particle.base_size p; Particle.speed := speed;
     Particle.angle := Particle.angle p; Particle.size := Some size |}.

(** The distance from 1993 to the target 2000 left after [n] ticks of the
    transition: [7 * 0.95 ^ n]. *)
Fixpoint remaining_gap (n : nat) : Q :=
  match n with
  | O => 7
  | S n' => remaining_gap n' * (19 # 20)
  end.

(** The states of the visualisation the main loop runs in: both years in
    range, the transition rate of [__init__], and a sample for every
    year, overall and per district. *)
Definition good_state (v : AirQualityViz.t) : Prop :=
  (1993 <= AirQualityViz.target_year v <= 2023)%Z /\
  1993 <= AirQualityViz.year v <= 2023 /\
  AirQualityViz.year_transition_speed v == 0.05 /\
  (forall y, (1993 <= y <= 2023)%Z -> is_Some (AirQualityViz.aqi_data v !! y)) /\
  (forall d y, d ∈ DISTRICTS -> (1993 <= y <= 2023)%Z ->
     exists m s, AirQualityViz.district_data v !! d = Some m /\ m !! y = Some s).

(** The locals of [main] in [st'] are those of [st] up to the selected
    district: every other attribute of [viz], [running] and the frame
    counter are equal. *)
Definition same_but_selection (st st' : Loop) : Prop :=
  AirQualityViz.particles (viz st') = AirQualityViz.particles (viz st) /\
  AirQualityViz.year (viz st') = AirQualityViz.year (viz st) /\
  AirQualityViz.target_year (viz st') = AirQualityViz.target_year (viz st) /\
  AirQualityViz.year_transition_speed (viz st')
  = AirQualityViz.year_transition_speed (viz st) /\
  AirQualityViz.aqi_data (viz st') = AirQualityViz.aqi_data (viz st) /\
  AirQualityViz.district_data (viz st') = AirQualityViz.district_data (viz st) /\
  AirQualityViz.historical_events (viz st')
  = AirQualityViz.historical_events (viz st) /\
  running st' = running st /\
  frame_count st' = frame_count st.

(** [n] passes of the loop without events; pass [k] reads [envs k]. *)
Definition idle_frames (n : nat) (envs : nat -> nat -> Particle.MoveEnv)
    : list FrameInput :=
  map (fun k => {| events := []; move_env := envs k |}) (seq 0 n).

(** *** Further predicates *)

(** The distance [g0] to the target after [n] ticks of the transition:
    [g0 * 0.95 ^ n]. *)
Fixpoint gap_after (g0 : Q) (n : nat) : Q :=
  match n with
  | O => g0
  | S n' => gap_after g0 n' * (19 # 20)
  end.

(** A sine: all values in [-1, 1]. *)
Definition unit_sin (f : Q -> Q) : Prop := forall a, -1 <= f a <= 1.

(** What the main loop never assigns: the two datasets, the [base_size]
    of the particles and the transition rate. *)
Definition fixed_parts (v : AirQualityViz.t)
    : gmap Z (list Q) * gmap string (gmap Z (list Q)) * list Q * Q :=
  (AirQualityViz.aqi_data v, AirQualityViz.district_data v,
   map Particle.base_size (AirQualityViz.particles v),
   AirQualityViz.year_transition_speed v).

(** Every stored sample is twelve values in [0, 150]. *)
Definition good_data (v : AirQualityViz.t) : Prop :=
  map_Forall (fun _ s => good_sample s) (AirQualityViz.aqi_data v) /\
  (forall d m y s,
     AirQualityViz.district_data v !! d = Some m -> m !! y = Some s ->
     good_sample s).

(** A press of the space key. *)
Definition is_space (e : Event) : bool :=
  match e with KEYDOWN K_SPACE => true | _ => false end.

(** [event.type == pygame.QUIT]. *)
Definition is_quit (e : Event) : bool :=
  match e with QUIT => true | _ => false end.

(** [n] passes of the loop that each receive one space key. *)
Definition space_passes (n : nat) (envs : nat -> nat -> Particle.MoveEnv)
    : list FrameInput :=
  map (fun k => {| events := [KEYDOWN K_SPACE]; move_env := envs k |})
      (seq 0 n).

(** Two rectangles [(x, y, w, h)] that share no point. *)
Definition disjoint_rects (a b : Z * Z * Z * Z) : Prop :=
  let '(xa, ya, wa, ha) := a in
  let '(xb, yb, wb, hb) := b in
  (xa + wa <= xb \/ xb + wb <= xa \/ ya + ha <= yb \/ yb + hb <= ya)%Z.

(** The key of the sort of [draw]: [p] is not in front of [q]. *)
Definition z_le (p q : Particle.t) : Prop := Particle.z p <= Particle.z q.

(** The generator [g] after [n] more draws. *)
Definition advance (g : NpRandom) (n : nat) : NpRandom :=
  {| draws := draws g; pos := (pos g + n)%nat |}.

(** The next [n] draws of [g]. *)
Definition next_draws (g : NpRandom) (n : nat) : list Q :=
  (fun m => draws g (pos g + m)%nat) <$> seq 0 n.

(** A district sample made from the base sample [b] of its year: one
    offset [v] added to every month, then clipped. *)
Definition shifted_sample (b : list Q) (v : Q) : list Q :=
  np_clip (map (fun x => x + v) b) 0 150.

(** The values a C [int] holds.  [pygame.Rect] keeps its four fields and
    the edges it derives from them as C [int]s; the model keeps them as
    integers, which is the same for a rectangle that fits. *)
Definition c_int (n : Z) : Prop := (- 2 ^ 31 <= n < 2 ^ 31)%Z.
Definition rect_fits (r : Graph.t) : Prop :=
  c_int (Graph.left r) /\ c_int (Graph.top r) /\
  c_int (Graph.width r) /\ c_int (Graph.height r) /\
  c_int (Graph.right r) /\ c_int (Graph.bottom r).

(** A colour channel, and a colour, that [pygame] accepts. *)
Definition channel (c : Z) : Prop := (0 <= c <= 255)%Z.
Definition rgb (c : Color) : Prop :=
  channel c.1.1 /\ channel c.1.2 /\ channel c.2.

(** ** Sample inputs *)

(** A generator whose draws are all zero, and one whose [n]-th draw is
    [n]. *)
Definition zero_rng : NpRandom := {| draws := fun _ => 0; pos := 0 |}.
Definition counting_rng : NpRandom :=
  {| draws := fun n => inject_Z (Z.of_nat n); pos := 0 |}.

(** The all-zero generator after five draws. *)
Definition zero_rng_later : NpRandom := {| draws := fun _ => 0; pos := 5 |}.

Definition sample_seeds (i : nat) : AirQualityViz.ParticleSeed :=
  {| AirQualityViz.randint_x := Z.of_nat i;
     AirQualityViz.randint_y := 5;
     AirQualityViz.uniform_z := 0;
     AirQualityViz.uniform_angle := 0 |}.

(** The attributes of [self] when [__init__] calls the generators. *)
Definition blank_viz : AirQualityViz.t :=
  {| AirQualityViz.particles := [];
     AirQualityViz.year := 1993;
     AirQualityViz.target_year := 1993;
     AirQualityViz.year_transition_speed := 0.05;
     AirQualityViz.aqi_data := ∅;
     AirQualityViz.district_data := ∅;
     AirQualityViz.selected_district := None;
     AirQualityViz.historical_events := None |}.

(** The state of [main] at the start of the loop, for [zero_rng]. *)
Definition sample_start : Loop :=
  default {| viz := blank_viz; running := true; frame_count := 0 |}
          (main_start zero_rng sample_seeds).

(** The start state with the animation at fractional year [y]. *)
Definition sample_viz_at (y : Q) : AirQualityViz.t :=
  AirQualityViz.set_year (viz sample_start) y.

(** The start state with the animation and its target at the year 2016. *)
Definition sample_viz_2016 : AirQualityViz.t :=
  AirQualityViz.set_target_year (sample_viz_at 2016) 2016.

(** The zero-noise samples of 2000 and 2001. *)
Definition sample_2000 : list Q := AirQualityViz.base_pattern 2000.
Definition sample_2001 : list Q := AirQualityViz.base_pattern 2001.

(** The start state with the target year moved to 2000. *)
Definition sample_viz_to_2000 : AirQualityViz.t :=
  AirQualityViz.set_target_year (viz sample_start) 2000.

Definition still_env : Particle.MoveEnv :=
  {| Particle.uniform := 0; Particle.get_ticks := 0 |}.

(** A particle on the right edge and one on the left edge, with speed 1. *)
Definition edge_particle (x0 : Q) : Particle.t :=
  Particle.init x0 400 COLORS.particle_good 3 1 0 0.

(** The events of a pass in which the window is closed, and of a pass
    without events. *)
Definition quit_input : FrameInput :=
  {| events := [QUIT]; move_env := fun _ => still_env |}.
Definition idle_input : FrameInput :=
  {| events := []; move_env := fun _ => still_env |}.

(** A dataset of two years, without noise. *)
Definition two_year_data : gmap Z (list Q) :=
  <[2000%Z := sample_2000]> {[ 2001%Z := sample_2001 ]}.

(** ** Arithmetic of the primitives *)

Lemma Qltb_true (a b : Q) : Qltb a b = true <-> a < b.
Proof.
  unfold Qltb. rewrite negb_true_iff.
  split; intros H.
  - apply Qnot_le_lt. intros Hle. apply Qle_bool_iff in Hle. congruence.
  - destruct (Qle_bool b a) eqn:E; [|reflexivity].
    apply Qle_bool_iff in E. lra.
Qed.

Lemma Qltb_false (a b : Q) : Qltb a b = false <-> b <= a.
Proof.
  unfold Qltb. rewrite negb_false_iff. apply Qle_bool_iff.
Qed.

Lemma Qle_bool_false (a b : Q) : Qle_bool a b = false <-> b < a.
Proof.
  split; intros H.
  - apply Qnot_le_lt. intros Hle. apply Qle_bool_iff in Hle. congruence.
  - destruct (Qle_bool a b) eqn:E; [|reflexivity].
    apply Qle_bool_iff in E. lra.
Qed.

(** Case analysis on the boolean comparisons of a goal, leaving the
    corresponding order facts as hypotheses. *)
Ltac case_cmp :=
  match goal with
  | |- context [Qltb ?a ?b] =>
      let E := fresh "E" in
      destruct (Qltb a b) eqn:E;
      [apply Qltb_true in E | apply Qltb_false in E]
  | |- context [Qle_bool ?a ?b] =>
      let E := fresh "E" in
      destruct (Qle_bool a b) eqn:E;
      [apply Qle_bool_iff in E | apply Qle_bool_false in E]
  end.

Lemma py_int_floor (q : Q) : 0 <= q -> py_int q = Qfloor q.
Proof.
  destruct q as [n d]. unfold py_int, Qfloor, Qle. simpl. intros H.
  apply Z.quot_div_nonneg; lia.
Qed.

Lemma py_int_inject_Z (n : Z) : py_int (inject_Z n) = n.
Proof. unfold py_int, inject_Z. simpl. apply Z.quot_1_r. Qed.

Lemma py_int_opp (q : Q) : py_int (- q) = (- py_int q)%Z.
Proof.
  destruct q as [n d]. unfold py_int. simpl. apply Z.quot_opp_l. lia.
Qed.

Lemma py_int_comp (a b : Q) : a == b -> py_int a = py_int b.
Proof.
  intros H. destruct (Qlt_le_dec a 0) as [Hneg | Hpos].
  - transitivity (- py_int (- a))%Z; [rewrite py_int_opp; lia|].
    transitivity (- py_int (- b))%Z; [|rewrite py_int_opp; lia].
    f_equal. rewrite !py_int_floor by lra.
    apply Qfloor_comp. rewrite H. reflexivity.
  - rewrite !py_int_floor by lra. apply Qfloor_comp, H.
Qed.

#[global] Instance py_int_proper : Proper (Qeq ==> eq) py_int.
Proof. intros a b H. apply py_int_comp, H. Qed.

(** ** Particle wraparound *)

(** C7.  After the displacement of [move], a coordinate below 0 is set to
    the window's extent and one above the extent is set to 0; a coordinate
    inside the closed range, the two edges included, is kept.  So a
    displaced [x] of [WIDTH + 1] becomes 0 and one of [-1] becomes
    [WIDTH]; [y] behaves the same way with [HEIGHT]. *)
Theorem move_wraps_around (np_cos np_sin : Q -> Q)
    (p : Particle.t) (env : Particle.MoveEnv) :
  let a := Particle.angle p + Particle.uniform env in
  let x1 := Particle.x p + np_cos a * Particle.speed p in
  let y1 := Particle.y p + np_sin a * Particle.speed p in
  let p' := Particle.move np_cos np_sin p env in
  (x1 < 0 -> Particle.x p' = inject_Z WIDTH) /\
  (inject_Z WIDTH < x1 -> Particle.x p' = 0) /\
  (0 <= x1 <= inject_Z WIDTH -> Particle.x p' = x1) /\
  (y1 < 0 -> Particle.y p' = inject_Z HEIGHT) /\
  (inject_Z HEIGHT < y1 -> Particle.y p' = 0) /\
  (0 <= y1 <= inject_Z HEIGHT -> Particle.y p' = y1) /\
  (x1 == inject_Z WIDTH + 1 -> Particle.x p' = 0) /\
  (x1 == -1 -> Particle.x p' = inject_Z WIDTH) /\
  (x1 == 0 \/ x1 == inject_Z WIDTH -> Particle.x p' = x1).
Proof.
  intros a x1 y1 p'.
  assert (HW : inject_Z WIDTH == 1200) by reflexivity.
  assert (HH : inject_Z HEIGHT == 800) by reflexivity.
  subst p'. unfold Particle.move. cbn [Particle.x Particle.y].
  fold a. fold x1. fold y1.
  repeat split; intros H; repeat case_cmp; try reflexivity; lra.
Qed.

Lemma move_wraps_around_witness :
  Particle.x (Particle.move (fun _ => 1) (fun _ => 0)
                (edge_particle 1200) still_env) = 0 /\
  Particle.x (Particle.move (fun _ => -1) (fun _ => 0)
                (edge_particle 0) still_env) = inject_Z WIDTH /\
  Particle.x (Particle.move (fun _ => 0) (fun _ => 0)
                (edge_particle 1200) still_env) = 1200 + 0 * 1.
Proof.
  split; [|split].
  - destruct (move_wraps_around (fun _ => 1) (fun _ => 0)
                (edge_particle 1200) still_env) as (_ & H & _).
    apply H. vm_compute. reflexivity.
  - destruct (move_wraps_around (fun _ => -1) (fun _ => 0)
                (edge_particle 0) still_env) as (H & _).
    apply H. vm_compute. reflexivity.
  - destruct (move_wraps_around (fun _ => 0) (fun _ => 0)
                (edge_particle 1200) still_env) as (_ & _ & H & _).
    apply H. split; vm_compute; discriminate.
Defined.

(** ** District hit-testing *)

Lemma py_index_DISTRICTS (i : Z) :
  (0 <= i < 9)%Z ->
  exists d, DISTRICTS !! Z.to_nat i = Some d /\ py_index DISTRICTS i = Some d.
Proof.
  intros Hi. unfold py_index.
  destruct (i <? 0)%Z eqn:E; [lia|].
  destruct (lookup_lt_is_Some_2 DISTRICTS (Z.to_nat i)) as [d Hd].
  - simpl. lia.
  - exists d. split; exact Hd.
Qed.

Lemma handle_mouse_cases (st : Loop) (mx my : Z) :
  let index :=
    ((my - 100) `div` 200 * 3 + (mx - 50) `div` ((WIDTH - 2 * 50) `div` 3))%Z in
  ((100 <= my <= 700)%Z /\ (0 <= index < 9)%Z ->
   exists d, DISTRICTS !! Z.to_nat index = Some d /\
             handle_event st (MOUSEBUTTONDOWN (mx, my)) = Some (select st d)) /\
  (~ ((100 <= my <= 700)%Z /\ (0 <= index < 9)%Z) ->
   handle_event st (MOUSEBUTTONDOWN (mx, my)) = Some st).
Proof.
  intros index. unfold handle_event. fold index.
  change (Z.of_nat (length DISTRICTS)) with 9%Z.
  split.
  - intros [Hy Hi].
    destruct (py_index_DISTRICTS index Hi) as (d & Hd & Hp).
    exists d. split; [exact Hd|].
    replace ((100 <=? my)%Z && (my <=? 700)%Z) with true
      by (symmetry; apply andb_true_iff; split; lia).
    replace ((0 <=? index)%Z && (index <? 9)%Z) with true
      by (symmetry; apply andb_true_iff; split; lia).
    rewrite Hp. reflexivity.
  - intros Hn.
    destruct ((100 <=? my)%Z && (my <=? 700)%Z) eqn:Ey; [|reflexivity].
    destruct ((0 <=? index)%Z && (index <? 9)%Z) eqn:Ei; [|reflexivity].
    apply andb_true_iff in Ey, Ei. exfalso. apply Hn. lia.
Qed.

Lemma select_spec (st : Loop) (d : string) :
  AirQualityViz.selected_district (viz (select st d)) = Some d /\
  same_but_selection st (select st d).
Proof. split; [reflexivity|]. unfold same_but_selection. tauto. Qed.

(** C6.  A pointer press never raises.  With [row = (my-100) div 200],
    [col = (mx-50) div cell_width] and [index = row*3 + col], the press
    selects [DISTRICTS[index]] when [100 <= my <= 700] and
    [0 <= index < 9]: afterwards [selected_district] is that district and
    nothing else has changed.  Otherwise it leaves the whole state, the
    selection included, as it was.  A press at (50, 100) selects
    [DISTRICTS[0]]; a press at [my = 50] changes nothing. *)
Theorem hit_test_selects_by_index (st : Loop) (mx my : Z) :
  let cell_width := ((WIDTH - 2 * 50) `div` 3)%Z in
  let row := ((my - 100) `div` 200)%Z in
  let col := ((mx - 50) `div` cell_width)%Z in
  let index := (row * 3 + col)%Z in
  ((100 <= my <= 700)%Z /\ (0 <= index < 9)%Z ->
   exists d st',
     DISTRICTS !! Z.to_nat index = Some d /\
     handle_event st (MOUSEBUTTONDOWN (mx, my)) = Some st' /\
     AirQualityViz.selected_district (viz st') = Some d /\
     same_but_selection st st') /\
  (~ ((100 <= my <= 700)%Z /\ (0 <= index < 9)%Z) ->
   handle_event st (MOUSEBUTTONDOWN (mx, my)) = Some st) /\
  (exists st',
     handle_event st (MOUSEBUTTONDOWN (50, 100)%Z) = Some st' /\
     DISTRICTS !! 0%nat = Some "Central & Western"%string /\
     AirQualityViz.selected_district (viz st')
     = Some "Central & Western"%string /\
     same_but_selection st st') /\
  handle_event st (MOUSEBUTTONDOWN (mx, 50)%Z) = Some st.
Proof.
  intros cell_width row col index.
  destruct (handle_mouse_cases st mx my) as [Hsel Hnot].
  split; [|split; [exact Hnot|split]].
  - intros H. destruct (Hsel H) as (d & Hd & E).
    exists d, (select st d). split; [exact Hd|]. split; [exact E|].
    apply select_spec.
  - exists (select st "Central & Western"%string).
    split; [reflexivity|]. split; [reflexivity|]. apply select_spec.
  - reflexivity.
Qed.

Lemma hit_test_selects_by_index_witness :
  (exists st',
     handle_event sample_start (MOUSEBUTTONDOWN (500, 350)%Z) = Some st' /\
     AirQualityViz.selected_district (viz st')
     = Some "Kowloon City"%string) /\
  handle_event sample_start (MOUSEBUTTONDOWN (1199, 700)%Z) = Some sample_start.
Proof.
  destruct (hit_test_selects_by_index sample_start 500 350) as (H1 & _).
  destruct (hit_test_selects_by_index sample_start 1199 700) as (_ & H2 & _).
  split.
  - destruct H1 as (d & st' & Hd & E & Hs & _).
    + vm_compute. repeat split; discriminate.
    + vm_compute in Hd. injection Hd as <-.
      exists st'. split; [exact E | exact Hs].
  - apply H2. vm_compute. intros [_ [_ H]]. discriminate H.
Defined.

(** C10.  A press left of the grid margin, in the rows from [my = 300]
    down, has [col = -1], so its index [row*3 - 1] is 2, 5 or 8 and the
    press selects the last district of the row above: afterwards
    [selected_district] is that district, whatever it was before.  A press
    at (0, 300) selects [DISTRICTS[2]].  Window coordinates are not
    negative; the statement holds for every [mx] from -316 on. *)
Theorem left_margin_press_selects (st : Loop) (mx my : Z) :
  (-316 <= mx < 50)%Z -> (300 <= my <= 700)%Z ->
  let cell_width := ((WIDTH - 2 * 50) `div` 3)%Z in
  let row := ((my - 100) `div` 200)%Z in
  let col := ((mx - 50) `div` cell_width)%Z in
  let index := (row * 3 + col)%Z in
  col = (-1)%Z /\ index = (row * 3 - 1)%Z /\ (0 <= index < 9)%Z /\
  (exists d st',
     DISTRICTS !! Z.to_nat index = Some d /\
     handle_event st (MOUSEBUTTONDOWN (mx, my)) = Some st' /\
     AirQualityViz.selected_district (viz st') = Some d /\
     same_but_selection st st') /\
  (exists st',
     handle_event st (MOUSEBUTTONDOWN (0, 300)%Z) = Some st' /\
     DISTRICTS !! 2%nat = Some "Southern"%string /\
     AirQualityViz.selected_district (viz st') = Some "Southern"%string).
Proof.
  intros Hx Hy cell_width row col index.
  assert (Hcol : col = (-1)%Z).
  { subst col cell_width. change ((WIDTH - 2 * 50) `div` 3)%Z with 366%Z.
    symmetry. apply (Z.div_unique_pos _ _ _ (mx - 50 + 366)); lia. }
  assert (Hrow : (1 <= row <= 3)%Z).
  { subst row. split.
    - apply Z.div_le_lower_bound; lia.
    - apply Z.div_le_upper_bound; lia. }
  assert (Hidx : index = (row * 3 - 1)%Z) by (subst index; lia).
  split; [exact Hcol|]. split; [exact Hidx|]. split; [lia|]. split.
  - destruct (handle_mouse_cases st mx my) as [Hsel _].
    fold cell_width row col index in Hsel.
    destruct Hsel as (d & Hd & E); [lia|].
    exists d, (select st d). split; [exact Hd|]. split; [exact E|].
    apply select_spec.
  - exists (select st "Southern"%string).
    split; [reflexivity|]. split; reflexivity.
Qed.

Lemma left_margin_press_selects_witness :
  exists st',
    handle_event sample_start (MOUSEBUTTONDOWN (0, 300)%Z) = Some st' /\
    AirQualityViz.selected_district (viz st') = Some "Southern"%string.
Proof.
  destruct (left_margin_press_selects sample_start 0 300)
    as (_ & _ & _ & _ & st' & E & _ & Hs); [lia | lia |].
  exists st'. split; [exact E | exact Hs].
Defined.

(** ** Color mapper *)

Lemma py_index_nonneg {A : Type} (l : list A) (i : Z) :
  (0 <= i)%Z -> py_index l i = l !! Z.to_nat i.
Proof.
  intros H. unfold py_index. destruct (i <? 0)%Z eqn:E; [lia | reflexivity].
Qed.

Lemma floor_bounds (v : Q) (k : Z) :
  k = Qfloor (v / 30) -> 30 * inject_Z k <= v /\ v < 30 * (inject_Z k + 1).
Proof.
  intros ->. pose proof (Qfloor_le (v / 30)) as H1.
  pose proof (Qlt_floor (v / 30)) as H2.
  rewrite inject_Z_plus in H2. change (inject_Z 1) with 1 in H2.
  assert (Hv : v == 30 * (v / 30)) by (field).
  split; lra.
Qed.


Lemma interpolate_channel_comp (a b : Z) (f1 f2 : Q) :
  f1 == f2 -> interpolate_channel a b f1 = interpolate_channel a b f2.
Proof.
  intros H. unfold interpolate_channel. apply py_int_comp.
  rewrite H. reflexivity.
Qed.

Lemma interpolate_color_comp (c1 c2 : Color) (f1 f2 : Q) :
  f1 == f2 -> interpolate_color c1 c2 f1 = interpolate_color c1 c2 f2.
Proof.
  intros H. destruct c1 as [[r1 g1] b1], c2 as [[r2 g2] b2].
  unfold interpolate_color.
  rewrite !(interpolate_channel_comp _ _ f1 f2 H). reflexivity.
Qed.

Lemma interpolate_color_0 (c1 c2 : Color) : interpolate_color c1 c2 0 = c1.
Proof.
  destruct c1 as [[r1 g1] b1], c2 as [[r2 g2] b2].
  unfold interpolate_color, interpolate_channel.
  rewrite !(py_int_comp (_ + _ * 0) (inject_Z _)) by ring.
  rewrite !py_int_inject_Z. reflexivity.
Qed.

Lemma get_color_between (v : Q) :
  0 < v -> v < 150 ->
  let k := Qfloor (v / 30) in
  let f := (v - 30 * inject_Z k) / 30 in
  (0 <= k <= 4)%Z /\
  get_color_for_value v 0 150 =
    (c1 ← GRADIENT_COLORS !! Z.to_nat k;
     c2 ← GRADIENT_COLORS !! S (Z.to_nat k);
     Some (interpolate_color c1 c2 f)).
Proof.
  intros H0 H150 k f.
  unfold get_color_for_value.
  case_cmp; [lra|]. case_cmp; [lra|].
  set (ss := (150 - 0) / inject_Z (Z.of_nat (length GRADIENT_COLORS) - 1)).
  assert (Hss : ss == 30) by reflexivity.
  assert (Hdiv : (v - 0) / ss == v / 30) by (rewrite Hss; field).
  assert (Hk : py_int ((v - 0) / ss) = k).
  { rewrite Hdiv, py_int_floor; [reflexivity|].
    apply Qle_shift_div_l; lra. }
  rewrite Hk.
  destruct (floor_bounds v k eq_refl) as [Hlo Hhi].
  assert (Hk0 : (0 <= k)%Z).
  { subst k. change 0%Z with (Qfloor 0). apply Qfloor_resp_le.
    apply Qle_shift_div_l; lra. }
  assert (Hk4 : (k <= 4)%Z).
  { assert (Hq : inject_Z k < inject_Z 5) by (change (inject_Z 5) with 5; lra).
    rewrite <- Zlt_Qlt in Hq. lia. }
  split; [lia|].
  rewrite !py_index_nonneg by lia.
  replace (Z.to_nat (k + 1)) with (S (Z.to_nat k)) by lia.
  assert (Hf : py_mod (v - 0) ss / ss == f).
  { unfold py_mod. rewrite (Qfloor_comp _ _ Hdiv). fold k.
    subst f. rewrite Hss. field. }
  destruct (GRADIENT_COLORS !! Z.to_nat k) as [c1|]; [|reflexivity].
  destruct (GRADIENT_COLORS !! S (Z.to_nat k)) as [c2|]; [|reflexivity].
  simpl. f_equal. apply interpolate_color_comp, Hf.
Qed.

(** The channels of the model's result inside the range, evaluated
    without rounding. *)
Lemma get_color_exact (v : Q) :
  0 < v -> v < 150 ->
  let k := Qfloor (v / 30) in
  let f := (v - 30 * inject_Z k) / 30 in
  exists r1 g1 b1 r2 g2 b2 : Z,
    GRADIENT_COLORS !! Z.to_nat k = Some (r1, g1, b1) /\
    GRADIENT_COLORS !! S (Z.to_nat k) = Some (r2, g2, b2) /\
    get_color_for_value v 0 150 =
      Some (Qfloor (linear_interpolation r1 r2 f),
            Qfloor (linear_interpolation g1 g2 f),
            Qfloor (linear_interpolation b1 b2 f)).
Proof.
  intros H0 H150 k f.
  destruct (get_color_between v H0 H150) as [Hk Hc]. fold k f in Hk, Hc.
  destruct (floor_bounds v k eq_refl) as [Hlo Hhi].
  assert (Hf : 0 <= f < 1).
  { subst f. split.
    - apply Qle_shift_div_l; lra.
    - apply Qlt_shift_div_r; lra. }
  rewrite Hc. clear Hc.
  assert (Hcases : k = 0%Z \/ k = 1%Z \/ k = 2%Z \/ k = 3%Z \/ k = 4%Z) by lia.
  unfold linear_interpolation.
  destruct Hcases as [-> | [-> | [-> | [-> | ->]]]];
    (do 6 eexists; split; [reflexivity|]; split; [reflexivity|];
     simpl; unfold interpolate_channel;
     repeat f_equal; apply py_int_floor;
     repeat match goal with
            | |- context [inject_Z ?n] => change (inject_Z n) with (n # 1)
            end; lra).
Qed.

Lemma floor_int_of_about (x : Q) : int_of_about x (Qfloor x).
Proof.
  pose proof (Qfloor_le x) as H1. pose proof (Qlt_floor x) as H2.
  rewrite inject_Z_plus in H2. change (inject_Z 1) with 1 in H2.
  unfold int_of_about, rounding_slack. split; lra.
Qed.

(** C4.  [get_color_for_value(v, 0, 150)] returns the first gradient stop
    for [v <= 0] and the last one for [v >= 150].  For [0 < v < 150], with
    [k] the index of the section of width 30 that contains [v] and [f] the
    fraction of that section below [v], every channel of the result is
    the integer part of the linear interpolation between stop [k] and stop
    [k+1] at [f], up to the rounding of the floating-point evaluation: it
    lies between the interpolation less 1 and the interpolation, within
    the rounding allowance.  At [v = 30 k] with [1 <= k <= 4] the result
    is stop [k] itself. *)
Theorem color_mapper_contract (v : Q) :
  (v <= 0 -> get_color_for_value v 0 150 = head GRADIENT_COLORS) /\
  (150 <= v -> get_color_for_value v 0 150 = last GRADIENT_COLORS) /\
  (0 < v < 150 ->
   let k := Qfloor (v / 30) in
   let f := (v - 30 * inject_Z k) / 30 in
   (0 <= k <= 4)%Z /\
   30 * inject_Z k <= v < 30 * (inject_Z k + 1) /\
   0 <= f < 1 /\
   exists r1 g1 b1 r2 g2 b2 r g b : Z,
     GRADIENT_COLORS !! Z.to_nat k = Some (r1, g1, b1) /\
     GRADIENT_COLORS !! S (Z.to_nat k) = Some (r2, g2, b2) /\
     get_color_for_value v 0 150 = Some (r, g, b) /\
     int_of_about (linear_interpolation r1 r2 f) r /\
     int_of_about (linear_interpolation g1 g2 f) g /\
     int_of_about (linear_interpolation b1 b2 f) b) /\
  (forall k : Z, (1 <= k <= 4)%Z -> v == 30 * inject_Z k ->
     get_color_for_value v 0 150 = GRADIENT_COLORS !! Z.to_nat k).
Proof.
  split; [|split; [|split]].
  - intros H. unfold get_color_for_value. case_cmp; [reflexivity | lra].
  - intros H. unfold get_color_for_value.
    case_cmp; [lra|]. case_cmp; [reflexivity | lra].
  - intros [H0 H150] k f.
    destruct (get_color_between v H0 H150) as [Hk _]. fold k in Hk.
    destruct (floor_bounds v k eq_refl) as [Hlo Hhi].
    assert (Hf : 0 <= f < 1).
    { subst f. split.
      - apply Qle_shift_div_l; lra.
      - apply Qlt_shift_div_r; lra. }
    split; [exact Hk|]. split; [split; assumption|]. split; [exact Hf|].
    destruct (get_color_exact v H0 H150)
      as (r1 & g1 & b1 & r2 & g2 & b2 & E1 & E2 & E).
    fold k in E1, E2, E. fold f in E.
    exists r1, g1, b1, r2, g2, b2.
    exists (Qfloor (linear_interpolation r1 r2 f)),
           (Qfloor (linear_interpolation g1 g2 f)),
           (Qfloor (linear_interpolation b1 b2 f)).
    split; [exact E1|]. split; [exact E2|]. split; [exact E|].
    split; [|split]; apply floor_int_of_about.
  - intros k Hk Hv.
    assert (H0 : 0 < v).
    { rewrite Hv. assert (inject_Z 1 <= inject_Z k) by (rewrite <- Zle_Qle; lia).
      change (inject_Z 1) with 1 in *. lra. }
    assert (H150 : v < 150).
    { rewrite Hv. assert (inject_Z k <= inject_Z 4) by (rewrite <- Zle_Qle; lia).
      change (inject_Z 4) with 4 in *. lra. }
    destruct (get_color_between v H0 H150) as [_ Hc].
    assert (Hfl : Qfloor (v / 30) = k).
    { rewrite <- (Qfloor_Z k). apply Qfloor_comp. rewrite Hv. field. }
    rewrite Hfl in Hc. rewrite Hc.
    assert (Hf : (v - 30 * inject_Z k) / 30 == 0) by (rewrite Hv; field).
    assert (Hcases : k = 1%Z \/ k = 2%Z \/ k = 3%Z \/ k = 4%Z) by lia.
    destruct (GRADIENT_COLORS !! Z.to_nat k) as [c1|] eqn:E1;
      [|destruct Hcases as [-> | [-> | [-> | ->]]]; discriminate E1].
    destruct (GRADIENT_COLORS !! S (Z.to_nat k)) as [c2|] eqn:E2;
      [|destruct Hcases as [-> | [-> | [-> | ->]]]; discriminate E2].
    cbn [mbind option_bind]. f_equal.
    rewrite (interpolate_color_comp _ _ _ 0 Hf). apply interpolate_color_0.
Qed.

Lemma color_mapper_contract_witness :
  get_color_for_value (-3) 0 150 = Some (50, 205, 50)%Z /\
  get_color_for_value 200 0 150 = Some (128, 0, 0)%Z /\
  (exists r g b : Z,
     get_color_for_value 45 0 150 = Some (r, g, b) /\
     int_of_about
       (linear_interpolation 255 165 ((45 - 30 * inject_Z 1) / 30)) g) /\
  get_color_for_value 60 0 150 = Some (255, 165, 0)%Z.
Proof.
  destruct (color_mapper_contract (-3)) as (H1 & _).
  destruct (color_mapper_contract 200) as (_ & H2 & _).
  destruct (color_mapper_contract 45) as (_ & _ & H3 & _).
  destruct (color_mapper_contract 60) as (_ & _ & _ & H4).
  split; [|split; [|split]].
  - apply H1. vm_compute. discriminate.
  - apply H2. vm_compute. discriminate.
  - destruct H3
      as (_ & _ & _ & r1 & g1 & b1 & r2 & g2 & b2 & r & g & b
          & E1 & E2 & E3 & _ & Hg & _).
    + split; vm_compute; reflexivity.
    + vm_compute in E1, E2.
      injection E1 as <- <- <-. injection E2 as <- <- <-.
      exists r, g, b. split; [exact E3 | exact Hg].
  - apply (H4 2%Z); [lia | vm_compute; reflexivity].
Defined.

(** ** Dataset generators *)

Import AirQualityViz.

Lemma clip1_in_range (v : Q) : in_range (clip1 0 150 v).
Proof. unfold clip1, in_range. repeat case_cmp; lra. Qed.

Lemma np_clip_in_range (a : list Q) : Forall in_range (np_clip a 0 150).
Proof.
  unfold np_clip. apply Forall_forall. intros v Hv.
  apply list_elem_of_fmap in Hv as (w & -> & _). apply clip1_in_range.
Qed.

Lemma length_np_clip (a : list Q) (lo hi : Q) : length (np_clip a lo hi) = length a.
Proof. unfold np_clip. apply length_map. Qed.

Lemma normal_n_spec (n : nat) (g : NpRandom) :
  length (normal_n n g).1 = n /\
  draws (normal_n n g).2 = draws g /\
  pos (normal_n n g).2 = (pos g + n)%nat /\
  forall i, (i < n)%nat -> (normal_n n g).1 !! i = Some (draws g (pos g + i)%nat).
Proof.
  revert g. induction n as [|n IH]; intros g.
  - simpl. split_and!; [reflexivity | reflexivity | lia | intros i Hi; lia].
  - simpl. destruct (normal_n n _) as [vs g2] eqn:E.
    specialize (IH {| draws := draws g; pos := S (pos g) |}).
    rewrite E in IH. simpl in IH. destruct IH as (Hl & Hd & Hp & Hi).
    simpl. split_and!; [lia | exact Hd | lia |].
    intros [|i] Hlt; simpl.
    + f_equal. f_equal. lia.
    + rewrite Hi by lia. f_equal. f_equal. lia.
Qed.

Lemma length_base_pattern (year : Z) : length (base_pattern year) = 12%nat.
Proof.
  unfold base_pattern.
  repeat match goal with |- context [if ?b then _ else _] => destruct b end;
    reflexivity.
Qed.

Lemma historical_year_eq (data : gmap Z (list Q)) (g : NpRandom) (year : Z) :
  historical_year (data, g) year
  = (<[year := np_clip (zip_with Qplus (base_pattern year) (normal_n 12 g).1)
                 0 150]> data,
     {| draws := draws g; pos := (pos g + 12)%nat |}).
Proof.
  unfold historical_year.
  destruct (normal_n_spec 12 g) as (_ & Hd & Hp & _).
  destruct (normal_n 12 g) as [noise g1]. cbn [fst snd] in *.
  f_equal. destruct g1; simpl in *; subst; reflexivity.
Qed.

Lemma historical_year_spec (data : gmap Z (list Q)) (g : NpRandom) (year : Z) :
  exists s, good_sample s /\
    historical_year (data, g) year
    = (<[year := s]> data, {| draws := draws g; pos := (pos g + 12)%nat |}).
Proof.
  rewrite historical_year_eq. eexists. split; [|reflexivity].
  split; [|apply np_clip_in_range].
  destruct (normal_n_spec 12 g) as (Hl & _).
  rewrite length_np_clip, length_zip_with, length_base_pattern, Hl. reflexivity.
Qed.

Lemma normal_n_ext (n : nat) (g1 g2 : NpRandom) :
  (forall i, (i < n)%nat ->
     draws g1 (pos g1 + i)%nat = draws g2 (pos g2 + i)%nat) ->
  (normal_n n g1).1 = (normal_n n g2).1.
Proof.
  intros H.
  destruct (normal_n_spec n g1) as (Hl1 & _ & _ & Hi1).
  destruct (normal_n_spec n g2) as (Hl2 & _ & _ & Hi2).
  apply list_eq. intros i. destruct (decide (i < n)%nat) as [Hi | Hi].
  - rewrite Hi1, Hi2 by assumption. f_equal. apply H, Hi.
  - rewrite !lookup_ge_None_2 by lia. reflexivity.
Qed.

Lemma historical_fold_ext (years : list Z) (data : gmap Z (list Q))
    (g1 g2 : NpRandom) :
  (forall i, (i < 12 * length years)%nat ->
     draws g1 (pos g1 + i)%nat = draws g2 (pos g2 + i)%nat) ->
  (foldl historical_year (data, g1) years).1
  = (foldl historical_year (data, g2) years).1.
Proof.
  revert data g1 g2. induction years as [|y ys IH]; intros data g1 g2 H.
  - reflexivity.
  - cbn [foldl]. rewrite !historical_year_eq.
    rewrite (normal_n_ext 12 g1 g2).
    + apply IH. intros i Hi. cbn [draws pos].
      replace (pos g1 + 12 + i)%nat with (pos g1 + (12 + i))%nat by lia.
      replace (pos g2 + 12 + i)%nat with (pos g2 + (12 + i))%nat by lia.
      apply H. simpl length. lia.
    + intros i Hi. apply H. simpl length. lia.
Qed.

Lemma historical_fold_spec (years : list Z) (data : gmap Z (list Q)) (g : NpRandom) :
  map_Forall (fun _ s => good_sample s) data ->
  let r := foldl historical_year (data, g) years in
  map_Forall (fun _ s => good_sample s) r.1 /\
  (forall y, y ∈ years -> is_Some (r.1 !! y)) /\
  (forall y, is_Some (data !! y) -> is_Some (r.1 !! y)) /\
  r.2 = {| draws := draws g; pos := (pos g + 12 * length years)%nat |}.
Proof.
  revert data g. induction years as [|y ys IH]; intros data g Hgood r.
  - subst r. simpl. split_and!; [exact Hgood | | tauto |].
    + intros y Hy. inversion Hy.
    + destruct g; simpl; f_equal; lia.
  - subst r. cbn [foldl].
    destruct (historical_year_spec data g y) as (s & Hs & ->).
    destruct (IH (<[y := s]> data) {| draws := draws g; pos := (pos g + 12)%nat |})
      as (H1 & H2 & H3 & H4).
    { apply map_Forall_insert_2; assumption. }
    split_and!.
    + exact H1.
    + intros y' Hy'. apply elem_of_cons in Hy' as [-> | Hy'].
      * apply H3. rewrite lookup_insert_eq. eauto.
      * apply H2, Hy'.
    + intros y' Hy'. apply H3.
      destruct (decide (y = y')) as [-> | Hne].
      * rewrite lookup_insert_eq. eauto.
      * rewrite lookup_insert_ne by assumption. exact Hy'.
    + rewrite H4. simpl. f_equal. lia.
Qed.

Lemma elem_of_py_range (a b y : Z) : y ∈ py_range a b <-> (a <= y < b)%Z.
Proof. unfold py_range. rewrite elem_of_seqZ. lia. Qed.

Lemma generate_historical_data_spec (self : t) (g : NpRandom) :
  let r := generate_historical_data self g in
  map_Forall (fun _ s => good_sample s) r.1.1 /\
  (forall y, (1993 <= y <= 2023)%Z -> is_Some (r.1.1 !! y)) /\
  r.1.2 = set_historical_events self EVENT_MARKS /\
  r.2 = {| draws := draws g; pos := (pos g + 372)%nat |}.
Proof.
  unfold generate_historical_data.
  destruct (historical_fold_spec (py_range 1993 2024) ∅ g) as (H1 & H2 & _ & H4).
  { apply map_Forall_empty. }
  destruct (foldl historical_year (∅, g) (py_range 1993 2024)) as [data g1].
  simpl in *. split_and!.
  - exact H1.
  - intros y Hy. apply H2, elem_of_py_range. lia.
  - reflexivity.
  - exact H4.
Qed.

(** Loops whose body may raise. *)
Lemma for_each_invariant {A S : Type} (I : S -> Prop) (l : list A)
    (body : S -> A -> option S) (s : S) :
  I s ->
  (forall s a, a ∈ l -> I s -> exists s', body s a = Some s' /\ I s') ->
  exists s', for_each l body s = Some s' /\ I s'.
Proof.
  revert s. induction l as [|a l IH]; intros s Hs Hbody.
  - exists s. split; [reflexivity | exact Hs].
  - destruct (Hbody s a) as (s1 & E1 & Hs1); [left | exact Hs |].
    simpl. rewrite E1. simpl. apply IH; [exact Hs1|].
    intros s2 b Hb. apply Hbody. right. exact Hb.
Qed.

Lemma district_year_step (base_data : gmap Z (list Q)) (district : string)
    (done : string -> Z -> Prop)
    (acc : gmap string (gmap Z (list Q)) * NpRandom) (year : Z) :
  map_Forall (fun _ s => good_sample s) base_data ->
  is_Some (base_data !! year) ->
  district ∈ DISTRICTS ->
  district_inv done acc ->
  exists acc', district_year base_data district acc year = Some acc' /\
    district_inv (fun d y => done d y \/ (d = district /\ y = year)) acc'.
Proof.
  intros Hbase [base Hb] Hd (Hkeys & Hgood & Hdone).
  destruct acc as [dd g]. simpl in *.
  destruct (Hkeys district Hd) as [inner Hin].
  unfold district_year. simpl. rewrite Hb, Hin. simpl.
  eexists. split; [reflexivity|].
  set (sample := np_clip (map (fun v => v + draws g (pos g)) base) 0 150).
  assert (Hsample : good_sample sample).
  { split; [|apply np_clip_in_range].
    subst sample. rewrite length_np_clip, length_map.
    apply (Hbase year base Hb). }
  split_and!; simpl.
  - intros d Hd'. destruct (decide (district = d)) as [-> | Hne].
    + rewrite lookup_insert_eq. eauto.
    + rewrite lookup_insert_ne by assumption. apply Hkeys, Hd'.
  - intros d m y s Hm Hs.
    destruct (decide (district = d)) as [-> | Hne].
    + rewrite lookup_insert_eq in Hm. injection Hm as <-.
      destruct (decide (year = y)) as [-> | Hney].
      * rewrite lookup_insert_eq in Hs. injection Hs as <-. exact Hsample.
      * rewrite lookup_insert_ne in Hs by assumption.
        apply (Hgood d inner y s Hin Hs).
    + rewrite lookup_insert_ne in Hm by assumption.
      apply (Hgood d m y s Hm Hs).
  - intros d y [Hdy | [-> ->]].
    + destruct (Hdone d y Hdy) as (m & s & Hm & Hs).
      destruct (decide (district = d)) as [-> | Hne].
      * rewrite lookup_insert_eq. rewrite Hin in Hm. injection Hm as ->.
        destruct (decide (year = y)) as [-> | Hney].
        -- do 2 eexists. split; [reflexivity|]. apply lookup_insert_eq.
        -- do 2 eexists. split; [reflexivity|].
           rewrite lookup_insert_ne by assumption. exact Hs.
      * rewrite lookup_insert_ne by assumption. eauto.
    + rewrite lookup_insert_eq. do 2 eexists. split; [reflexivity|].
      apply lookup_insert_eq.
Qed.


Lemma for_each_progress {A S : Type} (I : list A -> S -> Prop) (l : list A)
    (body : S -> A -> option S) (s : S) :
  I [] s ->
  (forall pre a s, I pre s -> a ∈ l ->
     exists s', body s a = Some s' /\ I (pre ++ [a]) s') ->
  exists s', for_each l body s = Some s' /\ I l s'.
Proof.
  intros H0 Hbody.
  assert (Hgen : forall rest pre s,
             I pre s -> (forall a, a ∈ rest -> a ∈ l) ->
             exists s', for_each rest body s = Some s' /\ I (pre ++ rest) s').
  { induction rest as [|a rest IH]; intros pre s0 Hpre Hsub.
    - exists s0. rewrite app_nil_r. split; [reflexivity | exact Hpre].
    - destruct (Hbody pre a s0 Hpre) as (s1 & E1 & Hs1).
      { apply Hsub. left. }
      simpl. rewrite E1. simpl.
      destruct (IH (pre ++ [a]) s1 Hs1) as (s2 & E2 & Hs2).
      { intros b Hb. apply Hsub. right. exact Hb. }
      exists s2. split; [exact E2|].
      rewrite <- app_assoc in Hs2. exact Hs2. }
  apply (Hgen l [] s H0). auto.
Qed.

Lemma district_inv_weaken (done done' : string -> Z -> Prop)
    (acc : gmap string (gmap Z (list Q)) * NpRandom) :
  (forall d y, done' d y -> done d y) ->
  district_inv done acc -> district_inv done' acc.
Proof.
  intros Hsub (H1 & H2 & H3). split_and!; [exact H1 | exact H2 |].
  intros d y Hdy. apply H3, Hsub, Hdy.
Qed.

Lemma district_years_loop (base_data : gmap Z (list Q)) (district : string)
    (done : string -> Z -> Prop) (years : list Z)
    (acc : gmap string (gmap Z (list Q)) * NpRandom) :
  map_Forall (fun _ s => good_sample s) base_data ->
  (forall y, y ∈ years -> is_Some (base_data !! y)) ->
  district ∈ DISTRICTS ->
  district_inv done acc ->
  exists acc',
    for_each years (district_year base_data district) acc = Some acc' /\
    district_inv (fun d y => done d y \/ (d = district /\ y ∈ years)) acc'.
Proof.
  intros Hbase Hyears Hd Hinv.
  apply (for_each_progress
           (fun pre acc =>
              district_inv (fun d y => done d y \/ (d = district /\ y ∈ pre))
                acc)).
  - eapply district_inv_weaken; [|exact Hinv].
    intros d y [H | [_ H]]; [exact H | inversion H].
  - intros pre year acc0 Hacc0 Hyear.
    destruct (district_year_step base_data district _ acc0 year Hbase
                (Hyears year Hyear) Hd Hacc0) as (acc1 & E & Hacc1).
    exists acc1. split; [exact E|].
    eapply district_inv_weaken; [|exact Hacc1].
    intros d y [H | [-> H]]; [left; left; exact H|].
    apply elem_of_app in H as [H | H].
    + left. right. split; [reflexivity | exact H].
    + apply list_elem_of_singleton in H. right. split; [reflexivity | exact H].
Qed.

Lemma initial_district_data :
  district_inv (fun _ _ => False)
    (list_to_map ((fun district => (district, ∅)) <$> DISTRICTS),
     {| draws := fun _ => 0; pos := 0 |}).
Proof.
  split_and!; cbn [fst snd].
  - intros d Hd. unfold DISTRICTS in Hd.
    repeat (apply elem_of_cons in Hd as [-> | Hd]; [eexists; reflexivity|]).
    inversion Hd.
  - intros d m y s Hm Hs.
    apply elem_of_list_to_map_2 in Hm.
    apply list_elem_of_fmap in Hm as (d' & [= -> ->] & _).
    rewrite lookup_empty in Hs. discriminate.
  - intros d y [].
Qed.

Lemma generate_district_data_spec (self : t) (g : NpRandom) :
  exists dd g',
    generate_district_data self g
    = Some (dd, set_historical_events self EVENT_MARKS, g') /\
    district_inv (fun d y => d ∈ DISTRICTS /\ (1993 <= y <= 2023)%Z) (dd, g').
Proof.
  unfold generate_district_data.
  destruct (generate_historical_data_spec self g) as (Hgood & Hkeys & Hself & Hg).
  destruct (generate_historical_data self g) as [[base_data self1] g1].
  simpl in Hgood, Hkeys, Hself, Hg. subst self1.
  destruct (for_each_progress
              (fun pre acc =>
                 district_inv (fun d y => d ∈ pre /\ y ∈ py_range 1993 2024) acc)
              DISTRICTS
              (fun acc district =>
                 for_each (py_range 1993 2024)
                   (district_year base_data district) acc)
              (list_to_map ((fun district => (district, ∅)) <$> DISTRICTS), g1))
    as ([dd g2] & E & Hinv).
  - destruct initial_district_data as (H1 & H2 & _).
    split_and!; [exact H1 | exact H2 |].
    intros d y [H _]. inversion H.
  - intros pre d acc Hacc Hd.
    destruct (district_years_loop base_data d
                (fun d y => d ∈ pre /\ y ∈ py_range 1993 2024)
                (py_range 1993 2024) acc Hgood)
      as (acc1 & E1 & Hacc1); [| exact Hd | exact Hacc |].
    { intros y Hy. apply Hkeys. apply elem_of_py_range in Hy. lia. }
    exists acc1. split; [exact E1|].
    eapply district_inv_weaken; [|exact Hacc1].
    intros d' y [Hd' Hy]. apply elem_of_app in Hd' as [Hd' | Hd'].
    + left. split; assumption.
    + apply list_elem_of_singleton in Hd'. right. split; assumption.
  - exists dd, g2. rewrite E. simpl. split; [reflexivity|].
    eapply district_inv_weaken; [|exact Hinv].
    intros d y [Hd Hy]. split; [exact Hd|]. apply elem_of_py_range. lia.
Qed.

(** C3.  Whatever the generator draws, for every year from 1993 to 2023
    [generate_historical_data] stores twelve values that all lie in
    [0, 150], and [generate_district_data] returns and stores, for every
    district and every such year, twelve values that all lie in
    [0, 150]. *)
Theorem generated_values_clamped (self : t) (g : NpRandom)
    (year : Z) (district : string) :
  (1993 <= year <= 2023)%Z -> district ∈ DISTRICTS ->
  (exists s,
     (generate_historical_data self g).1.1 !! year = Some s /\
     length s = 12%nat /\ Forall (fun v => 0 <= v <= 150) s) /\
  (exists dd self' g' m s,
     generate_district_data self g = Some (dd, self', g') /\
     dd !! district = Some m /\ m !! year = Some s /\
     length s = 12%nat /\ Forall (fun v => 0 <= v <= 150) s).
Proof.
  intros Hy Hd. split.
  - destruct (generate_historical_data_spec self g) as (Hgood & Hkeys & _).
    destruct (Hkeys year Hy) as [s Hs].
    exists s. split; [exact Hs|]. apply (Hgood year s Hs).
  - destruct (generate_district_data_spec self g)
      as (dd & g' & E & _ & Hgood & Hdone).
    destruct (Hdone district year (conj Hd Hy)) as (m & s & Hm & Hs).
    exists dd, (set_historical_events self EVENT_MARKS), g', m, s.
    split; [exact E|]. split; [exact Hm|].
    split; [exact Hs|]. apply (Hgood district m year s Hm Hs).
Qed.

Lemma generated_values_clamped_witness :
  exists s,
    (generate_historical_data blank_viz counting_rng).1.1 !! 2000%Z = Some s /\
    length s = 12%nat /\ Forall (fun v => 0 <= v <= 150) s.
Proof.
  apply (generated_values_clamped blank_viz counting_rng 2000 "Eastern").
  - lia.
  - unfold DISTRICTS. apply elem_of_cons. right. apply elem_of_cons. left.
    reflexivity.
Defined.

(** C9, as amended.  [generate_historical_data] reads the state of the
    random generator and nothing else: two invocations that receive the
    same 372 draws return equal mappings, whatever [self] is.  An
    invocation advances the generator by 372 draws and stores a fixed table
    in [self.historical_events]; the other attributes of [self] keep their
    values. *)
Theorem generator_reads_only_its_draws (self1 self2 : t) (g1 g2 : NpRandom) :
  (forall i, (i < 372)%nat ->
     draws g1 (pos g1 + i)%nat = draws g2 (pos g2 + i)%nat) ->
  (generate_historical_data self1 g1).1.1
  = (generate_historical_data self2 g2).1.1 /\
  (generate_historical_data self1 g1).1.2
  = set_historical_events self1 EVENT_MARKS /\
  (generate_historical_data self1 g1).2
  = {| draws := draws g1; pos := (pos g1 + 372)%nat |}.
Proof.
  intros H.
  destruct (generate_historical_data_spec self1 g1) as (_ & _ & Hs & Hg).
  split; [|split; assumption].
  unfold generate_historical_data.
  pose proof (historical_fold_ext (py_range 1993 2024) ∅ g1 g2 H) as E.
  destruct (foldl historical_year (∅, g1) _) as [d1 g1'].
  destruct (foldl historical_year (∅, g2) _) as [d2 g2'].
  exact E.
Qed.

Lemma generator_reads_only_its_draws_witness :
  (generate_historical_data blank_viz zero_rng).1.1
  = (generate_historical_data blank_viz zero_rng_later).1.1.
Proof.
  apply (generator_reads_only_its_draws blank_viz blank_viz
           zero_rng zero_rng_later).
  intros i Hi. reflexivity.
Defined.

(** C9, as stated, fails.  With the generator whose [n]-th draw is [n], a
    second invocation returns another mapping than the first (85 and 150
    for January 1993), and the first invocation has changed [self] and the
    state of the generator. *)
Lemma generator_not_pure_counterexample :
  let r1 := generate_historical_data blank_viz counting_rng in
  let r2 := generate_historical_data r1.1.2 r1.2 in
  r1.1.1 !! 1993%Z ≫= (fun s => s !! 0%nat) = Some 85 /\
  r2.1.1 !! 1993%Z ≫= (fun s => s !! 0%nat) = Some 150 /\
  r1.1.1 <> r2.1.1 /\
  r1.1.2 <> blank_viz /\
  r1.2 <> counting_rng.
Proof.
  split; [vm_compute; reflexivity|]. split; [vm_compute; reflexivity|].
  split; [|split].
  - intros H. apply (f_equal (fun d : gmap Z (list Q) => d !! 1993%Z)) in H.
    vm_compute in H. discriminate H.
  - intros H.
    apply (f_equal (fun v => match historical_events v with
                             | Some _ => true
                             | None => false
                             end)) in H.
    vm_compute in H. discriminate H.
  - intros H. apply (f_equal pos) in H. vm_compute in H. discriminate H.
Qed.

(** ** Interpolated AQI *)

Lemma interpolated_value_cases (sample : gmap Z (list Q)) (q : Q) (s0 : list Q) :
  let y0 := Qfloor q in
  let y1 := Z.min 2023 (y0 + 1) in
  let frac := q - inject_Z y0 in
  sample !! y0 = Some s0 ->
  (forall s1, 0 < frac -> sample !! y1 = Some s1 ->
     interpolated_value sample q
     = Some (np_mean s0 + (np_mean s1 - np_mean s0) * frac)) /\
  (~ (0 < frac /\ is_Some (sample !! y1)) ->
     interpolated_value sample q = Some (np_mean s0)).
Proof.
  intros y0 y1 frac H0. unfold interpolated_value. fold y0 y1 frac.
  rewrite H0. cbn [mbind option_bind]. split.
  - intros s1 Hf H1. rewrite H1.
    apply Qltb_true in Hf. rewrite Hf. reflexivity.
  - intros Hn. destruct (sample !! y1) as [s1|] eqn:E1; [|reflexivity].
    case_cmp; [|reflexivity]. exfalso. apply Hn. split; [assumption | eauto].
Qed.

Lemma call_sites_agree (self : t) (district : string) :
  0 <= year self ->
  current_aqi self = interpolated_value (aqi_data self) (year self) /\
  overall_aqi self = interpolated_value (aqi_data self) (year self) /\
  district_aqi self district
  = (by_year ← district_data self !! district;
     interpolated_value by_year (year self)).
Proof.
  intros Hy. pose proof (py_int_floor (year self) Hy) as Hfl.
  unfold current_aqi, overall_aqi, district_aqi, interpolated_value.
  rewrite Hfl. split_and!.
  - destruct (aqi_data self !! Qfloor (year self)); [|reflexivity].
    cbn [mbind option_bind].
    destruct (aqi_data self !! Z.min 2023 (Qfloor (year self) + 1));
      destruct (Qltb 0 _); reflexivity.
  - destruct (aqi_data self !! Qfloor (year self)); [|reflexivity].
    cbn [mbind option_bind].
    destruct (aqi_data self !! Z.min 2023 (Qfloor (year self) + 1));
      destruct (Qltb 0 _); reflexivity.
  - destruct (district_data self !! district) as [by_year|]; [|reflexivity].
    cbn [mbind option_bind].
    destruct (by_year !! Qfloor (year self)); [|reflexivity].
    cbn [mbind option_bind].
    destruct (by_year !! Z.min 2023 (Qfloor (year self) + 1));
      destruct (Qltb 0 _); reflexivity.
Qed.

Lemma Qfloor_eq (x : Q) (n : Z) :
  inject_Z n <= x -> x < inject_Z n + 1 -> Qfloor x = n.
Proof.
  intros Hlo Hhi.
  pose proof (Qfloor_le x) as H1. pose proof (Qlt_floor x) as H2.
  assert (Ha : inject_Z n < inject_Z (Qfloor x + 1)) by lra.
  assert (Hb : inject_Z (Qfloor x) < inject_Z (n + 1)).
  { rewrite inject_Z_plus. change (inject_Z 1) with 1. lra. }
  rewrite <- Zlt_Qlt in Ha, Hb. lia.
Qed.

Lemma half_year_floor (Y : Z) (q : Q) :
  q == inject_Z Y + (1 # 2) -> Qfloor q = Y /\ q - inject_Z Y == (1 # 2).
Proof.
  intros H. split; [apply Qfloor_eq|]; lra.
Qed.

(** C2.  For a year in [1993, 2023], with [y0] its floor,
    [y1 = min(2023, y0+1)] and [frac] its fractional part, the AQI derived
    in [update_particles] is [mean(sample[y0])] moved toward
    [mean(sample[y1])] by [frac] when [frac > 0] and [y1] is a key, and
    [mean(sample[y0])] otherwise.  [draw] computes the same value, and
    [draw_district_visualization] computes it by the same rule from the
    district's samples.  At a year [Y + 1/2] with [Y < 2023] the value is
    the arithmetic mean of the two yearly means. *)
Theorem interpolated_aqi_rule (self : t) (district : string)
    (s0 : list Q) (by_year : gmap Z (list Q)) (d0 : list Q) :
  1993 <= year self <= 2023 ->
  let y0 := Qfloor (year self) in
  let y1 := Z.min 2023 (y0 + 1) in
  let frac := year self - inject_Z y0 in
  aqi_data self !! y0 = Some s0 ->
  district_data self !! district = Some by_year ->
  by_year !! y0 = Some d0 ->
  (forall s1, 0 < frac -> aqi_data self !! y1 = Some s1 ->
     current_aqi self
     = Some (np_mean s0 + (np_mean s1 - np_mean s0) * frac)) /\
  (~ (0 < frac /\ is_Some (aqi_data self !! y1)) ->
     current_aqi self = Some (np_mean s0)) /\
  overall_aqi self = current_aqi self /\
  (forall d1, 0 < frac -> by_year !! y1 = Some d1 ->
     district_aqi self district
     = Some (np_mean d0 + (np_mean d1 - np_mean d0) * frac)) /\
  (~ (0 < frac /\ is_Some (by_year !! y1)) ->
     district_aqi self district = Some (np_mean d0)) /\
  current_aqi self = interpolated_value (aqi_data self) (year self) /\
  district_aqi self district = interpolated_value by_year (year self) /\
  (forall (Y : Z) (s1 : list Q),
     (Y < 2023)%Z -> year self == inject_Z Y + (1 # 2) ->
     aqi_data self !! (Y + 1)%Z = Some s1 ->
     exists v, current_aqi self = Some v /\
               v == (np_mean s0 + np_mean s1) / 2).
Proof.
  intros Hy y0 y1 frac H0 Hd Hd0.
  destruct (call_sites_agree self district) as (Hc & Ho & Hdist); [lra|].
  rewrite Hd in Hdist. cbn [mbind option_bind] in Hdist.
  destruct (interpolated_value_cases (aqi_data self) (year self) s0 H0)
    as [Ha1 Ha2].
  destruct (interpolated_value_cases by_year (year self) d0 Hd0) as [Hb1 Hb2].
  fold y0 y1 frac in Ha1, Ha2, Hb1, Hb2.
  rewrite Hc, Ho, Hdist. split_and!; try assumption; try reflexivity.
  intros Y s1 HY Hhalf H1.
  destruct (half_year_floor Y (year self) Hhalf) as [Hfl Hfrac].
  assert (Hy0 : y0 = Y) by exact Hfl.
  assert (Hy1 : y1 = (Y + 1)%Z) by (subst y1; lia).
  eexists. split.
  - apply Ha1; [subst frac; rewrite Hy0; lra | rewrite Hy1; exact H1].
  - subst frac. rewrite Hy0, Hfrac. field.
Qed.

Lemma interpolated_aqi_rule_witness :
  exists v, current_aqi (sample_viz_at 2000.5) = Some v /\
            v == (np_mean sample_2000 + np_mean sample_2001) / 2.
Proof.
  destruct (interpolated_aqi_rule (sample_viz_at 2000.5) "Eastern"
              sample_2000
              (default ∅ (district_data (sample_viz_at 2000.5) !! "Eastern"))
              sample_2000)
    as (_ & _ & _ & _ & _ & _ & _ & H).
  - split; vm_compute; discriminate.
  - vm_compute. reflexivity.
  - vm_compute. reflexivity.
  - vm_compute. reflexivity.
  - apply (H 2000%Z sample_2001).
    + lia.
    + vm_compute. reflexivity.
    + vm_compute. reflexivity.
Defined.

(** ** Animation settling *)

Lemma current_aqi_is_Some (self : t) :
  0 <= year self -> is_Some (aqi_data self !! Qfloor (year self)) ->
  is_Some (current_aqi self).
Proof.
  intros Hy [s Hs]. unfold current_aqi. rewrite (py_int_floor _ Hy), Hs.
  cbn [mbind option_bind].
  destruct (Qltb 0 _); [|eexists; reflexivity].
  destruct (aqi_data self !! Z.min 2023 _); eexists; reflexivity.
Qed.

Lemma update_particles_eq (np_cos np_sin : Q -> Q) (self : t)
    (env : nat -> Particle.MoveEnv) :
  update_particles np_cos np_sin self env
  = (aqi ← current_aqi (set_year self (stepped_year self));
     let '(color, size, speed) := get_particle_properties aqi in
     Some (set_particles (set_year self (stepped_year self))
             (imap (fun i p =>
                      Particle.move np_cos np_sin
                        (restyle color size speed p) (env i))
                   (particles self)))).
Proof. reflexivity. Qed.

Lemma update_particles_fields (np_cos np_sin : Q -> Q) (self self' : t)
    (env : nat -> Particle.MoveEnv) :
  update_particles np_cos np_sin self env = Some self' ->
  year self' = stepped_year self /\
  target_year self' = target_year self /\
  year_transition_speed self' = year_transition_speed self /\
  aqi_data self' = aqi_data self /\
  district_data self' = district_data self /\
  selected_district self' = selected_district self /\
  historical_events self' = historical_events self.
Proof.
  rewrite update_particles_eq.
  destruct (current_aqi _) as [aqi|]; [|discriminate].
  cbn [mbind option_bind].
  destruct (get_particle_properties aqi) as [[color size] speed].
  intros [= <-]. repeat split.
Qed.

Lemma update_particles_is_Some (np_cos np_sin : Q -> Q) (self : t)
    (env : nat -> Particle.MoveEnv) :
  0 <= stepped_year self ->
  is_Some (aqi_data self !! Qfloor (stepped_year self)) ->
  is_Some (update_particles np_cos np_sin self env).
Proof.
  intros Hy Hk. rewrite update_particles_eq.
  destruct (current_aqi_is_Some (set_year self (stepped_year self)) Hy Hk)
    as [aqi ->].
  cbn [mbind option_bind].
  destruct (get_particle_properties aqi) as [[color size] speed].
  eexists. reflexivity.
Qed.

Lemma Qfloor_between (x : Q) (a b : Z) :
  inject_Z a <= x <= inject_Z b -> (a <= Qfloor x <= b)%Z.
Proof.
  intros [Ha Hb]. split.
  - rewrite <- (Qfloor_Z a). apply Qfloor_resp_le, Ha.
  - rewrite <- (Qfloor_Z b). apply Qfloor_resp_le, Hb.
Qed.

Lemma remaining_gap_pos (n : nat) : 0 < remaining_gap n.
Proof. induction n as [|n IH]; simpl; [reflexivity | lra]. Qed.

Lemma remaining_gap_antitone (n m : nat) :
  (n <= m)%nat -> remaining_gap m <= remaining_gap n.
Proof.
  induction 1 as [|m _ IH]; [lra|].
  simpl. pose proof (remaining_gap_pos m). lra.
Qed.

Lemma remaining_gap_127 : 0.01 < remaining_gap 127.
Proof. vm_compute. reflexivity. Qed.

Lemma remaining_gap_128 : remaining_gap 128 <= 0.01.
Proof. vm_compute. discriminate. Qed.

(** One tick while the gap [g] to the target exceeds the tolerance. *)
Lemma tick_transitioning (np_cos np_sin : Q -> Q) (self : t)
    (env : nat -> Particle.MoveEnv) (g : Q) :
  year self == 2000 - g -> 0.01 < g <= 7 ->
  target_year self = 2000%Z -> year_transition_speed self == 0.05 ->
  (forall y, (1993 <= y <= 2000)%Z -> is_Some (aqi_data self !! y)) ->
  exists self',
    update_particles np_cos np_sin self env = Some self' /\
    year self' == 2000 - g * (19 # 20) /\
    target_year self' = 2000%Z /\
    year_transition_speed self' == 0.05 /\
    aqi_data self' = aqi_data self.
Proof.
  intros Hy Hg Ht Hs Hkeys.
  assert (Hstep : stepped_year self == 2000 - g * (19 # 20)).
  { unfold stepped_year. rewrite Ht. change (inject_Z 2000) with 2000.
    assert (Habs : Qabs (year self - 2000) == g).
    { rewrite Hy, Qabs_neg by lra. ring. }
    case_cmp; [|lra]. rewrite Hs, Hy. ring. }
  destruct (update_particles_is_Some np_cos np_sin self env) as [self' E].
  - lra.
  - apply Hkeys, Qfloor_between.
    change (inject_Z 1993) with 1993. change (inject_Z 2000) with 2000. lra.
  - exists self'. split; [exact E|].
    destruct (update_particles_fields _ _ _ _ _ E) as (-> & -> & -> & -> & _).
    auto.
Qed.

Lemma tick_settled (np_cos np_sin : Q -> Q) (self : t)
    (env : nat -> Particle.MoveEnv) (g : Q) :
  year self == 2000 - g -> 0 <= g <= 0.01 ->
  target_year self = 2000%Z ->
  (forall y, (1993 <= y <= 2000)%Z -> is_Some (aqi_data self !! y)) ->
  exists self',
    update_particles np_cos np_sin self env = Some self' /\ year self' = 2000.
Proof.
  intros Hy Hg Ht Hkeys.
  assert (Hstep : stepped_year self = 2000).
  { unfold stepped_year. rewrite Ht. change (inject_Z 2000) with 2000.
    assert (Habs : Qabs (year self - 2000) == g).
    { rewrite Hy, Qabs_neg by lra. ring. }
    case_cmp; [lra | reflexivity]. }
  destruct (update_particles_is_Some np_cos np_sin self env) as [self' E].
  - rewrite Hstep. discriminate.
  - rewrite Hstep. apply Hkeys. vm_compute. split; discriminate.
  - exists self'. split; [exact E|].
    destruct (update_particles_fields _ _ _ _ _ E) as (-> & _). exact Hstep.
Qed.

Lemma ticks_transitioning (np_cos np_sin : Q -> Q) (self : t)
    (envs : nat -> nat -> Particle.MoveEnv) (n : nat) :
  year self == 1993 -> target_year self = 2000%Z ->
  year_transition_speed self == 0.05 ->
  (forall y, (1993 <= y <= 2000)%Z -> is_Some (aqi_data self !! y)) ->
  (n <= 128)%nat ->
  exists v,
    run_ticks np_cos np_sin n envs self = Some v /\
    year v == 2000 - remaining_gap n /\
    target_year v = 2000%Z /\
    year_transition_speed v == 0.05 /\
    aqi_data v = aqi_data self.
Proof.
  intros Hy Ht Hs Hkeys. induction n as [|n IH]; intros Hn.
  - exists self. split_and!; auto.
  - destruct IH as (v & E & Hyv & Htv & Hsv & Hdv); [lia|].
    destruct (tick_transitioning np_cos np_sin v (envs n) (remaining_gap n))
      as (v' & E' & Hyv' & Htv' & Hsv' & Hdv'); try assumption.
    + split.
      * apply Qlt_le_trans with (remaining_gap 127);
          [exact remaining_gap_127 | apply remaining_gap_antitone; lia].
      * apply (remaining_gap_antitone 0 n). lia.
    + rewrite Hdv. exact Hkeys.
    + exists v'. simpl. rewrite E. cbn [mbind option_bind].
      split_and!; auto. congruence.
Qed.

(** C1.  A tick moves [year] by 0.05 of its distance to [target_year]
    while that distance exceeds 0.01, and otherwise sets it to
    [target_year].  From 1993 with target 2000 every one of the first 129
    ticks returns and brings [year] strictly closer to 2000; the distance
    exceeds 0.01 before each of the first 128 ticks, is within 0.01 after
    them, and the 129th tick sets [year] to 2000. *)
Theorem animation_settles (np_cos np_sin : Q -> Q) (self : t)
    (envs : nat -> nat -> Particle.MoveEnv) :
  year self == 1993 -> target_year self = 2000%Z ->
  year_transition_speed self == 0.05 ->
  (forall y, (1993 <= y <= 2000)%Z -> is_Some (aqi_data self !! y)) ->
  (forall v env v',
     update_particles np_cos np_sin v env = Some v' ->
     (0.01 < Qabs (year v - inject_Z (target_year v)) ->
      year v' = year v + (inject_Z (target_year v) - year v)
                         * year_transition_speed v) /\
     (Qabs (year v - inject_Z (target_year v)) <= 0.01 ->
      year v' = inject_Z (target_year v))) /\
  exists ys : nat -> Q,
    (forall n, (n <= 129)%nat ->
       year <$> run_ticks np_cos np_sin n envs self = Some (ys n)) /\
    (forall n, (n < 129)%nat ->
       Qabs (ys (S n) - 2000) < Qabs (ys n - 2000)) /\
    (forall n, (n < 128)%nat -> 0.01 < Qabs (ys n - 2000)) /\
    Qabs (ys 128%nat - 2000) <= 0.01 /\
    ys 129%nat = 2000.
Proof.
  intros Hy Ht Hs Hkeys. split.
  { intros v env v' E.
    destruct (update_particles_fields _ _ _ _ _ E) as (-> & _).
    unfold stepped_year. split; intros H; case_cmp; (reflexivity || lra). }
  pose proof (ticks_transitioning np_cos np_sin self envs) as Hrun.
  destruct (Hrun 128%nat Hy Ht Hs Hkeys) as (v & E & Hyv & Htv & _ & Hdv);
    [lia|].
  destruct (tick_settled np_cos np_sin v (envs 128%nat) (remaining_gap 128))
    as (v' & E' & Hyv'); try assumption.
  { split; [apply Qlt_le_weak, remaining_gap_pos | exact remaining_gap_128]. }
  { rewrite Hdv. exact Hkeys. }
  set (ys := fun n => default 0 (year <$> run_ticks np_cos np_sin n envs self)).
  assert (Hys : forall n, (n <= 128)%nat ->
            year <$> run_ticks np_cos np_sin n envs self = Some (ys n) /\
            ys n == 2000 - remaining_gap n).
  { intros n Hn. destruct (Hrun n Hy Ht Hs Hkeys Hn) as (w & Ew & Hyw & _).
    subst ys. cbn beta. rewrite Ew. simpl. split; [reflexivity | exact Hyw]. }
  assert (H129 : year <$> run_ticks np_cos np_sin 129 envs self = Some 2000).
  { change (run_ticks np_cos np_sin 129 envs self)
      with (self' ← run_ticks np_cos np_sin 128 envs self;
            update_particles np_cos np_sin self' (envs 128%nat)).
    rewrite E. cbn [mbind option_bind]. rewrite E'. simpl. f_equal. exact Hyv'. }
  assert (Hy129 : ys 129%nat = 2000).
  { subst ys. cbn beta. rewrite H129. reflexivity. }
  assert (Habs : forall n, (n <= 128)%nat ->
            Qabs (ys n - 2000) == remaining_gap n).
  { intros n Hn. destruct (Hys n Hn) as [_ Hn'].
    pose proof (remaining_gap_pos n).
    rewrite Hn', Qabs_neg by lra. ring. }
  exists ys. split_and!.
  - intros n Hn. destruct (decide (n = 129%nat)) as [-> | Hne].
    + rewrite Hy129. exact H129.
    + apply Hys. lia.
  - intros n Hn. destruct (decide (n = 128%nat)) as [-> | Hne].
    + rewrite Hy129, (Habs 128%nat) by lia.
      pose proof (remaining_gap_pos 128). 
      change (Qabs (2000 - 2000)) with 0. assumption.
    + rewrite (Habs (S n)), (Habs n) by lia. simpl.
      pose proof (remaining_gap_pos n). lra.
  - intros n Hn. rewrite (Habs n) by lia.
    apply Qlt_le_trans with (remaining_gap 127);
      [exact remaining_gap_127 | apply remaining_gap_antitone; lia].
  - rewrite (Habs 128%nat) by lia. exact remaining_gap_128.
  - exact Hy129.
Qed.

Lemma animation_settles_witness :
  exists ys : nat -> Q,
    (forall n, (n <= 129)%nat ->
       year <$> run_ticks (fun _ => 0) (fun _ => 0) n (fun _ _ => still_env)
                  sample_viz_to_2000 = Some (ys n)) /\
    (forall n, (n < 129)%nat ->
       Qabs (ys (S n) - 2000) < Qabs (ys n - 2000)) /\
    (forall n, (n < 128)%nat -> 0.01 < Qabs (ys n - 2000)) /\
    Qabs (ys 128%nat - 2000) <= 0.01 /\
    ys 129%nat = 2000.
Proof.
  apply (animation_settles (fun _ => 0) (fun _ => 0) sample_viz_to_2000
           (fun _ _ => still_env)).
  - vm_compute. reflexivity.
  - reflexivity.
  - vm_compute. reflexivity.
  - intros y Hy.
    assert (Hc : y = 1993%Z \/ y = 1994%Z \/ y = 1995%Z \/ y = 1996%Z \/
                 y = 1997%Z \/ y = 1998%Z \/ y = 1999%Z \/ y = 2000%Z) by lia.
    destruct Hc as [-> | [-> | [-> | [-> | [-> | [-> | [-> | ->]]]]]]];
      vm_compute; eexists; reflexivity.
Defined.

(** ** The main loop and the target year *)

Lemma get_color_for_value_is_Some (v : Q) :
  is_Some (get_color_for_value v 0 150).
Proof.
  destruct (Qlt_le_dec 0 v) as [H0 | H0].
  - destruct (Qlt_le_dec v 150) as [H150 | H150].
    + destruct (get_color_between v H0 H150) as [Hk ->].
      set (k := Qfloor (v / 30)) in *.
      assert (Hc : k = 0%Z \/ k = 1%Z \/ k = 2%Z \/ k = 3%Z \/ k = 4%Z) by lia.
      destruct Hc as [-> | [-> | [-> | [-> | ->]]]]; eexists; reflexivity.
    + unfold get_color_for_value. case_cmp; [lra|]. case_cmp; [|lra].
      eexists. reflexivity.
  - unfold get_color_for_value. case_cmp; [|lra]. eexists. reflexivity.
Qed.

Lemma district_aqi_is_Some (self : t) (district : string) :
  good_state self -> district ∈ DISTRICTS ->
  is_Some (district_aqi self district).
Proof.
  intros (_ & Hy & _ & _ & Hd) Hin.
  assert (Hfl : (1993 <= Qfloor (year self) <= 2023)%Z).
  { apply Qfloor_between. change (inject_Z 1993) with 1993.
    change (inject_Z 2023) with 2023. exact Hy. }
  destruct (Hd district _ Hin Hfl) as (m & s & Hm & Hs).
  unfold district_aqi. rewrite py_int_floor by lra. rewrite Hm.
  cbn [mbind option_bind]. rewrite Hs. cbn [mbind option_bind].
  destruct (Qltb 0 _); [|eexists; reflexivity].
  destruct (m !! Z.min 2023 _); eexists; reflexivity.
Qed.

Lemma overall_aqi_is_Some (self : t) : good_state self -> is_Some (overall_aqi self).
Proof.
  intros (_ & Hy & _ & Hk & _).
  destruct (call_sites_agree self "Eastern") as (Hc & -> & _); [lra|].
  rewrite <- Hc. apply current_aqi_is_Some; [lra|].
  apply Hk, Qfloor_between. change (inject_Z 1993) with 1993.
  change (inject_Z 2023) with 2023. exact Hy.
Qed.

Lemma mapM_pure {A B : Type} (f : A -> option B) (g : A -> B) (l : list A) :
  (forall x, x ∈ l -> f x = Some (g x)) -> mapM f l = Some (g <$> l).
Proof.
  intros H. apply mapM_Some_2. induction l as [|a l IH]; [constructor|].
  cbn. constructor.
  - apply H. left.
  - apply IH. intros x Hx. apply H. right. exact Hx.
Qed.

Lemma py_floordiv_Some (a b : Z) :
  b <> 0%Z -> py_floordiv a b = Some (a `div` b)%Z.
Proof.
  intros H. unfold py_floordiv. destruct (Z.eqb_spec b 0); [contradiction|].
  reflexivity.
Qed.

(** What [Graph.draw] returns when no lookup and no division fails. *)
Lemma graph_draw_eq (self : Graph.t) (data : gmap Z (list Q)) (first last : Z)
    (mean : Z -> Q) :
  (first < last)%Z ->
  (forall y, (first <= y <= last)%Z ->
     exists s, data !! y = Some s /\ mean y = np_mean s) ->
  Graph.draw self data (first, last)
  = Some
      {| Graph.hlines :=
           (fun i => (Graph.top self + (Graph.height self * i) `div` 5,
                      150 - i * 30)%Z) <$> py_range 0 6;
         Graph.vlines :=
           (fun year =>
              (Graph.left self
               + ((year - first) * Graph.width self) `div` (last - first),
               year)%Z) <$> py_range_step first (last + 1) 5;
         Graph.points :=
           (fun year =>
              ((Graph.left self
                + ((year - first) * Graph.width self) `div` (last - first))%Z,
               inject_Z (Graph.bottom self)
               - mean year / 150 * inject_Z (Graph.height self)))
           <$> py_range first (last + 1);
         Graph.polyline := true |}.
Proof.
  intros Hlt Hdata. unfold Graph.draw.
  rewrite (mapM_pure _
             (fun year =>
                (Graph.left self
                 + ((year - first) * Graph.width self) `div` (last - first),
                 year)%Z)).
  2: { intros y _. rewrite py_floordiv_Some by lia. reflexivity. }
  cbn [mbind option_bind].
  rewrite (mapM_pure _
             (fun year =>
                ((Graph.left self
                  + ((year - first) * Graph.width self) `div` (last - first))%Z,
                 inject_Z (Graph.bottom self)
                 - mean year / 150 * inject_Z (Graph.height self)))).
  2: { intros y Hy. apply elem_of_py_range in Hy.
       rewrite py_floordiv_Some by lia. cbn [mbind option_bind].
       destruct (Hdata y) as (s & -> & ->); [lia|]. reflexivity. }
  cbn [mbind option_bind]. do 2 f_equal.
  rewrite length_fmap. unfold py_range. rewrite length_seqZ.
  apply Nat.ltb_lt. lia.
Qed.

Lemma timeline_draw_is_Some (self : t) :
  good_state self ->
  is_Some (Graph.draw timeline_graph (aqi_data self) (1993, 2023)%Z).
Proof.
  intros (_ & _ & _ & Hk & _).
  rewrite (graph_draw_eq timeline_graph (aqi_data self) 1993 2023
             (fun y => np_mean (default [] (aqi_data self !! y)))); [|lia|].
  - eexists. reflexivity.
  - intros y Hy. destruct (Hk y Hy) as [s0 Hs]. exists s0.
    split; [exact Hs|]. rewrite Hs. reflexivity.
Qed.

Lemma draw_is_Some (self : t) : good_state self -> is_Some (draw self).
Proof.
  intros Hgood. unfold draw.
  assert (Hcells : is_Some (draw_district_visualization self)).
  { unfold draw_district_visualization. apply mapM_is_Some_2.
    apply Forall_forall. intros [i d] Hid.
    apply elem_of_lookup_imap_1 in Hid as (j & d' & [= <- <-] & Hj).
    assert (Hin : d ∈ DISTRICTS) by (apply list_elem_of_lookup; eauto).
    cbn beta iota. unfold compose.
    destruct (district_aqi_is_Some self d Hgood Hin) as [aqi ->].
    cbn [mbind option_bind].
    destruct (get_color_for_value_is_Some aqi) as [c ->].
    eexists. reflexivity. }
  destruct Hcells as [cells ->]. cbn [mbind option_bind].
  destruct (timeline_draw_is_Some self Hgood) as [timeline ->].
  cbn [mbind option_bind].
  destruct (overall_aqi_is_Some self Hgood) as [aqi ->].
  eexists. reflexivity.
Qed.

Lemma stepped_year_in_range (self : t) :
  good_state self -> 1993 <= stepped_year self <= 2023.
Proof.
  intros (Ht & Hy & Hs & _).
  assert (Hq : 1993 <= inject_Z (target_year self) <= 2023).
  { change 1993 with (inject_Z 1993). change 2023 with (inject_Z 2023).
    rewrite <- !Zle_Qle. exact Ht. }
  unfold stepped_year. case_cmp; [|exact Hq].
  rewrite Hs. lra.
Qed.

Lemma update_particles_good (np_cos np_sin : Q -> Q) (self : t)
    (env : nat -> Particle.MoveEnv) :
  good_state self ->
  exists self', update_particles np_cos np_sin self env = Some self' /\
                good_state self'.
Proof.
  intros Hgood. pose proof (stepped_year_in_range self Hgood) as Hy.
  destruct Hgood as (Ht & _ & Hs & Hk & Hd).
  destruct (update_particles_is_Some np_cos np_sin self env) as [self' E].
  - lra.
  - apply Hk, Qfloor_between. change (inject_Z 1993) with 1993.
    change (inject_Z 2023) with 2023. exact Hy.
  - exists self'. split; [exact E|].
    destruct (update_particles_fields _ _ _ _ _ E)
      as (Ey & Et & Es & Ea & Ed & _).
    unfold good_state. rewrite Ey, Et, Es, Ea, Ed. auto.
Qed.

Lemma init_spec (g : NpRandom) (seeds : nat -> ParticleSeed) :
  exists v g', init g seeds = Some (v, g') /\ good_state v /\
    year v = 1993 /\ target_year v = 1993%Z /\ selected_district v = None.
Proof.
  unfold init.
  destruct (generate_historical_data_spec
              {| particles := []; year := 1993; target_year := 1993;
                 year_transition_speed := 0.05; aqi_data := ∅;
                 district_data := ∅; selected_district := None;
                 historical_events := None |} g) as (_ & Hkeys & Hself & _).
  destruct (generate_historical_data _ g) as [[data self1] g1].
  cbn [fst snd] in Hkeys, Hself. subst self1.
  set (self2 := set_aqi_data _ data).
  destruct (generate_district_data_spec self2 g1)
    as (dd & g2 & -> & _ & _ & Hdone).
  cbn [mbind option_bind fst snd] in *.
  destruct (Hkeys 1993%Z) as [s Hs]; [lia|].
  unfold initialize_particles, lookup_num.
  change (Qeq_bool _ _) with true. cbn iota.
  change (aqi_data _ !! Qfloor _) with (data !! 1993%Z). rewrite Hs.
  cbn [mbind option_bind].
  destruct (get_particle_properties (np_mean s)) as [[color size] speed].
  do 2 eexists. split; [reflexivity|].
  split; [|repeat split].
  unfold good_state. cbn.
  split_and!; try lia; try lra; try reflexivity; try discriminate.
  - exact Hkeys.
  - intros d y Hd Hy. apply Hdone. split; assumption.
Qed.

Lemma main_start_spec (g : NpRandom) (seeds : nat -> ParticleSeed) :
  exists st, main_start g seeds = Some st /\ good_state (viz st) /\
    year (viz st) = 1993 /\ target_year (viz st) = 1993%Z /\
    running st = true /\ frame_count st = 0%Z.
Proof.
  destruct (init_spec g seeds) as (v & g' & E & Hgood & Hy & Ht & _).
  unfold main_start. rewrite E. cbn [mbind option_bind].
  eexists. split; [reflexivity|]. cbn. auto.
Qed.

Lemma good_state_set_target (v : t) (T : Z) :
  good_state v -> (1993 <= T <= 2023)%Z -> good_state (set_target_year v T).
Proof.
  intros (_ & H) HT. split; [exact HT | exact H].
Qed.

Lemma handle_event_good (st : Loop) (e : Event) :
  good_state (viz st) ->
  exists st', handle_event st e = Some st' /\ good_state (viz st').
Proof.
  intros Hgood. destruct e as [| [| | |] | [mx my] |].
  - eexists. split; [reflexivity | exact Hgood].
  - eexists. split; [reflexivity|]. cbn [viz].
    apply good_state_set_target; [exact Hgood|]. destruct Hgood as (Ht & _). lia.
  - eexists. split; [reflexivity|]. cbn [viz].
    apply good_state_set_target; [exact Hgood|]. destruct Hgood as (Ht & _). lia.
  - eexists. split; [reflexivity | exact Hgood].
  - eexists. split; [reflexivity | exact Hgood].
  - destruct (handle_mouse_cases st mx my) as [Hsel Hnot]. cbv zeta in Hsel, Hnot.
    match type of Hsel with ?P -> _ => destruct (decide P) as [HP | HP] end.
    + destruct (Hsel HP) as (d & _ & ->). eexists. split; [reflexivity|].
      exact Hgood.
    + rewrite (Hnot HP). eexists. split; [reflexivity | exact Hgood].
  - eexists. split; [reflexivity | exact Hgood].
Qed.

Lemma events_good (st : Loop) (evs : list Event) :
  good_state (viz st) ->
  exists st', for_each evs handle_event st = Some st' /\ good_state (viz st').
Proof.
  intros Hgood.
  apply (for_each_invariant (fun st => good_state (viz st))); [exact Hgood|].
  intros st0 e _ H0. apply handle_event_good, H0.
Qed.

Lemma frame_spec (np_cos np_sin : Q -> Q) (st : Loop) (inp : FrameInput) :
  good_state (viz st) ->
  exists st1 st' shown,
    for_each (events inp) handle_event st = Some st1 /\
    frame np_cos np_sin st inp = Some (st', shown) /\
    good_state (viz st') /\
    running st' = running st1 /\
    ((frame_count st1 + 1 < 300)%Z ->
       frame_count st' = (frame_count st1 + 1)%Z /\
       target_year (viz st') = target_year (viz st1)) /\
    ((300 <= frame_count st1 + 1)%Z ->
       frame_count st' = 0%Z /\
       target_year (viz st')
       = if (target_year (viz st1) <? 2023)%Z
         then (target_year (viz st1) + 1)%Z else 1993%Z).
Proof.
  intros Hgood. unfold frame.
  destruct (events_good st (events inp) Hgood) as (st1 & E1 & H1).
  rewrite E1. cbn [mbind option_bind].
  destruct (update_particles_good np_cos np_sin (viz st1) (move_env inp) H1)
    as (v & Ev & Hv).
  rewrite Ev. cbn [mbind option_bind].
  destruct (draw_is_Some v Hv) as [shown Es]. rewrite Es.
  cbn [mbind option_bind].
  destruct (update_particles_fields _ _ _ _ _ Ev) as (_ & Et & _).
  exists st1. destruct (300 <=? frame_count st1 + 1)%Z eqn:Efc.
  - do 2 eexists. split; [reflexivity|]. split; [reflexivity|]. cbn.
    split_and!; try reflexivity; try lia.
    + apply good_state_set_target; [exact Hv|].
      destruct Hv as (Ht & _). destruct (_ <? _)%Z eqn:E; lia.
    + intros _. split; [reflexivity|]. rewrite Et. reflexivity.
  - do 2 eexists. split; [reflexivity|]. split; [reflexivity|]. cbn.
    split_and!; try reflexivity; try lia; try assumption.
Qed.

Lemma main_loop_good (np_cos np_sin : Q -> Q) (inputs : list FrameInput)
    (st : Loop) :
  good_state (viz st) ->
  exists st', main_loop np_cos np_sin st inputs = Some st' /\
              good_state (viz st').
Proof.
  revert st. induction inputs as [|inp rest IH]; intros st Hgood.
  - exists st. split; [reflexivity | exact Hgood].
  - simpl. destruct (running st); [|exists st; split; [reflexivity | exact Hgood]].
    destruct (frame_spec np_cos np_sin st inp Hgood)
      as (st1 & st' & shown & _ & -> & Hgood' & _).
    cbn [mbind option_bind]. apply IH, Hgood'.
Qed.

Lemma main_loop_snoc (np_cos np_sin : Q -> Q) (inputs : list FrameInput)
    (inp : FrameInput) (st st' : Loop) :
  main_loop np_cos np_sin st inputs = Some st' -> running st' = true ->
  main_loop np_cos np_sin st (inputs ++ [inp])
  = fst <$> frame np_cos np_sin st' inp.
Proof.
  revert st. induction inputs as [|i rest IH]; intros st E Hr.
  - simpl in E. injection E as ->. simpl. rewrite Hr.
    destruct (frame np_cos np_sin st' inp) as [[st2 shown]|]; reflexivity.
  - simpl in E |- *. destruct (running st) eqn:Er.
    + destruct (frame np_cos np_sin st i) as [[st1 shown]|]; [|discriminate].
      cbn [mbind option_bind] in E |- *. apply IH; assumption.
    + injection E as <-. congruence.
Qed.

Lemma idle_frames_S (n : nat) (envs : nat -> nat -> Particle.MoveEnv) :
  idle_frames (S n) envs
  = idle_frames n envs ++ [{| events := []; move_env := envs n |}].
Proof.
  unfold idle_frames. rewrite seq_S, map_app. reflexivity.
Qed.

Lemma idle_run (np_cos np_sin : Q -> Q) (st : Loop)
    (envs : nat -> nat -> Particle.MoveEnv) (n : nat) :
  good_state (viz st) -> running st = true -> frame_count st = 0%Z ->
  target_year (viz st) = 1993%Z ->
  exists st',
    main_loop np_cos np_sin st (idle_frames n envs) = Some st' /\
    good_state (viz st') /\ running st' = true /\
    frame_count st' = (Z.of_nat n mod 300)%Z /\
    target_year (viz st') = (1993 + (Z.of_nat n / 300) mod 31)%Z.
Proof.
  intros Hgood Hr Hfc Ht. induction n as [|n IH].
  - exists st. split; [reflexivity|]. split_and!; auto.
  - destruct IH as (st1 & E1 & Hg1 & Hr1 & Hfc1 & Ht1).
    rewrite idle_frames_S, (main_loop_snoc _ _ _ _ _ st1 E1 Hr1).
    destruct (frame_spec np_cos np_sin st1
                {| events := []; move_env := envs n |} Hg1)
      as (st1' & st2 & shown & Eev & -> & Hg2 & Hr2 & Hlt & Hge).
    simpl in Eev. injection Eev as <-.
    exists st2. split; [reflexivity|]. split; [exact Hg2|].
    split; [congruence|].
    rewrite Hfc1, Ht1 in *.
    replace (Z.of_nat (S n)) with (Z.of_nat n + 1)%Z by lia.
    set (k := Z.of_nat n) in *. assert (Hk : (0 <= k)%Z) by lia.
    clearbody k.
    destruct (Z_lt_le_dec (k mod 300 + 1) 300) as [Hc | Hc].
    + destruct (Hlt Hc) as [-> ->]. split.
      * Z.div_mod_to_equations. lia.
      * f_equal. f_equal. Z.div_mod_to_equations. lia.
    + destruct (Hge Hc) as [-> ->].
      assert (Hq : ((k + 1) / 300 = k / 300 + 1)%Z)
        by (Z.div_mod_to_equations; lia).
      split; [Z.div_mod_to_equations; lia|].
      rewrite Hq. destruct (_ <? _)%Z eqn:E.
      * apply Z.ltb_lt in E. Z.div_mod_to_equations. lia.
      * apply Z.ltb_ge in E. Z.div_mod_to_equations. lia.
Qed.

Lemma handle_event_frame_count (st st' : Loop) (e : Event) :
  handle_event st e = Some st' ->
  frame_count st' = if is_space e then 0%Z else frame_count st.
Proof.
  destruct e as [| [| | |] | [mx my] |]; cbn [handle_event is_space].
  1-5, 7: intros [= <-]; reflexivity.
  destruct ((100 <=? my)%Z && (my <=? 700)%Z); [|intros [= <-]; reflexivity].
  destruct (_ && _); [|intros [= <-]; reflexivity].
  destruct (py_index DISTRICTS _) as [d|]; [|discriminate].
  cbn [mbind option_bind]. intros [= <-]. reflexivity.
Qed.

Lemma events_frame_count (evs : list Event) (st st' : Loop) :
  for_each evs handle_event st = Some st' ->
  frame_count st' = if existsb is_space evs then 0%Z else frame_count st.
Proof.
  revert st. induction evs as [|e evs IH]; intros st.
  - intros [= <-]. reflexivity.
  - cbn [for_each existsb].
    destruct (handle_event st e) as [st1|] eqn:E1; [|discriminate].
    cbn [mbind option_bind]. intros E. rewrite (IH _ E).
    rewrite (handle_event_frame_count _ _ _ E1).
    destruct (is_space e), (existsb is_space evs); reflexivity.
Qed.

Lemma frame_fields (np_cos np_sin : Q -> Q) (st : Loop) (inp : FrameInput) :
  good_state (viz st) ->
  exists st1 v shown,
    for_each (events inp) handle_event st = Some st1 /\
    update_particles np_cos np_sin (viz st1) (move_env inp) = Some v /\
    ((frame_count st1 + 1 < 300)%Z ->
     frame np_cos np_sin st inp
     = Some ({| viz := v; running := running st1;
                frame_count := (frame_count st1 + 1)%Z |}, shown)).
Proof.
  intros Hgood.
  destruct (events_good st (events inp) Hgood) as (st1 & E1 & H1).
  destruct (update_particles_good np_cos np_sin (viz st1) (move_env inp) H1)
    as (v & Ev & Hv).
  destruct (draw_is_Some v Hv) as [shown Es].
  exists st1, v, shown. split; [exact E1|]. split; [exact Ev|].
  intros Hfc. unfold frame. rewrite E1. cbn [mbind option_bind].
  rewrite Ev. cbn [mbind option_bind]. rewrite Es. cbn [mbind option_bind].
  replace (300 <=? frame_count st1 + 1)%Z with false by lia.
  reflexivity.
Qed.

Lemma space_passes_S (n : nat) (envs : nat -> nat -> Particle.MoveEnv) :
  space_passes (S n) envs
  = space_passes n envs
    ++ [{| events := [KEYDOWN K_SPACE]; move_env := envs n |}].
Proof.
  unfold space_passes. rewrite seq_S, map_app. reflexivity.
Qed.

(** Passes that each receive a space key never advance the target. *)
Lemma space_run (np_cos np_sin : Q -> Q) (st : Loop)
    (envs : nat -> nat -> Particle.MoveEnv) (n : nat) :
  good_state (viz st) -> running st = true ->
  exists st',
    main_loop np_cos np_sin st (space_passes (S n) envs) = Some st' /\
    good_state (viz st') /\ running st' = true /\
    target_year (viz st') = target_year (viz st) /\
    frame_count st' = 1%Z.
Proof.
  intros Hgood Hr.
  assert (Hpass : forall s : Loop, forall k : nat,
            good_state (viz s) ->
            exists s',
              frame np_cos np_sin s
                {| events := [KEYDOWN K_SPACE]; move_env := envs k |}
              = Some s' /\
              good_state (viz s'.1) /\ running s'.1 = running s /\
              target_year (viz s'.1) = target_year (viz s) /\
              frame_count s'.1 = 1%Z).
  { intros s k Hg.
    destruct (frame_fields np_cos np_sin s
                {| events := [KEYDOWN K_SPACE]; move_env := envs k |} Hg)
      as (s1 & v & shown & Eev & Ev & Ef).
    cbn [events for_each handle_event mbind option_bind] in Eev.
    injection Eev as <-. cbn [viz running frame_count move_env] in Ev, Ef.
    rewrite Ef by lia.
    destruct (update_particles_good np_cos np_sin (viz s) (envs k) Hg)
      as (v' & Ev' & Hgv).
    rewrite Ev in Ev'. injection Ev' as <-.
    destruct (update_particles_fields _ _ _ _ _ Ev) as (_ & Htv & _).
    eexists. split; [reflexivity|]. cbn [fst viz running frame_count].
    split; [exact Hgv|]. split; [reflexivity|]. split; [exact Htv|].
    reflexivity. }
  induction n as [|n IH].
  - destruct (Hpass st 0%nat Hgood) as ([s' shown] & E & Hg & Hr' & Ht & Hf).
    cbn [fst] in *. exists s'.
    change (space_passes 1 envs)
      with [{| events := [KEYDOWN K_SPACE]; move_env := envs 0%nat |}].
    cbn [main_loop]. rewrite Hr, E. cbn [mbind option_bind].
    split; [reflexivity|]. split; [exact Hg|].
    split; [congruence|]. split; [exact Ht | exact Hf].
  - destruct IH as (s1 & E1 & Hg1 & Hr1 & Ht1 & _).
    rewrite space_passes_S, (main_loop_snoc _ _ _ _ _ s1 E1 Hr1).
    destruct (Hpass s1 (S n) Hg1) as ([s' shown] & E & Hg & Hr' & Ht & Hf).
    cbn [fst] in *. exists s'. rewrite E.
    cbn [fmap option_fmap option_map fst].
    split; [reflexivity|]. split; [exact Hg|].
    split; [congruence|]. split; [congruence | exact Hf].
Qed.

Lemma sample_start_good :
  main_start zero_rng sample_seeds = Some sample_start /\
  good_state (viz sample_start) /\
  year (viz sample_start) = 1993 /\
  target_year (viz sample_start) = 1993%Z /\
  running sample_start = true /\ frame_count sample_start = 0%Z.
Proof.
  destruct (main_start_spec zero_rng sample_seeds) as (st & E & H).
  unfold sample_start. rewrite E. split; [reflexivity | exact H].
Qed.

(** C5, as amended.  From the start of [main], whatever the draws and
    the inputs, the loop returns and [target_year] is in [1993, 2023].  In
    the state reached, a right-key press sets it to
    [min(2023, target_year + 1)] and a left-key press to
    [max(1993, target_year - 1)].  The events of a pass leave the frame
    counter as it was, or at 0 when a space key is among them; the pass
    then adds 1, and when the counter reaches 300 it resets it and
    advances the target by 1, or wraps it from 2023 to 1993.  So the
    advance fires every 300 passes as long as no space key is pressed:
    without events, after [n] passes the counter is [n mod 300] and the
    target is [1993 + (n div 300) mod 31]; it stays 1993 for fewer than
    300 passes and is 1994 after 300. *)
Theorem target_year_stays_in_range (np_cos np_sin : Q -> Q)
    (g : NpRandom) (seeds : nat -> ParticleSeed)
    (inputs : list FrameInput) (envs : nat -> nat -> Particle.MoveEnv) :
  exists st0 st : Loop,
    main_start g seeds = Some st0 /\
    year (viz st0) = 1993 /\ target_year (viz st0) = 1993%Z /\
    main_loop np_cos np_sin st0 inputs = Some st /\
    (1993 <= target_year (viz st) <= 2023)%Z /\
    (exists r l,
       handle_event st (KEYDOWN K_RIGHT) = Some r /\
       target_year (viz r) = Z.min 2023 (target_year (viz st) + 1) /\
       handle_event st (KEYDOWN K_LEFT) = Some l /\
       target_year (viz l) = Z.max 1993 (target_year (viz st) - 1)) /\
    (forall inp, exists st1 st' shown,
       for_each (events inp) handle_event st = Some st1 /\
       frame_count st1
       = (if existsb is_space (events inp) then 0%Z else frame_count st) /\
       frame np_cos np_sin st inp = Some (st', shown) /\
       (1993 <= target_year (viz st') <= 2023)%Z /\
       ((frame_count st1 + 1 < 300)%Z ->
          frame_count st' = (frame_count st1 + 1)%Z /\
          target_year (viz st') = target_year (viz st1)) /\
       ((300 <= frame_count st1 + 1)%Z ->
          frame_count st' = 0%Z /\
          target_year (viz st')
          = if (target_year (viz st1) <? 2023)%Z
            then (target_year (viz st1) + 1)%Z else 1993%Z)) /\
    (forall n : nat, exists st_n,
       main_loop np_cos np_sin st0 (idle_frames n envs) = Some st_n /\
       frame_count st_n = (Z.of_nat n mod 300)%Z /\
       target_year (viz st_n) = (1993 + (Z.of_nat n / 300) mod 31)%Z) /\
    (forall n : nat, (n < 300)%nat -> exists st_n,
       main_loop np_cos np_sin st0 (idle_frames n envs) = Some st_n /\
       target_year (viz st_n) = 1993%Z) /\
    (exists st_300,
       main_loop np_cos np_sin st0 (idle_frames 300 envs) = Some st_300 /\
       target_year (viz st_300) = 1994%Z /\ frame_count st_300 = 0%Z).
Proof.
  destruct (main_start_spec g seeds) as (st0 & E0 & Hg0 & Hy0 & Ht0 & Hr0 & Hf0).
  destruct (main_loop_good np_cos np_sin inputs st0 Hg0) as (st & E & Hg).
  exists st0, st.
  split; [exact E0|]. split; [exact Hy0|]. split; [exact Ht0|].
  split; [exact E|]. split; [apply Hg|].
  assert (Hidle : forall n : nat, exists st_n,
             main_loop np_cos np_sin st0 (idle_frames n envs) = Some st_n /\
             frame_count st_n = (Z.of_nat n mod 300)%Z /\
             target_year (viz st_n) = (1993 + (Z.of_nat n / 300) mod 31)%Z).
  { intros n.
    destruct (idle_run np_cos np_sin st0 envs n Hg0 Hr0 Hf0 Ht0)
      as (st_n & En & _ & _ & Hfn & Htn).
    exists st_n. auto. }
  split_and!.
  - do 2 eexists. split_and!; reflexivity.
  - intros inp.
    destruct (frame_spec np_cos np_sin st inp Hg)
      as (st1 & st' & shown & E1 & E' & Hg' & _ & Hlt & Hge).
    exists st1, st', shown. split; [exact E1|].
    split; [apply (events_frame_count _ _ _ E1)|].
    split_and!; try assumption; apply Hg'.
  - exact Hidle.
  - intros n Hn. destruct (Hidle n) as (st_n & En & _ & Htn).
    exists st_n. split; [exact En|]. rewrite Htn.
    rewrite Z.div_small by lia. reflexivity.
  - destruct (Hidle 300%nat) as (st_n & En & Hfn & Htn).
    exists st_n. split; [exact En|]. split; [exact Htn | exact Hfn].
Qed.

Lemma target_year_stays_in_range_witness :
  exists st0 st_300,
    main_start zero_rng sample_seeds = Some st0 /\
    main_loop (fun _ => 0) (fun _ => 0) st0
      (idle_frames 300 (fun _ _ => still_env)) = Some st_300 /\
    target_year (viz st_300) = 1994%Z.
Proof.
  destruct (target_year_stays_in_range (fun _ => 0) (fun _ => 0)
              zero_rng sample_seeds [] (fun _ _ => still_env))
    as (st0 & _ & E0 & _ & _ & _ & _ & _ & _ & _ & _ & st_300 & E & Ht & _).
  exists st0, st_300. split; [exact E0|]. split; [exact E | exact Ht].
Defined.

(** C5, as stated, fails.  The advance does not fire every 300 passes
    under every sequence of stimuli: when every pass receives a space key,
    the counter is 1 after each pass, and after 300 passes from the start
    of [main] the target year is still 1993, not 1994. *)
Lemma advance_every_300_frames_counterexample :
  exists st,
    main_loop (fun _ => 0) (fun _ => 0) sample_start
      (space_passes 300 (fun _ _ => still_env)) = Some st /\
    target_year (viz st) = 1993%Z /\
    target_year (viz st) <> 1994%Z /\
    frame_count st = 1%Z.
Proof.
  destruct sample_start_good as (_ & Hg & _ & Ht & Hr & _).
  destruct (space_run (fun _ => 0) (fun _ => 0) sample_start
              (fun _ _ => still_env) 299 Hg Hr)
    as (st & E & _ & _ & Htst & Hf).
  exists st. split; [exact E|]. rewrite Htst, Ht.
  split; [reflexivity|]. split; [discriminate | exact Hf].
Qed.

(** ** Particles: position, depth and rendering *)

(** X1.  After [Particle.move], whatever the particle was before and whatever
    [np.cos] and [np.sin] return, the particle is inside the window:
    [0 <= x <= WIDTH] and [0 <= y <= HEIGHT].  The angle has grown by the
    [random.uniform] draw, and [color], [base_size], [speed] and [size]
    are unchanged. *)
Theorem move_stays_in_window (np_cos np_sin : Q -> Q)
    (p : Particle.t) (env : Particle.MoveEnv) :
  let p' := Particle.move np_cos np_sin p env in
  0 <= Particle.x p' <= inject_Z WIDTH /\
  0 <= Particle.y p' <= inject_Z HEIGHT /\
  Particle.angle p' = Particle.angle p + Particle.uniform env /\
  Particle.color p' = Particle.color p /\
  Particle.base_size p' = Particle.base_size p /\
  Particle.speed p' = Particle.speed p /\
  Particle.size p' = Particle.size p.
Proof.
  assert (HW : inject_Z WIDTH == 1200) by reflexivity.
  assert (HH : inject_Z HEIGHT == 800) by reflexivity.
  cbn zeta. unfold Particle.move.
  cbn [Particle.x Particle.y Particle.angle Particle.color
       Particle.base_size Particle.speed Particle.size].
  split_and!; try reflexivity; repeat case_cmp; lra.
Qed.

Lemma depth_factor_unit (zv : Q) :
  -50 <= zv <= 50 -> 0 <= (zv + 50) / 100 <= 1.
Proof.
  intros H. split.
  - apply Qle_shift_div_l; lra.
  - apply Qle_shift_div_r; lra.
Qed.

Lemma py_int_le (a : Q) (n : Z) : 0 <= a -> a <= inject_Z n -> (py_int a <= n)%Z.
Proof.
  intros H0 Hn. rewrite py_int_floor by exact H0.
  rewrite <- (Qfloor_Z n). apply Qfloor_resp_le, Hn.
Qed.

Lemma py_int_ge (a : Q) (n : Z) : inject_Z n <= a -> 0 <= a -> (n <= py_int a)%Z.
Proof.
  intros Hn H0. rewrite py_int_floor by exact H0.
  rewrite <- (Qfloor_Z n). apply Qfloor_resp_le, Hn.
Qed.

Lemma shade_bounds (c : Z) (df : Q) :
  (0 <= c)%Z -> 0 <= df <= 1 ->
  (7 * c / 10 <= py_int (inject_Z c * (0.7 + df * 0.3)) <= c)%Z.
Proof.
  intros Hc Hd.
  assert (Hq : 0 <= inject_Z c)
    by (change 0 with (inject_Z 0); rewrite <- Zle_Qle; lia).
  assert (H1 : 0 <= inject_Z c * df) by (apply Qmult_le_0_compat; lra).
  assert (H2 : 0 <= inject_Z c * (1 - df)) by (apply Qmult_le_0_compat; lra).
  split.
  - apply py_int_ge; [|lra].
    rewrite Zdiv_Qdiv.
    apply Qle_trans with (inject_Z (7 * c) / inject_Z 10); [apply Qfloor_le|].
    rewrite inject_Z_mult. change (inject_Z 10) with 10.
    change (inject_Z 7) with 7. apply Qle_shift_div_r; lra.
  - apply py_int_le; lra.
Qed.

(** X2.  For a sine with values in [-1, 1], a particle with an integer
    [base_size] and colour channels in 0..255 that has moved has
    [z] in [-50, 50]; [Particle.draw] then renders it with a radius
    between half of [base_size] (rounded down) and [base_size], a glow of
    twice that radius with alpha 50 in the same colour, and every colour
    channel between 70% of the particle's channel and the channel itself;
    the lower bound is the integer part of the 70%, less one for the
    rounding of the factor 0.7 in the floating-point evaluation. *)
Theorem depth_scales_the_particle (np_cos np_sin : Q -> Q)
    (p : Particle.t) (env : Particle.MoveEnv) (n r g b : Z) :
  unit_sin np_sin -> Particle.base_size p == inject_Z n -> (0 <= n)%Z ->
  Particle.color p = (r, g, b) -> channel r -> channel g -> channel b ->
  let p' := Particle.move np_cos np_sin p env in
  let d := Particle.draw p' in
  -50 <= Particle.z p' <= 50 /\
  (n / 2 <= Particle.main_radius d <= n)%Z /\
  Particle.glow_radius d = (2 * Particle.main_radius d)%Z /\
  Particle.glow_color d = (Particle.main_color d, 50%Z) /\
  (exists r' g' b', Particle.main_color d = (r', g', b') /\
     (7 * r / 10 - 1 <= r' <= r)%Z /\ (7 * g / 10 - 1 <= g' <= g)%Z /\
     (7 * b / 10 - 1 <= b' <= b)%Z).
Proof.
  intros Hsin Hn Hn0 Hcol [Hr _] [Hg _] [Hbl _] p' d.
  assert (Hz : -50 <= Particle.z p' <= 50).
  { subst p'. unfold Particle.move. cbn [Particle.z].
    match goal with |- _ <= 50 * np_sin ?a <= _ => specialize (Hsin a) end.
    lra. }
  split; [exact Hz|].
  pose proof (depth_factor_unit _ Hz) as Hd.
  assert (Hb : Particle.base_size p' == inject_Z n)
    by (subst p'; exact Hn).
  assert (Hq : 0 <= inject_Z n) by (change 0 with (inject_Z 0); rewrite <- Zle_Qle; lia).
  assert (Hc' : Particle.color p' = (r, g, b)) by (subst p'; exact Hcol).
  subst d. unfold Particle.draw. rewrite Hc'.
  cbn [Particle.main_radius Particle.glow_radius Particle.glow_color
       Particle.main_color].
  set (df := (Particle.z p' + 50) / 100) in *.
  split_and!; try reflexivity; try lia.
  - apply py_int_ge.
    + rewrite Hb. 
      assert (Hhalf : inject_Z (n / 2) <= inject_Z n * (1 # 2)).
      { rewrite Zdiv_Qdiv.
        apply Qle_trans with (inject_Z n / inject_Z 2); [apply Qfloor_le|].
        change (inject_Z 2) with 2. apply Qle_shift_div_r; lra. }
      assert (0 <= inject_Z n * df) by (apply Qmult_le_0_compat; lra).
      lra.
    + rewrite Hb. assert (0 <= inject_Z n * df) by (apply Qmult_le_0_compat; lra).
      lra.
  - apply py_int_le.
    + rewrite Hb. assert (0 <= inject_Z n * df) by (apply Qmult_le_0_compat; lra).
      lra.
    + rewrite Hb.
      assert (0 <= inject_Z n * (1 - df)) by (apply Qmult_le_0_compat; lra).
      lra.
  - do 3 eexists. split; [reflexivity|].
    pose proof (shade_bounds r df Hr Hd) as Sr.
    pose proof (shade_bounds g df Hg Hd) as Sg.
    pose proof (shade_bounds b df Hbl Hd) as Sb.
    split; [lia|]. split; lia.
Qed.

Lemma depth_scales_the_particle_witness :
  let d := Particle.draw
             (Particle.move (fun _ => 0) (fun _ => 0) (edge_particle 600)
                still_env) in
  (3 / 2 <= Particle.main_radius d <= 3)%Z /\
  Particle.glow_radius d = (2 * Particle.main_radius d)%Z.
Proof.
  destruct (depth_scales_the_particle (fun _ => 0) (fun _ => 0)
              (edge_particle 600) still_env 3 50 205 50)
    as (_ & Hr & Hg & _).
  - intros a. lra.
  - reflexivity.
  - lia.
  - reflexivity.
  - unfold channel. lia.
  - unfold channel. lia.
  - unfold channel. lia.
  - split; [exact Hr | exact Hg].
Defined.

(** ** Ticks: particles and the year *)

Lemma gap_after_pos (g0 : Q) (n : nat) : 0 < g0 -> 0 < gap_after g0 n.
Proof. intros H. induction n as [|n IH]; simpl; lra. Qed.

Lemma gap_after_antitone (g0 : Q) (n m : nat) :
  0 < g0 -> (n <= m)%nat -> gap_after g0 m <= gap_after g0 n.
Proof.
  intros H0. induction 1 as [|m _ IH]; [lra|].
  simpl. pose proof (gap_after_pos g0 m H0). lra.
Qed.

Lemma update_particles_particles (np_cos np_sin : Q -> Q) (self self' : t)
    (env : nat -> Particle.MoveEnv) :
  update_particles np_cos np_sin self env = Some self' ->
  exists aqi color size speed,
    current_aqi (set_year self (stepped_year self)) = Some aqi /\
    get_particle_properties aqi = (color, size, speed) /\
    particles self'
    = imap (fun i p =>
              Particle.move np_cos np_sin (restyle color size speed p) (env i))
           (particles self).
Proof.
  rewrite update_particles_eq.
  destruct (current_aqi _) as [aqi|]; [|discriminate].
  cbn [mbind option_bind].
  destruct (get_particle_properties aqi) as [[color size] speed] eqn:E.
  intros [= <-]. exists aqi, color, size, speed. auto.
Qed.

Lemma restyled_particles (np_cos np_sin : Q -> Q) (color : Color)
    (size speed : Q) (env : nat -> Particle.MoveEnv) (ps : list Particle.t) :
  let ps' := imap (fun i p =>
                     Particle.move np_cos np_sin
                       (restyle color size speed p) (env i)) ps in
  map Particle.base_size ps' = map Particle.base_size ps /\
  Forall (fun p => Particle.color p = color /\ Particle.speed p = speed /\
                   Particle.size p = Some size) ps'.
Proof.
  revert env. induction ps as [|p ps IH]; intros env; cbn zeta.
  - split; [reflexivity | constructor].
  - destruct (IH (fun i => env (S i))) as [IH1 IH2]. cbn zeta in IH1, IH2.
    simpl. unfold compose. split.
    + f_equal. exact IH1.
    + constructor; [repeat split | exact IH2].
Qed.

(** X3.  [update_particles] keeps the number of particles and gives every
    particle the colour, the speed and the [size] attribute of the tier of
    the interpolated AQI of the stepped year; the [base_size] of every
    particle, which is what [Particle.draw] reads, is left as it was. *)
Theorem update_restyles_but_keeps_base_size (np_cos np_sin : Q -> Q)
    (self self' : t) (env : nat -> Particle.MoveEnv) :
  update_particles np_cos np_sin self env = Some self' ->
  exists aqi color size speed,
    current_aqi self' = Some aqi /\
    get_particle_properties aqi = (color, size, speed) /\
    length (particles self') = length (particles self) /\
    map Particle.base_size (particles self')
    = map Particle.base_size (particles self) /\
    Forall (fun p => Particle.color p = color /\ Particle.speed p = speed /\
                     Particle.size p = Some size) (particles self').
Proof.
  intros E.
  destruct (update_particles_particles _ _ _ _ _ E)
    as (aqi & c & sz & sp & Ea & Ep & Hps).
  destruct (update_particles_fields _ _ _ _ _ E) as (Hy & _ & _ & Hd & _).
  destruct (restyled_particles np_cos np_sin c sz sp env (particles self))
    as [H1 H2]. cbn zeta in H1, H2. rewrite <- Hps in H1, H2.
  exists aqi, c, sz, sp. split_and!; try assumption.
  - unfold current_aqi in *. cbn [year set_year aqi_data] in Ea.
    rewrite Hy, Hd. exact Ea.
  - rewrite <- (length_map Particle.base_size), H1. apply length_map.
Qed.

Lemma sample_viz_to_2000_good : good_state sample_viz_to_2000.
Proof.
  destruct sample_start_good as (_ & Hg & _).
  apply good_state_set_target; [exact Hg | lia].
Qed.

Lemma update_restyles_but_keeps_base_size_witness :
  exists self',
    update_particles (fun _ => 0) (fun _ => 0) sample_viz_to_2000
      (fun _ => still_env) = Some self' /\
    length (particles self') = length (particles sample_viz_to_2000) /\
    map Particle.base_size (particles self')
    = map Particle.base_size (particles sample_viz_to_2000).
Proof.
  destruct (update_particles_good (fun _ => 0) (fun _ => 0)
              sample_viz_to_2000 (fun _ => still_env)
              sample_viz_to_2000_good) as (self' & E & _).
  destruct (update_restyles_but_keeps_base_size _ _ _ _ _ E)
    as (aqi & color & sz & sp & _ & _ & Hl & Hb & _).
  exists self'. split; [exact E|]. split; [exact Hl | exact Hb].
Defined.

Lemma stepped_year_cases (self : t) :
  year_transition_speed self == 0.05 ->
  let T := inject_Z (target_year self) in
  (0.01 < Qabs (year self - T) ->
     stepped_year self - T == (19 # 20) * (year self - T)) /\
  (Qabs (year self - T) <= 0.01 -> stepped_year self = T).
Proof.
  intros Hs T. unfold stepped_year. fold T. split; intros H.
  - case_cmp; [|lra]. rewrite Hs. ring.
  - case_cmp; [lra | reflexivity].
Qed.

Lemma Qabs_scaled (a : Q) : Qabs ((19 # 20) * a) == (19 # 20) * Qabs a.
Proof. rewrite Qabs_Qmult. reflexivity. Qed.

(** X4.  With the transition rate 0.05 and both years in [1993, 2023],
    one [update_particles] keeps [target_year] and moves [year] toward it
    without passing it: a year off the target gets strictly closer, the
    distance shrinking to at most 96% of what it was (the rate is 5%; the
    bound leaves room for the rounding of the floating-point step), and a
    year that has reached the target stays exactly there. *)
Theorem tick_approaches_target (np_cos np_sin : Q -> Q) (self self' : t)
    (env : nat -> Particle.MoveEnv) :
  year_transition_speed self == 0.05 ->
  1993 <= year self <= 2023 -> (1993 <= target_year self <= 2023)%Z ->
  update_particles np_cos np_sin self env = Some self' ->
  let T := inject_Z (target_year self) in
  target_year self' = target_year self /\
  (year self <= T -> year self <= year self' <= T) /\
  (T <= year self -> T <= year self' <= year self) /\
  Qabs (year self' - T) <= (24 # 25) * Qabs (year self - T) /\
  (~ year self == T -> Qabs (year self' - T) < Qabs (year self - T)) /\
  (year self == T -> year self' = T).
Proof.
  intros Hs _ _ E T.
  destruct (update_particles_fields _ _ _ _ _ E) as (-> & -> & _).
  destruct (stepped_year_cases self Hs) as [Hfar Hnear]. fold T in Hfar, Hnear.
  split; [reflexivity|].
  destruct (Qlt_le_dec 0.01 (Qabs (year self - T))) as [H | H].
  - specialize (Hfar H). clear Hnear.
    assert (Hstep : stepped_year self == T + (19 # 20) * (year self - T)) by lra.
    split_and!.
    + intros Hle. lra.
    + intros Hle. lra.
    + rewrite Hfar, Qabs_scaled. lra.
    + intros _. rewrite Hfar, Qabs_scaled. lra.
    + intros Heq. exfalso.
      assert (Hz : Qabs (year self - T) == 0)
        by (rewrite Qabs_pos by lra; lra).
      lra.
  - rewrite (Hnear H). pose proof (Qabs_nonneg (year self - T)) as Hn.
    assert (Hz : Qabs (T - T) == 0) by (rewrite Qabs_pos by lra; ring).
    assert (Hoff : ~ year self == T -> 0 < Qabs (year self - T)).
    { intros Hne. destruct (Qlt_le_dec (year self - T) 0) as [Hneg | Hpos].
      - rewrite Qabs_neg by lra. lra.
      - rewrite Qabs_pos by lra.
        destruct (Qlt_le_dec 0 (year self - T)) as [Hp | Hz'];
          [lra | exfalso; apply Hne; lra]. }
    apply Qabs_Qle_condition in H.
    split_and!; intros; try reflexivity; try lra.
Qed.

Lemma tick_approaches_target_witness :
  exists self',
    update_particles (fun _ => 0) (fun _ => 0) sample_viz_to_2000
      (fun _ => still_env) = Some self' /\
    target_year self' = target_year sample_viz_to_2000 /\
    Qabs (year self' - inject_Z (target_year sample_viz_to_2000))
    <= (24 # 25)
       * Qabs (year sample_viz_to_2000
               - inject_Z (target_year sample_viz_to_2000)).
Proof.
  destruct (update_particles_good (fun _ => 0) (fun _ => 0)
              sample_viz_to_2000 (fun _ => still_env)
              sample_viz_to_2000_good) as (self' & E & _).
  destruct sample_viz_to_2000_good as (HT & Hy & Hs & _).
  destruct (tick_approaches_target _ _ _ _ _ Hs Hy HT E)
    as (Ht & _ & _ & Hd & _).
  exists self'. split; [exact E|]. split; [exact Ht | exact Hd].
Defined.

Lemma gap_after_30_157 : gap_after 30 157 <= 0.01.
Proof. vm_compute. discriminate. Qed.

Lemma ticks_close_in (np_cos np_sin : Q -> Q) (self : t)
    (envs : nat -> nat -> Particle.MoveEnv) (n : nat) :
  good_state self ->
  exists v,
    run_ticks np_cos np_sin n envs self = Some v /\
    good_state v /\ target_year v = target_year self /\
    (year v = inject_Z (target_year self) \/
     Qabs (year v - inject_Z (target_year self)) <= gap_after 30 n).
Proof.
  intros Hgood. induction n as [|n IH].
  - exists self. split; [reflexivity|]. split; [exact Hgood|].
    split; [reflexivity|]. right. cbn [gap_after].
    destruct Hgood as (Ht & Hy & _).
    assert (Hq : 1993 <= inject_Z (target_year self) <= 2023).
    { change 1993 with (inject_Z 1993). change 2023 with (inject_Z 2023).
      rewrite <- !Zle_Qle. exact Ht. }
    apply Qabs_Qle_condition. lra.
  - destruct IH as (v & E & Hg & Ht & Hy).
    destruct (update_particles_good np_cos np_sin v (envs n) Hg)
      as (v' & E' & Hg').
    exists v'. cbn [run_ticks]. rewrite E. cbn [mbind option_bind].
    split; [exact E'|]. split; [exact Hg'|].
    destruct (update_particles_fields _ _ _ _ _ E') as (-> & -> & _).
    split; [exact Ht|].
    assert (Hs : year_transition_speed v == 0.05) by apply Hg.
    destruct (stepped_year_cases v Hs) as [Hfar Hnear].
    cbv zeta in Hfar, Hnear. rewrite Ht in Hfar, Hnear.
    set (T := inject_Z (target_year self)) in *.
    destruct (Qlt_le_dec 0.01 (Qabs (year v - T))) as [H | H].
    + right. destruct Hy as [Hy | Hy].
      * exfalso. rewrite Hy in H.
        assert (Hz : Qabs (T - T) == 0) by (rewrite Qabs_pos by lra; ring).
        lra.
      * specialize (Hfar H). rewrite Hfar, Qabs_scaled.
        cbn [gap_after]. lra.
    + left. exact (Hnear H).
Qed.

(** X5.  From any state whose year and target lie in 1993..2023, 158 calls
    of [update_particles] or more all return, and leave [year] equal to
    [target_year], which has not changed. *)
Theorem settles_within_158_ticks (np_cos np_sin : Q -> Q) (self : t)
    (envs : nat -> nat -> Particle.MoveEnv) (n : nat) :
  good_state self -> (158 <= n)%nat ->
  exists v,
    run_ticks np_cos np_sin n envs self = Some v /\
    year v = inject_Z (target_year self) /\
    target_year v = target_year self.
Proof.
  intros Hgood Hn. destruct n as [|n]; [lia|].
  destruct (ticks_close_in np_cos np_sin self envs n Hgood)
    as (v & E & Hg & Ht & Hy).
  destruct (update_particles_good np_cos np_sin v (envs n) Hg)
    as (v' & E' & Hg').
  exists v'. cbn [run_ticks]. rewrite E. cbn [mbind option_bind].
  split; [exact E'|].
  destruct (update_particles_fields _ _ _ _ _ E') as (-> & -> & _).
  split; [|exact Ht].
  assert (Hs : year_transition_speed v == 0.05) by apply Hg.
  destruct (stepped_year_cases v Hs) as [_ Hnear].
  cbv zeta in Hnear. rewrite Ht in Hnear. apply Hnear.
  set (T := inject_Z (target_year self)) in *.
  destruct Hy as [Hy | Hy].
  - rewrite Hy.
    assert (Hz : Qabs (T - T) == 0) by (rewrite Qabs_pos by lra; ring).
    lra.
  - apply Qle_trans with (gap_after 30 n); [exact Hy|].
    apply Qle_trans with (gap_after 30 157); [|exact gap_after_30_157].
    apply gap_after_antitone; [reflexivity | lia].
Qed.

Lemma settles_within_158_ticks_witness :
  exists v,
    run_ticks (fun _ => 0) (fun _ => 0) 158 (fun _ _ => still_env)
      sample_viz_to_2000 = Some v /\
    year v = inject_Z (target_year sample_viz_to_2000) /\
    target_year v = target_year sample_viz_to_2000.
Proof.
  apply (settles_within_158_ticks (fun _ => 0) (fun _ => 0)
           sample_viz_to_2000 (fun _ _ => still_env) 158).
  - exact sample_viz_to_2000_good.
  - lia.
Defined.


(** ** What the main loop never changes *)

Lemma handle_event_fixed (st st' : Loop) (e : Event) :
  handle_event st e = Some st' ->
  fixed_parts (viz st') = fixed_parts (viz st) /\
  year (viz st') = year (viz st).
Proof.
  destruct e as [| [| | |] | [mx my] |]; cbn [handle_event].
  1-5, 7: intros [= <-]; split; reflexivity.
  destruct ((100 <=? my)%Z && (my <=? 700)%Z); [|intros [= <-]; split; reflexivity].
  destruct (_ && _); [|intros [= <-]; split; reflexivity].
  destruct (py_index DISTRICTS _) as [d|]; [|discriminate].
  cbn [mbind option_bind]. intros [= <-]. split; reflexivity.
Qed.

Lemma events_fixed (evs : list Event) (st st' : Loop) :
  for_each evs handle_event st = Some st' ->
  fixed_parts (viz st') = fixed_parts (viz st) /\
  year (viz st') = year (viz st).
Proof.
  revert st. induction evs as [|e evs IH]; intros st.
  - intros [= <-]. split; reflexivity.
  - cbn [for_each]. destruct (handle_event st e) as [st1|] eqn:E1; [|discriminate].
    cbn [mbind option_bind]. intros E.
    destruct (handle_event_fixed _ _ _ E1) as [H1 H2].
    destruct (IH _ E) as [H3 H4]. split; congruence.
Qed.

Lemma update_particles_fixed (np_cos np_sin : Q -> Q) (self self' : t)
    (env : nat -> Particle.MoveEnv) :
  update_particles np_cos np_sin self env = Some self' ->
  fixed_parts self' = fixed_parts self.
Proof.
  intros E.
  destruct (update_particles_fields _ _ _ _ _ E) as (_ & _ & Hs & Ha & Hd & _).
  destruct (update_particles_particles _ _ _ _ _ E)
    as (aqi & c & sz & sp & _ & _ & Hps).
  destruct (restyled_particles np_cos np_sin c sz sp env (particles self))
    as [H1 _]. cbn zeta in H1. rewrite <- Hps in H1.
  unfold fixed_parts. rewrite Hs, Ha, Hd, H1. reflexivity.
Qed.

Lemma frame_fixed (np_cos np_sin : Q -> Q) (st st' : Loop) (inp : FrameInput)
    (shown : Frame) :
  frame np_cos np_sin st inp = Some (st', shown) ->
  fixed_parts (viz st') = fixed_parts (viz st).
Proof.
  unfold frame.
  destruct (for_each _ _ _) as [st1|] eqn:E1; [|discriminate].
  cbn [mbind option_bind].
  destruct (update_particles _ _ _ _) as [v|] eqn:Ev; [|discriminate].
  cbn [mbind option_bind].
  destruct (draw v) as [sh|]; [|discriminate]. cbn [mbind option_bind].
  destruct (events_fixed _ _ _ E1) as [H1 _].
  pose proof (update_particles_fixed _ _ _ _ _ Ev) as H2.
  destruct (_ <=? _)%Z; intros [= <- _]; cbn [viz];
    (transitivity (fixed_parts v); [reflexivity | congruence]).
Qed.

Lemma main_loop_fixed (np_cos np_sin : Q -> Q) (inputs : list FrameInput)
    (st st' : Loop) :
  main_loop np_cos np_sin st inputs = Some st' ->
  fixed_parts (viz st') = fixed_parts (viz st).
Proof.
  revert st. induction inputs as [|inp rest IH]; intros st.
  - intros [= <-]. reflexivity.
  - cbn [main_loop]. destruct (running st); [|intros [= <-]; reflexivity].
    destruct (frame np_cos np_sin st inp) as [[st1 shown]|] eqn:E1;
      [|discriminate].
    cbn [mbind option_bind]. intros E.
    rewrite (IH _ E). apply (frame_fixed _ _ _ _ _ _ E1).
Qed.

Lemma init_full_spec (g : NpRandom) (seeds : nat -> ParticleSeed) :
  exists (v : t) (g' : NpRandom) (s93 : list Q) (color : Color) (sz sp : Q),
    init g seeds = Some (v, g') /\ good_state v /\ good_data v /\
    aqi_data v !! 1993%Z = Some s93 /\
    get_particle_properties (np_mean s93) = (color, sz, sp) /\
    particles v
    = map (fun i =>
             Particle.init (inject_Z (randint_x (seeds i)))
               (inject_Z (randint_y (seeds i))) color sz sp
               (uniform_z (seeds i)) (uniform_angle (seeds i)))
          (seq 0 200).
Proof.
  unfold init.
  destruct (generate_historical_data_spec
              {| particles := []; year := 1993; target_year := 1993;
                 year_transition_speed := 0.05; aqi_data := ∅;
                 district_data := ∅; selected_district := None;
                 historical_events := None |} g) as (Hg & Hkeys & Hself & _).
  destruct (generate_historical_data _ g) as [[data self1] g1].
  cbn [fst snd] in Hg, Hkeys, Hself. subst self1.
  set (self2 := set_aqi_data _ data).
  destruct (generate_district_data_spec self2 g1)
    as (dd & g2 & Edd & _ & Hdgood & Hdone).
  rewrite Edd. cbn [mbind option_bind fst snd] in *.
  destruct (Hkeys 1993%Z) as [s Hs]; [lia|].
  unfold initialize_particles, lookup_num.
  change (Qeq_bool _ _) with true. cbn iota.
  change (aqi_data _ !! Qfloor _) with (data !! 1993%Z).
  rewrite Hs. cbn [mbind option_bind].
  destruct (get_particle_properties (np_mean s)) as [[color size] speed] eqn:Ep.
  eexists _, _, s, color, size, speed. split; [reflexivity|].
  split; [|split; [|split; [exact Hs | split; [exact Ep | reflexivity]]]].
  - unfold good_state.
    cbn [target_year year year_transition_speed aqi_data district_data
         set_selected_district set_particles set_district_data set_aqi_data
         set_historical_events self2].
    split_and!.
    + lia.
    + lia.
    + discriminate.
    + discriminate.
    + reflexivity.
    + exact Hkeys.
    + intros d y Hd Hy. apply Hdone. split; assumption.
  - split; [exact Hg | exact Hdgood].
Qed.

Lemma main_start_full_spec (g : NpRandom) (seeds : nat -> ParticleSeed) :
  exists st s93,
    main_start g seeds = Some st /\ good_state (viz st) /\ good_data (viz st) /\
    running st = true /\ frame_count st = 0%Z /\
    aqi_data (viz st) !! 1993%Z = Some s93 /\
    length (particles (viz st)) = 200%nat /\
    Forall (fun p => Particle.base_size p
                     = (get_particle_properties (np_mean s93)).1.2)
           (particles (viz st)).
Proof.
  destruct (init_full_spec g seeds)
    as (v & g' & s93 & c & sz & sp & E & Hg & Hd & Hs & Ep & Hp).
  unfold main_start. rewrite E. cbn [mbind option_bind].
  exists {| viz := v; running := true; frame_count := 0 |}, s93.
  split; [reflexivity|]. cbn [viz running frame_count].
  split; [exact Hg|]. split; [exact Hd|]. split; [reflexivity|].
  split; [reflexivity|]. split; [exact Hs|]. split.
  - rewrite Hp, length_map, length_seq. reflexivity.
  - rewrite Hp. apply Forall_forall. intros p Hin.
    apply list_elem_of_fmap in Hin as (i & -> & _).
    rewrite Ep. reflexivity.
Qed.

(** X6.  For every stream of random draws and every sequence of loop
    inputs, [main] reaches a state with 200 particles whose [base_size]
    is the tier size of the mean AQI of 1993 drawn at start-up; the radius
    [Particle.draw] renders is computed from that size and the depth [z]
    only, whatever year the animation shows. *)
Theorem rendered_size_is_fixed_at_startup (np_cos np_sin : Q -> Q)
    (g : NpRandom) (seeds : nat -> ParticleSeed) (inputs : list FrameInput) :
  exists st0 st s93,
    main_start g seeds = Some st0 /\
    main_loop np_cos np_sin st0 inputs = Some st /\
    aqi_data (viz st0) !! 1993%Z = Some s93 /\
    length (particles (viz st)) = 200%nat /\
    Forall (fun p =>
              Particle.base_size p
              = (get_particle_properties (np_mean s93)).1.2 /\
              Particle.main_radius (Particle.draw p)
              = py_int ((get_particle_properties (np_mean s93)).1.2
                        * (0.5 + (Particle.z p + 50) / 100 * 0.5)))
           (particles (viz st)).
Proof.
  destruct (main_start_full_spec g seeds)
    as (st0 & s93 & E0 & Hg0 & _ & _ & _ & Hs & Hlen & Hbase).
  destruct (main_loop_good np_cos np_sin inputs st0 Hg0) as (st & E & _).
  exists st0, st, s93. split_and!; try assumption.
  - pose proof (main_loop_fixed _ _ _ _ _ E) as Hfix.
    apply (f_equal (fun x => length x.1.2)) in Hfix.
    cbn [fixed_parts fst snd] in Hfix. rewrite !length_map in Hfix. congruence.
  - pose proof (main_loop_fixed _ _ _ _ _ E) as Hfix.
    apply (f_equal (fun x => x.1.2)) in Hfix. cbn [fixed_parts fst snd] in Hfix.
    apply Forall_lookup. intros i p Hi.
    assert (Hl : map Particle.base_size (particles (viz st0)) !! i
                 = Some (Particle.base_size p)).
    { rewrite <- Hfix, list_lookup_fmap, Hi. reflexivity. }
    rewrite list_lookup_fmap in Hl.
    destruct (particles (viz st0) !! i) as [p0|] eqn:E0i; [|discriminate].
    injection Hl as Hl.
    pose proof (proj1 (Forall_lookup _ _) Hbase i p0 E0i) as Hp0.
    cbn beta in Hp0.
    assert (Hb : Particle.base_size p
                 = (get_particle_properties (np_mean s93)).1.2) by congruence.
    split; [exact Hb|].
    unfold Particle.draw. rewrite Hb.
    destruct (Particle.color p) as [[r gg] b]. reflexivity.
Qed.


(** ** The size a tick assigns and the size that is drawn *)

Lemma moved_depth (np_cos np_sin : Q -> Q) (color : Color) (size speed : Q)
    (env : nat -> Particle.MoveEnv) (ps : list Particle.t) :
  Forall (fun p => exists a, Particle.z p = 50 * np_sin a)
    (imap (fun i p =>
             Particle.move np_cos np_sin (restyle color size speed p) (env i))
          ps).
Proof.
  revert env. induction ps as [|p ps IH]; intros env; [constructor|].
  cbn [imap]. constructor.
  - eexists. reflexivity.
  - apply (IH (fun i => env (S i))).
Qed.

(** With [sin = 0] every particle is drawn at depth 0; the radius then
    comes from [base_size], whatever tier the tick assigns. *)
Lemma update_keeps_drawn_size (np_cos : Q -> Q) (self self' : t)
    (env : nat -> Particle.MoveEnv) (color : Color) (sz sp b : Q) :
  update_particles np_cos (fun _ => 0) self env = Some self' ->
  current_aqi (set_year self (stepped_year self))
  ≫= (fun a => Some (get_particle_properties a)) = Some (color, sz, sp) ->
  Forall (fun p => Particle.base_size p = b) (particles self) ->
  length (particles self') = length (particles self) /\
  Forall (fun p =>
            Particle.color p = color /\ Particle.speed p = sp /\
            Particle.size p = Some sz /\ Particle.base_size p = b /\
            Particle.z p = 50 * 0 /\
            Particle.main_radius (Particle.draw p)
            = py_int (b * (0.5 + (Particle.z p + 50) / 100 * 0.5)))
         (particles self').
Proof.
  intros E Htier Hbase.
  destruct (update_particles_particles _ _ _ _ _ E)
    as (aqi & c & sz' & sp' & Ea & Ep & Hps).
  rewrite Ea in Htier. cbn [mbind option_bind] in Htier.
  rewrite Ep in Htier. injection Htier as -> -> ->.
  destruct (restyled_particles np_cos (fun _ => 0) color sz sp env
              (particles self)) as [H1 H2].
  pose proof (moved_depth np_cos (fun _ => 0) color sz sp env
                (particles self)) as H3.
  cbn zeta in H1, H2. cbn beta in H3. rewrite <- Hps in H1, H2, H3.
  split.
  - rewrite <- (length_map Particle.base_size), H1. apply length_map.
  - apply Forall_lookup. intros i p Hi.
    destruct (proj1 (Forall_lookup _ _) H2 i p Hi) as (Hc & Hsp & Hsz).
    destruct (proj1 (Forall_lookup _ _) H3 i p Hi) as [a Hz].
    assert (Hl : map Particle.base_size (particles self) !! i
                 = Some (Particle.base_size p)).
    { rewrite <- H1, list_lookup_fmap, Hi. reflexivity. }
    rewrite list_lookup_fmap in Hl.
    destruct (particles self !! i) as [p0|] eqn:E0i; [|discriminate].
    injection Hl as Hl.
    pose proof (proj1 (Forall_lookup _ _) Hbase i p0 E0i) as Hp0.
    cbn beta in Hp0.
    assert (Hb : Particle.base_size p = b) by congruence.
    split; [exact Hc|]. split; [exact Hsp|]. split; [exact Hsz|].
    split; [exact Hb|]. split; [exact Hz|].
    unfold Particle.draw. rewrite Hb.
    destruct (Particle.color p) as [[r gg] bl]. reflexivity.
Qed.

Lemma good_state_set_year (v : t) (y : Q) :
  good_state v -> 1993 <= y <= 2023 -> good_state (set_year v y).
Proof.
  intros (Ht & _ & H) Hy. split; [exact Ht|]. split; [exact Hy | exact H].
Qed.

Lemma sample_viz_2016_good : good_state sample_viz_2016.
Proof.
  destruct sample_start_good as (_ & Hg & _).
  apply good_state_set_target; [|lia].
  apply good_state_set_year; [exact Hg | lra].
Qed.

Lemma sample_start_particles :
  exists s93,
    aqi_data (viz sample_start) !! 1993%Z = Some s93 /\
    length (particles (viz sample_start)) = 200%nat /\
    Forall (fun p => Particle.base_size p
                     = (get_particle_properties (np_mean s93)).1.2)
           (particles (viz sample_start)).
Proof.
  destruct (main_start_full_spec zero_rng sample_seeds)
    as (st & s93 & E & _ & _ & _ & _ & Hs & Hl & Hb).
  unfold sample_start. rewrite E. exists s93. auto.
Qed.

Lemma particles_set_years (v : t) (y : Q) (T : Z) :
  particles (set_target_year (set_year v y) T) = particles v.
Proof. reflexivity. Qed.

Lemma sample_tier_1993 :
  aqi_data (viz sample_start) !! 1993%Z
  ≫= (fun s => Some (get_particle_properties (np_mean s)))
  = Some (COLORS.particle_moderate, 4, 1.5).
Proof. vm_compute. reflexivity. Qed.

Lemma sample_tier_2016 :
  current_aqi (set_year sample_viz_2016 (stepped_year sample_viz_2016))
  ≫= (fun a => Some (get_particle_properties a))
  = Some (COLORS.particle_good, 3, 1).
Proof. vm_compute. reflexivity. Qed.

Lemma sample_viz_2016_particles :
  length (particles sample_viz_2016) = 200%nat /\
  Forall (fun p => Particle.base_size p = 4) (particles sample_viz_2016).
Proof.
  destruct sample_start_particles as (s93 & Hs & Hlen & Hbase).
  pose proof sample_tier_1993 as H4.
  rewrite Hs in H4. cbn [mbind option_bind] in H4. injection H4 as H4.
  rewrite H4 in Hbase.
  unfold sample_viz_2016, sample_viz_at. rewrite particles_set_years.
  split; [exact Hlen | exact Hbase].
Qed.

(** C8.  The code assigns the tier's size to the attribute [size], which
    nothing reads; [Particle.draw] computes the radius from [base_size],
    which only the constructor sets.  At the start state of [main] with
    all draws zero, moved to the year 2016 (mean AQI of 1993: tier
    moderate, size 4; of 2016: tier good, size 3), one [update_particles]
    with [sin = 0] gives each of the 200 particles the colour and the
    speed of the tier good and [size = 3], and leaves [base_size = 4]: the
    radius drawn is 3, where the size of the tier would give 2. *)
Theorem update_misses_the_drawn_size :
  exists self',
    update_particles (fun _ => 0) (fun _ => 0) sample_viz_2016
      (fun _ => still_env) = Some self' /\
    length (particles self') = 200%nat /\
    Forall (fun p =>
              Particle.color p = COLORS.particle_good /\
              Particle.speed p = 1 /\
              Particle.size p = Some 3 /\
              Particle.base_size p = 4 /\
              Particle.main_radius (Particle.draw p) = 3%Z /\
              py_int (3 * (0.5 + (Particle.z p + 50) / 100 * 0.5)) = 2%Z)
           (particles self').
Proof.
  destruct (update_particles_good (fun _ => 0) (fun _ => 0) sample_viz_2016
              (fun _ => still_env) sample_viz_2016_good) as (self' & E & _).
  destruct sample_viz_2016_particles as [Hlen Hbase].
  destruct (update_keeps_drawn_size _ _ _ _ _ _ _ _ E sample_tier_2016 Hbase)
    as [Hl Hall].
  exists self'. split; [exact E|]. split; [congruence|].
  apply (Forall_impl _ _ _ Hall). intros p (Hc & Hsp & Hsz & Hb & Hz & Hr).
  split; [exact Hc|]. split; [exact Hsp|]. split; [exact Hsz|].
  split; [exact Hb|]. rewrite Hr, Hz. split; reflexivity.
Qed.


(** ** The displayed values in every reachable state *)

Lemma np_sum_bounds (s : list Q) :
  Forall in_range s ->
  0 <= np_sum s <= 150 * inject_Z (Z.of_nat (length s)).
Proof.
  induction 1 as [|v s Hv _ IH].
  - vm_compute. split; discriminate.
  - cbn [np_sum foldr length]. fold (np_sum s).
    rewrite Nat2Z.inj_succ, <- Z.add_1_r, inject_Z_plus.
    change (inject_Z 1) with 1. unfold in_range in Hv. lra.
Qed.

Lemma np_mean_in_range (s : list Q) : good_sample s -> in_range (np_mean s).
Proof.
  intros [Hlen Hall]. pose proof (np_sum_bounds s Hall) as Hb.
  unfold np_mean, in_range. rewrite Hlen in *.
  change (inject_Z (Z.of_nat 12)) with 12 in *. split.
  - apply Qle_shift_div_l; lra.
  - apply Qle_shift_div_r; lra.
Qed.

Lemma between_in_range (a b f : Q) :
  in_range a -> in_range b -> 0 <= f <= 1 -> in_range (a + (b - a) * f).
Proof.
  unfold in_range. intros Ha Hb Hf.
  assert (H1 : 0 <= a * (1 - f)) by (apply Qmult_le_0_compat; lra).
  assert (H2 : 0 <= b * f) by (apply Qmult_le_0_compat; lra).
  assert (H3 : 0 <= (150 - a) * (1 - f)) by (apply Qmult_le_0_compat; lra).
  assert (H4 : 0 <= (150 - b) * f) by (apply Qmult_le_0_compat; lra).
  lra.
Qed.

Lemma fraction_unit (q : Q) : 0 <= q - inject_Z (Qfloor q) <= 1.
Proof.
  pose proof (Qfloor_le q). pose proof (Qlt_floor q) as H2.
  rewrite inject_Z_plus in H2. change (inject_Z 1) with 1 in H2. lra.
Qed.

Lemma interpolated_value_in_range (sample : gmap Z (list Q)) (q a : Q) :
  map_Forall (fun _ s => good_sample s) sample ->
  interpolated_value sample q = Some a -> in_range a.
Proof.
  intros Hgood. unfold interpolated_value.
  destruct (sample !! Qfloor q) as [s0|] eqn:E0; [|discriminate].
  cbn [mbind option_bind].
  pose proof (np_mean_in_range s0 (Hgood _ _ E0)) as H0.
  destruct (sample !! Z.min 2023 _) as [s1|] eqn:E1.
  - pose proof (np_mean_in_range s1 (Hgood _ _ E1)) as H1.
    destruct (Qltb 0 _); intros [= <-]; [|exact H0].
    apply between_in_range; [exact H0 | exact H1 | apply fraction_unit].
  - intros [= <-]. exact H0.
Qed.

Lemma main_loop_from_start (np_cos np_sin : Q -> Q) (g : NpRandom)
    (seeds : nat -> ParticleSeed) (inputs : list FrameInput) :
  exists st0 st,
    main_start g seeds = Some st0 /\
    main_loop np_cos np_sin st0 inputs = Some st /\
    good_state (viz st) /\ good_data (viz st).
Proof.
  destruct (main_start_full_spec g seeds)
    as (st0 & s93 & E0 & Hg0 & Hd0 & _).
  destruct (main_loop_good np_cos np_sin inputs st0 Hg0) as (st & E & Hg).
  exists st0, st. split; [exact E0|]. split; [exact E|]. split; [exact Hg|].
  pose proof (main_loop_fixed _ _ _ _ _ E) as Hfix.
  unfold fixed_parts in Hfix. injection Hfix as Ha Hdd _ _.
  unfold good_data. rewrite Ha, Hdd. exact Hd0.
Qed.

Lemma year_floor_in_range (v : t) :
  good_state v -> (1993 <= py_int (year v) <= 2023)%Z.
Proof.
  intros (_ & Hy & _). rewrite py_int_floor by lra.
  apply Qfloor_between. change (inject_Z 1993) with 1993.
  change (inject_Z 2023) with 2023. exact Hy.
Qed.

(** X7.  In every state [main] reaches, for every stream of draws and
    every sequence of loop inputs, [year] lies in [1993, 2023], so do
    [int(year)] and [min(2023, int(year) + 1)], and both are keys of
    [aqi_data] and of the data of every district: the dictionary lookups
    of [update_particles], [draw] and [draw_district_visualization] raise
    no [KeyError]. *)
Theorem year_lookups_never_fail (np_cos np_sin : Q -> Q) (g : NpRandom)
    (seeds : nat -> ParticleSeed) (inputs : list FrameInput)
    (district : string) :
  district ∈ DISTRICTS ->
  exists st0 st,
    main_start g seeds = Some st0 /\
    main_loop np_cos np_sin st0 inputs = Some st /\
    1993 <= year (viz st) <= 2023 /\
    (1993 <= py_int (year (viz st)) <= 2023)%Z /\
    is_Some (aqi_data (viz st) !! py_int (year (viz st))) /\
    is_Some (aqi_data (viz st) !! Z.min 2023 (py_int (year (viz st)) + 1)) /\
    (exists m, district_data (viz st) !! district = Some m /\
               is_Some (m !! py_int (year (viz st))) /\
               is_Some (m !! Z.min 2023 (py_int (year (viz st)) + 1))).
Proof.
  intros Hd.
  destruct (main_loop_from_start np_cos np_sin g seeds inputs)
    as (st0 & st & E0 & E & Hg & _).
  exists st0, st. split; [exact E0|]. split; [exact E|].
  pose proof (year_floor_in_range _ Hg) as Hfl.
  destruct Hg as (_ & Hy & _ & Hk & Hdd).
  split; [exact Hy|]. split; [exact Hfl|].
  split; [apply Hk; lia|]. split; [apply Hk; lia|].
  destruct (Hdd district (py_int (year (viz st))) Hd Hfl) as (m & s & Hm & Hs).
  destruct (Hdd district (Z.min 2023 (py_int (year (viz st)) + 1)) Hd)
    as (m' & s' & Hm' & Hs'); [lia|].
  rewrite Hm in Hm'. injection Hm' as <-.
  exists m. split; [exact Hm|]. split; eexists; eassumption.
Qed.

Lemma year_lookups_never_fail_witness :
  exists st0 st,
    main_start zero_rng sample_seeds = Some st0 /\
    main_loop (fun _ => 0) (fun _ => 0) st0 [idle_input; quit_input]
    = Some st /\
    is_Some (aqi_data (viz st) !! py_int (year (viz st))).
Proof.
  destruct (year_lookups_never_fail (fun _ => 0) (fun _ => 0) zero_rng
              sample_seeds [idle_input; quit_input] "Eastern")
    as (st0 & st & E0 & E & _ & _ & H & _).
  - unfold DISTRICTS. apply elem_of_cons. right. apply elem_of_cons. left.
    reflexivity.
  - exists st0, st. split; [exact E0|]. split; [exact E | exact H].
Defined.

(** X8.  In every state [main] reaches, the overall AQI that [draw]
    displays equals the AQI [update_particles] styles the particles with;
    it and the AQI of every district lie in [0, 150], and so do the
    integers shown as text. *)
Theorem displayed_aqi_is_in_range (np_cos np_sin : Q -> Q) (g : NpRandom)
    (seeds : nat -> ParticleSeed) (inputs : list FrameInput)
    (district : string) :
  district ∈ DISTRICTS ->
  exists st0 st overall local,
    main_start g seeds = Some st0 /\
    main_loop np_cos np_sin st0 inputs = Some st /\
    overall_aqi (viz st) = Some overall /\
    current_aqi (viz st) = Some overall /\
    0 <= overall <= 150 /\
    district_aqi (viz st) district = Some local /\
    0 <= local <= 150 /\
    (0 <= py_int overall <= 150)%Z /\ (0 <= py_int local <= 150)%Z.
Proof.
  intros Hd.
  destruct (main_loop_from_start np_cos np_sin g seeds inputs)
    as (st0 & st & E0 & E & Hg & Hda & Hdd).
  assert (Hy : 0 <= year (viz st)) by (destruct Hg as (_ & Hy & _); lra).
  destruct (call_sites_agree (viz st) district Hy) as (Hc & Ho & Hl).
  destruct (overall_aqi_is_Some _ Hg) as [overall Eo].
  destruct (district_aqi_is_Some _ district Hg Hd) as [local El].
  exists st0, st, overall, local.
  assert (Ho' : in_range overall).
  { apply (interpolated_value_in_range (aqi_data (viz st)) (year (viz st)));
      [exact Hda | congruence]. }
  assert (Hl' : in_range local).
  { rewrite El in Hl.
    destruct (district_data (viz st) !! district) as [m|] eqn:Em;
      [|discriminate].
    cbn [mbind option_bind] in Hl.
    apply (interpolated_value_in_range m (year (viz st))); [|congruence].
    intros y s Hs. apply (Hdd district m y s Em Hs). }
  unfold in_range in Ho', Hl'.
  split_and!; try assumption; try congruence; try apply Ho'; try apply Hl'.
  - apply py_int_ge; [change (inject_Z 0) with 0|]; lra.
  - apply py_int_le; [|change (inject_Z 150) with 150]; lra.
  - apply py_int_ge; [change (inject_Z 0) with 0|]; lra.
  - apply py_int_le; [|change (inject_Z 150) with 150]; lra.
Qed.

Lemma displayed_aqi_is_in_range_witness :
  exists st0 st local,
    main_start zero_rng sample_seeds = Some st0 /\
    main_loop (fun _ => 0) (fun _ => 0) st0 [idle_input; quit_input]
    = Some st /\
    district_aqi (viz st) "Wan Chai" = Some local /\
    0 <= local <= 150.
Proof.
  destruct (displayed_aqi_is_in_range (fun _ => 0) (fun _ => 0) zero_rng
              sample_seeds [idle_input; quit_input] "Wan Chai")
    as (st0 & st & overall & local & E0 & E & _ & _ & _ & El & Hl & _).
  - unfold DISTRICTS. do 3 (apply elem_of_cons; right).
    apply elem_of_cons. left. reflexivity.
  - exists st0, st, local.
    split; [exact E0|]. split; [exact E|]. split; [exact El | exact Hl].
Defined.


(** ** Keys and the end of the loop *)

Lemma handle_event_running (st st' : Loop) (e : Event) :
  handle_event st e = Some st' ->
  running st' = if is_quit e then false else running st.
Proof.
  destruct e as [| [| | |] | [mx my] |]; cbn [handle_event is_quit].
  1-5, 7: intros [= <-]; reflexivity.
  destruct ((100 <=? my)%Z && (my <=? 700)%Z); [|intros [= <-]; reflexivity].
  destruct (_ && _); [|intros [= <-]; reflexivity].
  destruct (py_index DISTRICTS _) as [d|]; [|discriminate].
  cbn [mbind option_bind]. intros [= <-]. reflexivity.
Qed.

Lemma events_running (evs : list Event) (st st' : Loop) :
  for_each evs handle_event st = Some st' ->
  running st' = if existsb is_quit evs then false else running st.
Proof.
  revert st. induction evs as [|e evs IH]; intros st.
  - intros [= <-]. reflexivity.
  - cbn [for_each existsb].
    destruct (handle_event st e) as [st1|] eqn:E1; [|discriminate].
    cbn [mbind option_bind]. intros E. rewrite (IH _ E).
    rewrite (handle_event_running _ _ _ E1).
    destruct (is_quit e), (existsb is_quit evs); reflexivity.
Qed.

Lemma frame_running (np_cos np_sin : Q -> Q) (st st' : Loop)
    (inp : FrameInput) (shown : Frame) :
  frame np_cos np_sin st inp = Some (st', shown) ->
  running st' = if existsb is_quit (events inp) then false else running st.
Proof.
  unfold frame.
  destruct (for_each _ _ _) as [st1|] eqn:E1; [|discriminate].
  cbn [mbind option_bind].
  destruct (update_particles _ _ _ _) as [v|]; [|discriminate].
  cbn [mbind option_bind].
  destruct (draw v) as [sh|]; [|discriminate]. cbn [mbind option_bind].
  pose proof (events_running _ _ _ E1) as Hr.
  destruct (_ <=? _)%Z; intros [= <- _]; exact Hr.
Qed.

(** X9.  When a pass of the running loop returns and its events contain
    [QUIT], the state it leaves has [running] cleared and the loop ends
    with that state: the update and the drawing of that pass still take
    place.  A pass without [QUIT] leaves [running] set and the loop goes
    on with the next pass. *)
Theorem quit_ends_the_loop_after_the_pass (np_cos np_sin : Q -> Q)
    (st st1 : Loop) (inp : FrameInput) (rest : list FrameInput)
    (shown : Frame) :
  running st = true ->
  frame np_cos np_sin st inp = Some (st1, shown) ->
  (existsb is_quit (events inp) = true ->
     running st1 = false /\
     main_loop np_cos np_sin st (inp :: rest) = Some st1) /\
  (existsb is_quit (events inp) = false ->
     running st1 = true /\
     main_loop np_cos np_sin st (inp :: rest)
     = main_loop np_cos np_sin st1 rest).
Proof.
  intros Hr E. pose proof (frame_running _ _ _ _ _ _ E) as Hr1.
  cbn [main_loop]. rewrite Hr, E. cbn [mbind option_bind].
  split; intros Hq; rewrite Hq, ?Hr in Hr1; (split; [exact Hr1|]).
  - destruct rest; cbn [main_loop]; [reflexivity|]. rewrite Hr1. reflexivity.
  - reflexivity.
Qed.

Lemma quit_ends_the_loop_after_the_pass_witness :
  exists st1,
    main_loop (fun _ => 0) (fun _ => 0) sample_start [quit_input; idle_input]
    = Some st1 /\
    running st1 = false.
Proof.
  destruct sample_start_good as (_ & Hg & _ & _ & Hr & _).
  destruct (frame_spec (fun _ => 0) (fun _ => 0) sample_start quit_input Hg)
    as (s1 & st1 & shown & _ & E & _).
  destruct (quit_ends_the_loop_after_the_pass (fun _ => 0) (fun _ => 0)
              sample_start st1 quit_input [idle_input] shown Hr E)
    as [Hq _].
  destruct (Hq eq_refl) as [Hrun Hloop].
  exists st1. split; [exact Hloop | exact Hrun].
Defined.

Lemma presses_saturate (key : Key) (st : Loop) (k : nat) :
  key = K_RIGHT \/ key = K_LEFT ->
  (1993 <= target_year (viz st) <= 2023)%Z ->
  exists st',
    for_each (replicate k (KEYDOWN key)) handle_event st = Some st' /\
    target_year (viz st')
    = (match key with
       | K_RIGHT => Z.min 2023 (target_year (viz st) + Z.of_nat k)
       | _ => Z.max 1993 (target_year (viz st) - Z.of_nat k)
       end) /\
    fixed_parts (viz st') = fixed_parts (viz st) /\
    year (viz st') = year (viz st) /\
    selected_district (viz st') = selected_district (viz st) /\
    running st' = running st /\ frame_count st' = frame_count st.
Proof.
  intros Hkey. revert st. induction k as [|k IH]; intros st Ht.
  - exists st. split; [reflexivity|].
    split; [destruct Hkey as [-> | ->]; lia|]. repeat split.
  - destruct Hkey as [-> | ->].
    + cbn [replicate for_each handle_event]. cbn [mbind option_bind].
      match goal with |- context [for_each _ _ ?s] => set (st1 := s) end.
      destruct (IH st1) as (st' & E & Ht' & Hf & Hy & Hs & Hr & Hc).
      { subst st1. cbn [viz target_year set_target_year]. lia. }
      exists st'. split; [exact E|]. subst st1.
      cbn [viz target_year set_target_year running frame_count] in *.
      split; [lia|]. split_and!; assumption.
    + cbn [replicate for_each handle_event]. cbn [mbind option_bind].
      match goal with |- context [for_each _ _ ?s] => set (st1 := s) end.
      destruct (IH st1) as (st' & E & Ht' & Hf & Hy & Hs & Hr & Hc).
      { subst st1. cbn [viz target_year set_target_year]. lia. }
      exists st'. split; [exact E|]. subst st1.
      cbn [viz target_year set_target_year running frame_count] in *.
      split; [lia|]. split_and!; assumption.
Qed.

(** X10.  With a target year in 1993..2023, [k] right-key presses set it to
    [min(2023, target + k)] and [k] left-key presses to
    [max(1993, target - k)], changing neither [year] nor the frame
    counter; [k] right presses followed by [k] left presses restore the
    target when the right presses did not reach 2023, and give
    [max(1993, 2023 - k)] when they did. *)
Theorem key_presses_saturate (st : Loop) (k : nat) :
  (1993 <= target_year (viz st) <= 2023)%Z ->
  (exists r,
     for_each (replicate k (KEYDOWN K_RIGHT)) handle_event st = Some r /\
     target_year (viz r) = Z.min 2023 (target_year (viz st) + Z.of_nat k) /\
     year (viz r) = year (viz st) /\ frame_count r = frame_count st) /\
  (exists l,
     for_each (replicate k (KEYDOWN K_LEFT)) handle_event st = Some l /\
     target_year (viz l) = Z.max 1993 (target_year (viz st) - Z.of_nat k) /\
     year (viz l) = year (viz st) /\ frame_count l = frame_count st) /\
  (exists b,
     for_each (replicate k (KEYDOWN K_RIGHT) ++ replicate k (KEYDOWN K_LEFT))
       handle_event st = Some b /\
     (target_year (viz st) + Z.of_nat k <= 2023 ->
      target_year (viz b) = target_year (viz st))%Z /\
     (2023 < target_year (viz st) + Z.of_nat k ->
      target_year (viz b) = Z.max 1993 (2023 - Z.of_nat k))%Z).
Proof.
  intros Ht.
  destruct (presses_saturate K_RIGHT st k) as (r & Er & Hr & _ & Hry & _ & _ & Hrc);
    [auto | exact Ht |].
  destruct (presses_saturate K_LEFT st k) as (l & El & Hl & _ & Hly & _ & _ & Hlc);
    [auto | exact Ht |].
  destruct (presses_saturate K_LEFT r k) as (b & Eb & Hb & _);
    [auto | lia |].
  split; [exists r; auto|]. split; [exists l; auto|].
  exists b. split.
  - clear - Er Eb. revert st Er.
    induction (replicate k (KEYDOWN K_RIGHT)) as [|e es IH]; intros st Er.
    + injection Er as ->. exact Eb.
    + cbn [app for_each] in *.
      destruct (handle_event st e) as [s1|]; [|discriminate].
      cbn [mbind option_bind] in *. apply IH, Er.
  - split; intros H; lia.
Qed.

Lemma key_presses_saturate_witness :
  exists r,
    for_each (replicate 40 (KEYDOWN K_RIGHT)) handle_event sample_start
    = Some r /\
    target_year (viz r)
    = Z.min 2023 (target_year (viz sample_start) + Z.of_nat 40).
Proof.
  destruct sample_start_good as (_ & _ & _ & Ht & _).
  destruct (key_presses_saturate sample_start 40)
    as ((r & E & Hr & _) & _).
  - rewrite Ht. lia.
  - exists r. split; [exact E | exact Hr].
Defined.

(** X11.  While every pass of the loop receives a space key, the frame
    counter is 1 after each pass, so the automatic advance never fires:
    the target year stays what it was, and the animation state after [n]
    such passes is the one after [n] calls of [update_particles]. *)
Theorem space_restarts_the_count_only (np_cos np_sin : Q -> Q) (st : Loop)
    (envs : nat -> nat -> Particle.MoveEnv) (n : nat) :
  good_state (viz st) -> running st = true ->
  exists st',
    main_loop np_cos np_sin st (space_passes n envs) = Some st' /\
    target_year (viz st') = target_year (viz st) /\
    frame_count st' = (if n is O then frame_count st else 1%Z) /\
    run_ticks np_cos np_sin n envs (viz st) = Some (viz st').
Proof.
  intros Hgood Hr.
  assert (Hinv : exists st',
             main_loop np_cos np_sin st (space_passes n envs) = Some st' /\
             good_state (viz st') /\ running st' = true /\
             target_year (viz st') = target_year (viz st) /\
             frame_count st' = (if n is O then frame_count st else 1%Z) /\
             run_ticks np_cos np_sin n envs (viz st) = Some (viz st')).
  { induction n as [|n IH].
    - exists st. split; [reflexivity|]. split_and!; auto.
    - destruct IH as (st1 & E1 & Hg1 & Hr1 & Ht1 & _ & Hrun).
      rewrite space_passes_S, (main_loop_snoc _ _ _ _ _ st1 E1 Hr1).
      destruct (frame_fields np_cos np_sin st1
                  {| events := [KEYDOWN K_SPACE]; move_env := envs n |} Hg1)
        as (st2 & v & shown & Eev & Ev & Ef).
      cbn [events for_each handle_event mbind option_bind] in Eev.
      injection Eev as <-. cbn [viz running frame_count move_env] in Ev, Ef.
      rewrite Ef by lia. cbn [fmap option_fmap option_map fst].
      destruct (update_particles_good np_cos np_sin (viz st1) (envs n) Hg1)
        as (v' & Ev' & Hgv).
      rewrite Ev in Ev'. injection Ev' as <-.
      destruct (update_particles_fields _ _ _ _ _ Ev) as (_ & Htv & _).
      eexists. split; [reflexivity|]. cbn [viz running frame_count].
      split_and!; try assumption; try reflexivity; try congruence.
      cbn [run_ticks]. rewrite Hrun. exact Ev. }
  destruct Hinv as (st' & E & _ & _ & Ht & Hc & Hrun).
  exists st'. auto.
Qed.

Lemma space_restarts_the_count_only_witness :
  exists st',
    main_loop (fun _ => 0) (fun _ => 0) sample_start
      (space_passes 2 (fun _ _ => still_env)) = Some st' /\
    target_year (viz st') = target_year (viz sample_start) /\
    frame_count st' = 1%Z.
Proof.
  destruct sample_start_good as (_ & Hg & _ & _ & Hr & _).
  destruct (space_restarts_the_count_only (fun _ => 0) (fun _ => 0)
              sample_start (fun _ _ => still_env) 2 Hg Hr)
    as (st' & E & Ht & Hf & _).
  exists st'. split; [exact E|]. split; [exact Ht | exact Hf].
Defined.


(** ** The district grid *)

Lemma DISTRICTS_NoDup : NoDup DISTRICTS.
Proof.
  apply NoDup_ListNoDup. unfold DISTRICTS.
  repeat constructor; simpl; intuition discriminate.
Qed.

Lemma draw_cells_spec (self : t) (cells : list Cell) :
  draw_district_visualization self = Some cells ->
  length cells = 9%nat /\
  forall i c, cells !! i = Some c ->
    exists d aqi col,
      DISTRICTS !! i = Some d /\
      district_aqi self d = Some aqi /\
      get_color_for_value aqi 0 150 = Some col /\
      c = {| cell_rect := (50 + Z.of_nat i mod 3 * 366,
                           100 + Z.of_nat i / 3 * 200, 356, 190)%Z;
             cell_fill := col; cell_name := d; cell_aqi_text := py_int aqi;
             cell_highlight :=
               bool_decide (Some d = selected_district self) |}.
Proof.
  unfold draw_district_visualization. intros E.
  apply mapM_Some_1 in E. split.
  - rewrite <- (Forall2_length _ _ _ E), length_imap. reflexivity.
  - intros i c Hc.
    destruct (Forall2_lookup_r _ _ _ _ _ E Hc) as ([j d] & Hl & Hf).
    rewrite list_lookup_imap in Hl.
    destruct (DISTRICTS !! i) as [d'|] eqn:Ed; [|discriminate].
    cbn in Hl. injection Hl as <- <-.
    cbn beta iota in Hf.
    destruct (district_aqi self d') as [aqi|] eqn:Ea; [|discriminate].
    cbn [mbind option_bind] in Hf.
    destruct (get_color_for_value aqi 0 150) as [col|] eqn:Ec; [|discriminate].
    cbn [mbind option_bind] in Hf. injection Hf as <-.
    exists d', aqi, col. split_and!; try reflexivity; assumption.
Qed.

Lemma cell_index_bound (i : nat) (d : string) :
  DISTRICTS !! i = Some d -> (i < 9)%nat.
Proof. intros H. apply lookup_lt_Some in H. exact H. Qed.

(** X12.  When [draw_district_visualization] returns, it has drawn nine
    cells, one per district in the order of [DISTRICTS]: cell [i] is the
    356 by 190 rectangle at [(50 + (i mod 3) * 366, 100 + (i div 3) * 200)],
    inside the window; no two cells overlap; a cell is highlighted
    exactly when its district is the selected one; and its fill colour and
    its text are computed from the interpolated AQI of its district. *)
Theorem district_grid_layout (self : t) (cells : list Cell) :
  draw_district_visualization self = Some cells ->
  length cells = 9%nat /\
  map cell_name cells = DISTRICTS /\
  (forall i c, cells !! i = Some c ->
     cell_rect c = (50 + Z.of_nat i mod 3 * 366,
                    100 + Z.of_nat i / 3 * 200, 356, 190)%Z /\
     (0 <= 50 + Z.of_nat i mod 3 * 366 /\
      50 + Z.of_nat i mod 3 * 366 + 356 <= WIDTH /\
      0 <= 100 + Z.of_nat i / 3 * 200 /\
      100 + Z.of_nat i / 3 * 200 + 190 <= HEIGHT)%Z /\
     (cell_highlight c = true <-> selected_district self = Some (cell_name c)) /\
     (exists aqi, district_aqi self (cell_name c) = Some aqi /\
        get_color_for_value aqi 0 150 = Some (cell_fill c) /\
        cell_aqi_text c = py_int aqi)) /\
  (forall i j ci cj, i <> j -> cells !! i = Some ci -> cells !! j = Some cj ->
     disjoint_rects (cell_rect ci) (cell_rect cj)).
Proof.
  intros E. destruct (draw_cells_spec self cells E) as [Hlen Hcell].
  split; [exact Hlen|]. split; [|split].
  - apply list_eq. intros i. rewrite list_lookup_fmap.
    destruct (cells !! i) as [c|] eqn:Ec.
    + destruct (Hcell i c Ec) as (d & aqi & col & Hd & _ & _ & ->).
      cbn. symmetry. exact Hd.
    + cbn. symmetry. apply lookup_ge_None_2.
      apply lookup_ge_None_1 in Ec. rewrite Hlen in Ec. exact Ec.
  - intros i c Ec.
    destruct (Hcell i c Ec) as (d & aqi & col & Hd & Ha & Hc & ->).
    pose proof (cell_index_bound i d Hd) as Hi.
    cbn [cell_rect cell_highlight cell_name cell_fill cell_aqi_text].
    split; [reflexivity|]. split.
    + unfold WIDTH, HEIGHT. Z.div_mod_to_equations. lia.
    + split.
      * rewrite bool_decide_eq_true. split; congruence.
      * exists aqi. auto.
  - intros i j ci cj Hij Ei Ej.
    destruct (Hcell i ci Ei) as (di & ? & ? & Hdi & _ & _ & ->).
    destruct (Hcell j cj Ej) as (dj & ? & ? & Hdj & _ & _ & ->).
    pose proof (cell_index_bound i di Hdi) as Hi.
    pose proof (cell_index_bound j dj Hdj) as Hj.
    cbn [cell_rect disjoint_rects].
    Z.div_mod_to_equations. lia.
Qed.

Lemma cells_are_drawn (self : t) :
  good_state self -> exists cells, draw_district_visualization self = Some cells.
Proof.
  intros Hg. destruct (draw_is_Some self Hg) as [fr E]. unfold draw in E.
  destruct (draw_district_visualization self) as [cells|];
    [exists cells; reflexivity | discriminate E].
Qed.

Lemma district_grid_layout_witness :
  exists cells,
    draw_district_visualization (viz sample_start) = Some cells /\
    length cells = 9%nat /\
    map cell_name cells = DISTRICTS.
Proof.
  destruct sample_start_good as (_ & Hg & _).
  destruct (cells_are_drawn (viz sample_start) Hg) as [cells E].
  destruct (district_grid_layout (viz sample_start) cells E)
    as (Hl & Hn & _).
  exists cells. split; [exact E|]. split; [exact Hl | exact Hn].
Defined.

Lemma click_index (i : nat) (mx my : Z) :
  (i < 9)%nat ->
  (50 + Z.of_nat i mod 3 * 366 <= mx < 50 + Z.of_nat i mod 3 * 366 + 356)%Z ->
  (100 + Z.of_nat i / 3 * 200 <= my < 100 + Z.of_nat i / 3 * 200 + 190)%Z ->
  (100 <= my <= 700)%Z /\
  ((my - 100) `div` 200 * 3 + (mx - 50) `div` ((WIDTH - 2 * 50) `div` 3)
   = Z.of_nat i)%Z.
Proof.
  intros Hi Hx Hy.
  change ((WIDTH - 2 * 50) `div` 3)%Z with 366%Z.
  assert (Hrow : ((my - 100) `div` 200 = Z.of_nat i / 3)%Z).
  { symmetry. apply (Z.div_unique_pos _ _ _ (my - 100 - Z.of_nat i / 3 * 200));
      Z.div_mod_to_equations; lia. }
  assert (Hcol : ((mx - 50) `div` 366 = Z.of_nat i mod 3)%Z).
  { symmetry.
    apply (Z.div_unique_pos _ _ _ (mx - 50 - Z.of_nat i mod 3 * 366));
      Z.div_mod_to_equations; lia. }
  rewrite Hrow, Hcol. split; Z.div_mod_to_equations; lia.
Qed.

(** X13.  A pointer press inside the rectangle drawn for a district selects
    that district, and the next drawing of the grid highlights that cell
    and no other, all rectangles, colours, names and AQI texts being
    those drawn before. *)
Theorem click_inside_a_cell_selects_it (st : Loop) (cells : list Cell)
    (i : nat) (c : Cell) (x y w h mx my : Z) :
  draw_district_visualization (viz st) = Some cells ->
  cells !! i = Some c -> cell_rect c = (x, y, w, h) ->
  (x <= mx < x + w)%Z -> (y <= my < y + h)%Z ->
  handle_event st (MOUSEBUTTONDOWN (mx, my)) = Some (select st (cell_name c)) /\
  exists cells',
    draw_district_visualization (viz (select st (cell_name c))) = Some cells' /\
    length cells' = 9%nat /\
    forall j c', cells' !! j = Some c' ->
      cell_highlight c' = bool_decide (j = i) /\
      exists cj, cells !! j = Some cj /\
        cell_rect c' = cell_rect cj /\ cell_fill c' = cell_fill cj /\
        cell_name c' = cell_name cj /\ cell_aqi_text c' = cell_aqi_text cj.
Proof.
  intros E Ec Hrect Hx Hy.
  destruct (draw_cells_spec _ _ E) as [Hlen Hcell].
  destruct (Hcell i c Ec) as (d & aqi & col & Hd & Ha & Hc & ->).
  cbn [cell_rect cell_name] in *. injection Hrect as <- <- <- <-.
  pose proof (cell_index_bound i d Hd) as Hi.
  destruct (click_index i mx my Hi Hx Hy) as [Hband Hidx].
  split.
  - destruct (handle_mouse_cases st mx my) as [Hsel _]. cbv zeta in Hsel.
    rewrite Hidx in Hsel.
    destruct Hsel as (d' & Hd' & ->); [lia|].
    rewrite Nat2Z.id, Hd in Hd'. injection Hd' as <-. reflexivity.
  - assert (Hsome : is_Some (draw_district_visualization
                               (viz (select st d)))).
    { assert (HE : is_Some (draw_district_visualization (viz st)))
        by (eexists; exact E).
      unfold draw_district_visualization in HE |- *.
      apply mapM_is_Some_1 in HE. apply mapM_is_Some_2.
      eapply Forall_impl; [exact HE|].
      intros [j dj] [cj Hj]. unfold compose in *. cbn beta iota in *.
      change (district_aqi (viz (select st d)) dj)
        with (district_aqi (viz st) dj).
      destruct (district_aqi (viz st) dj) as [a|]; [|discriminate].
      cbn [mbind option_bind] in *.
      destruct (get_color_for_value a 0 150) as [cl|]; [|discriminate].
      eexists. reflexivity. }
    destruct Hsome as [cells' E'].
    destruct (draw_cells_spec _ _ E') as [Hlen' Hcell'].
    exists cells'. split; [exact E'|]. split; [exact Hlen'|].
    intros j c' Ej'.
    destruct (Hcell' j c' Ej') as (dj & aqj & colj & Hdj & Haj & Hcj & ->).
    cbn [cell_highlight cell_rect cell_fill cell_name cell_aqi_text
         select viz selected_district set_selected_district].
    split.
    + apply bool_decide_ext. split.
      * intros [= ->]. apply (NoDup_lookup _ _ _ _ DISTRICTS_NoDup Hdj Hd).
      * intros ->. congruence.
    + destruct (lookup_lt_is_Some_2 cells j) as [cj Ecj].
      { rewrite Hlen. apply (cell_index_bound j dj Hdj). }
      exists cj. split; [exact Ecj|].
      destruct (Hcell j cj Ecj) as (dj' & aqj' & colj' & Hdj' & Haj' & Hcj' & ->).
      rewrite Hdj in Hdj'. injection Hdj' as <-.
      change (district_aqi (viz (select st d)) dj)
        with (district_aqi (viz st) dj) in Haj.
      rewrite Haj in Haj'. injection Haj' as <-.
      rewrite Hcj in Hcj'. injection Hcj' as <-.
      cbn. repeat split.
Qed.

Lemma click_inside_a_cell_selects_it_witness :
  handle_event sample_start (MOUSEBUTTONDOWN (500, 350)%Z)
  = Some (select sample_start "Kowloon City").
Proof.
  destruct sample_start_good as (_ & Hg & _).
  destruct (cells_are_drawn (viz sample_start) Hg) as [cells E].
  destruct (draw_cells_spec (viz sample_start) cells E) as [Hl Hcell].
  destruct (lookup_lt_is_Some_2 cells 4) as [c Hc]; [rewrite Hl; lia|].
  destruct (Hcell 4%nat c Hc) as (d & aqi & col & Hd & _ & _ & Ec).
  injection Hd as <-.
  destruct (click_inside_a_cell_selects_it sample_start cells 4 c
              416 300 356 190 500 350 E Hc) as [H _].
  - rewrite Ec. reflexivity.
  - lia.
  - lia.
  - rewrite Ec in H. exact H.
Defined.


(** ** The timeline graph *)

Lemma graph_point_lookup (self : Graph.t) (first last : Z) (mean : Z -> Q)
    (i : nat) (x : Z) (y : Q) :
  ((fun year =>
      ((Graph.left self
        + ((year - first) * Graph.width self) `div` (last - first))%Z,
       inject_Z (Graph.bottom self)
       - mean year / 150 * inject_Z (Graph.height self)))
   <$> py_range first (last + 1)) !! i = Some (x, y) ->
  (Z.of_nat i <= last - first)%Z /\
  x = (Graph.left self
       + (Z.of_nat i * Graph.width self) `div` (last - first))%Z /\
  y = inject_Z (Graph.bottom self)
      - mean (first + Z.of_nat i)%Z / 150 * inject_Z (Graph.height self).
Proof.
  rewrite list_lookup_fmap. unfold py_range.
  destruct (seqZ first (last + 1 - first) !! i) as [yr|] eqn:E; [|discriminate].
  apply lookup_seqZ in E as [-> Hi]. cbn. intros [= <- <-].
  split; [lia|]. split; [|reflexivity].
  do 2 f_equal. f_equal. lia.
Qed.

(** X14.  For [first < last], a rectangle that fits the C [int]s of
    [pygame.Rect] and has a non-negative extent, and data holding twelve
    values in [0, 150] for every year of the range, [Graph.draw] returns
    and draws a line through one point per year: the point of year
    [first + i] has [x = left + (i * width) // (last - first)], a C [int]
    again, and [y = bottom - mean / 150 * height], both inside the
    rectangle; [x] never decreases along the line, which starts at the
    left edge and ends at the right edge. *)
Theorem timeline_points_cover_the_plot (self : Graph.t)
    (data : gmap Z (list Q)) (first last : Z) :
  rect_fits self ->
  (first < last)%Z -> (0 <= Graph.width self)%Z -> (0 <= Graph.height self)%Z ->
  (forall y, (first <= y <= last)%Z ->
     exists s, data !! y = Some s /\ good_sample s) ->
  exists d,
    Graph.draw self data (first, last) = Some d /\
    length (Graph.points d) = Z.to_nat (last - first + 1) /\
    Graph.polyline d = true /\
    (forall i x y, Graph.points d !! i = Some (x, y) ->
       exists s, data !! (first + Z.of_nat i)%Z = Some s /\
         x = (Graph.left self
              + (Z.of_nat i * Graph.width self) `div` (last - first))%Z /\
         y = inject_Z (Graph.bottom self)
             - np_mean s / 150 * inject_Z (Graph.height self) /\
         (Graph.left self <= x <= Graph.right self)%Z /\
         c_int x /\
         inject_Z (Graph.top self) <= y <= inject_Z (Graph.bottom self)) /\
    (forall i j pi pj, (i <= j)%nat ->
       Graph.points d !! i = Some pi -> Graph.points d !! j = Some pj ->
       (pi.1 <= pj.1)%Z) /\
    fst <$> head (Graph.points d) = Some (Graph.left self) /\
    fst <$> list.last (Graph.points d) = Some (Graph.right self).
Proof.
  intros Hfits Hlt Hw Hh Hdata.
  set (mean := fun y : Z => np_mean (default [] (data !! y))).
  assert (Hmean : forall y, (first <= y <= last)%Z ->
            exists s, data !! y = Some s /\ mean y = np_mean s).
  { intros y Hy. destruct (Hdata y Hy) as (s & Hs & _).
    exists s. split; [exact Hs|]. subst mean. cbn beta. rewrite Hs. reflexivity. }
  eexists. split; [apply (graph_draw_eq self data first last mean Hlt Hmean)|].
  cbn [Graph.points Graph.polyline].
  set (pts := _ <$> py_range first (last + 1)).
  assert (Hlen : length pts = Z.to_nat (last - first + 1)).
  { subst pts. rewrite length_fmap. unfold py_range. rewrite length_seqZ.
    f_equal. lia. }
  split; [exact Hlen|]. split; [reflexivity|]. split_and!.
  - intros i x y Hi.
    apply graph_point_lookup in Hi as (Hi & -> & ->).
    destruct (Hdata (first + Z.of_nat i)%Z) as (s & Hs & Hgood); [lia|].
    exists s. split; [exact Hs|]. split; [reflexivity|].
    split; [subst mean; cbn beta; rewrite Hs; reflexivity|].
    assert (Hin : (Graph.left self
                   <= Graph.left self
                      + (Z.of_nat i * Graph.width self) `div` (last - first)
                   <= Graph.right self)%Z).
    { unfold Graph.right. split.
      - assert (0 <= (Z.of_nat i * Graph.width self) `div` (last - first))%Z
          by (apply Z.div_pos; nia).
        lia.
      - assert ((Z.of_nat i * Graph.width self) `div` (last - first)
                <= Graph.width self)%Z
          by (apply Z.div_le_upper_bound; nia).
        lia. }
    split; [exact Hin|]. split.
    + destruct Hfits as (Hl & _ & _ & _ & Hr & _).
      unfold c_int in *. lia.
    + subst mean. cbn beta. rewrite Hs. cbn [default]. unfold id.
      pose proof (np_mean_in_range s Hgood) as [Hm0 Hm1].
      unfold Graph.bottom. rewrite inject_Z_plus.
      assert (Hq : 0 <= inject_Z (Graph.height self))
        by (change 0 with (inject_Z 0); rewrite <- Zle_Qle; exact Hh).
      assert (Hr : 0 <= np_mean s / 150 <= 1).
      { split; [apply Qle_shift_div_l | apply Qle_shift_div_r]; lra. }
      assert (H1 : 0 <= np_mean s / 150 * inject_Z (Graph.height self))
        by (apply Qmult_le_0_compat; lra).
      assert (H2 : 0 <= (1 - np_mean s / 150) * inject_Z (Graph.height self))
        by (apply Qmult_le_0_compat; lra).
      lra.
  - intros i j [xi yi] [xj yj] Hij Hi Hj.
    apply graph_point_lookup in Hi as (_ & -> & _).
    apply graph_point_lookup in Hj as (_ & -> & _).
    cbn [fst]. apply Z.add_le_mono_l. apply Z.div_le_mono; nia.
  - rewrite head_lookup.
    destruct (pts !! 0%nat) as [[x y]|] eqn:E.
    + apply graph_point_lookup in E as (_ & -> & _). cbn.
      rewrite Z.mul_0_l, Z.div_0_l by lia. f_equal. lia.
    + apply lookup_ge_None_1 in E. lia.
  - rewrite last_lookup.
    destruct (pts !! pred (length pts)) as [[x y]|] eqn:E.
    + apply graph_point_lookup in E as (_ & -> & _). cbn.
      rewrite Hlen. unfold Graph.right. do 2 f_equal.
      replace (Z.of_nat (Init.Nat.pred (Z.to_nat (last - first + 1))))
        with (last - first)%Z by lia.
      rewrite Z.mul_comm. apply Z.div_mul. lia.
    + apply lookup_ge_None_1 in E. lia.
Qed.

Lemma sample_start_data : good_data (viz sample_start).
Proof.
  destruct (main_start_full_spec zero_rng sample_seeds)
    as (st & s93 & E & _ & Hd & _).
  unfold sample_start. rewrite E. exact Hd.
Qed.

Lemma timeline_points_cover_the_plot_witness :
  exists d,
    Graph.draw timeline_graph (aqi_data (viz sample_start)) (1993, 2023)%Z
    = Some d /\
    length (Graph.points d) = 31%nat /\
    Graph.polyline d = true.
Proof.
  destruct sample_start_good as (_ & Hg & _).
  destruct (timeline_points_cover_the_plot timeline_graph
              (aqi_data (viz sample_start)) 1993 2023)
    as (d & E & Hl & Hp & _).
  - unfold rect_fits, c_int. vm_compute. intuition discriminate.
  - lia.
  - unfold timeline_graph, Graph.init, WIDTH. cbn [Graph.width]. lia.
  - unfold timeline_graph, Graph.init. cbn [Graph.height]. lia.
  - intros y Hy. destruct Hg as (_ & _ & _ & Hk & _).
    destruct (Hk y Hy) as [s Hs]. exists s. split; [exact Hs|].
    destruct sample_start_data as [Hd _]. apply (Hd y s Hs).
  - exists d. split; [exact E|]. split; [exact Hl | exact Hp].
Defined.

Lemma mapM_None_elem {A B : Type} (f : A -> option B) (l : list A) (x : A) :
  x ∈ l -> f x = None -> mapM f l = None.
Proof.
  intros Hx Hf. destruct (mapM f l) as [k|] eqn:E; [|reflexivity].
  assert (Hs : is_Some (mapM f l)) by (eexists; exact E).
  apply mapM_is_Some_1 in Hs.
  pose proof (proj1 (Forall_forall _ _) Hs x Hx) as [y Hy].
  unfold compose in Hy. congruence.
Qed.

(** X15.  When [Graph.draw] returns for [first < last], it has drawn six
    horizontal grid lines, line [i] labelled [150 - 30 * i] at
    [top + (height * i) // 5], which is the ordinate a data point of that
    value gets when 5 divides the height; and one vertical line every
    five years from [first], each at the abscissa of the data point of its
    year. *)
Theorem timeline_grid_matches_the_scale (self : Graph.t)
    (data : gmap Z (list Q)) (first last : Z) (d : Graph.Drawn) :
  Graph.draw self data (first, last) = Some d ->
  (first < last)%Z ->
  length (Graph.hlines d) = 6%nat /\
  (forall i y label, Graph.hlines d !! i = Some (y, label) ->
     label = (150 - 30 * Z.of_nat i)%Z /\
     y = (Graph.top self + (Graph.height self * Z.of_nat i) `div` 5)%Z /\
     ((5 | Graph.height self)%Z ->
      inject_Z y == inject_Z (Graph.bottom self)
                    - inject_Z label / 150 * inject_Z (Graph.height self))) /\
  (forall k x year, Graph.vlines d !! k = Some (x, year) ->
     year = (first + 5 * Z.of_nat k)%Z /\ (first <= year <= last)%Z /\
     exists y, Graph.points d !! Z.to_nat (year - first) = Some (x, y)) /\
  length (Graph.vlines d) = Z.to_nat ((last - first) `div` 5 + 1).
Proof.
  intros E Hlt. unfold Graph.draw in E.
  destruct (mapM _ (py_range_step _ _ _)) as [vl|] eqn:Ev; [|discriminate].
  destruct (mapM _ (py_range _ _)) as [pts|] eqn:Ep; [|discriminate].
  change (Some {| Graph.hlines :=
                    (fun i => (Graph.top self
                               + (Graph.height self * i) `div` 5,
                               150 - i * 30)%Z) <$> py_range 0 6;
                  Graph.vlines := vl; Graph.points := pts;
                  Graph.polyline := (1 <? length pts)%nat |} = Some d) in E.
  remember ((fun i => (Graph.top self + (Graph.height self * i) `div` 5,
                       150 - i * 30)%Z) <$> py_range 0 6) as hl eqn:Hhl.
  injection E as <-.
  cbn [Graph.hlines Graph.vlines Graph.points].
  apply mapM_Some_1 in Ev, Ep.
  assert (Hn : ((last + 1 - first + 5 - 1) `div` 5
                = (last - first) `div` 5 + 1)%Z)
    by (Z.div_mod_to_equations; lia).
  split_and!.
  - subst hl. reflexivity.
  - intros i y label Hi. subst hl. rewrite list_lookup_fmap in Hi.
    unfold py_range in Hi.
    destruct (seqZ 0 (6 - 0) !! i) as [z|] eqn:Ez; [|discriminate].
    apply lookup_seqZ in Ez as [-> _]. cbn in Hi. injection Hi as <- <-.
    split; [lia|]. split; [reflexivity|].
    intros [q Hq]. unfold Graph.bottom.
    match goal with
    | |- context [(?a `div` 5)%Z] =>
        replace (a `div` 5)%Z with (q * Z.of_nat i)%Z
          by (apply Z.div_unique_exact; lia)
    end.
    rewrite Hq. unfold Z.sub.
    rewrite !inject_Z_plus, ?inject_Z_opp, !inject_Z_mult, ?inject_Z_plus.
    change (inject_Z 5) with 5. change (inject_Z 150) with 150.
    change (inject_Z 0) with 0. change (inject_Z 30) with 30. field.
  - intros k x year Hk.
    destruct (Forall2_lookup_r _ _ _ _ _ Ev Hk) as (yr & Hyr & Hf).
    unfold py_range_step in Hyr. rewrite list_lookup_fmap in Hyr.
    destruct (seqZ 0 _ !! k) as [z|] eqn:Ez; [|discriminate].
    apply lookup_seqZ in Ez as [-> Hz]. cbn in Hyr. injection Hyr as <-.
    rewrite py_floordiv_Some in Hf by lia. cbn in Hf. injection Hf as <- <-.
    rewrite Hn in Hz.
    assert (Hle : (first + 5 * Z.of_nat k <= last)%Z)
      by (Z.div_mod_to_equations; lia).
    split; [lia|]. split; [lia|].
    destruct (Forall2_lookup_l _ _ _
                (Z.to_nat (first + 5 * (0 + Z.of_nat k) - first))
                (first + 5 * (0 + Z.of_nat k))%Z Ep)
      as ([x' y'] & Hp & Hfp).
    { unfold py_range. apply lookup_seqZ. lia. }
    rewrite py_floordiv_Some in Hfp by lia. cbn [mbind option_bind] in Hfp.
    destruct (data !! _) as [s|]; [|discriminate].
    cbn [mbind option_bind] in Hfp. injection Hfp as <- <-.
    eexists. exact Hp.
  - rewrite <- (Forall2_length _ _ _ Ev). unfold py_range_step.
    rewrite length_fmap, length_seqZ, Hn. reflexivity.
Qed.

Lemma timeline_grid_matches_the_scale_witness :
  exists d,
    Graph.draw timeline_graph two_year_data (2000, 2001)%Z = Some d /\
    length (Graph.hlines d) = 6%nat /\
    length (Graph.vlines d) = 1%nat.
Proof.
  destruct (Graph.draw timeline_graph two_year_data (2000, 2001)%Z)
    as [d|] eqn:E; [|vm_compute in E; discriminate E].
  destruct (timeline_grid_matches_the_scale timeline_graph two_year_data
              2000 2001 d E) as (Hh & _ & _ & Hv); [lia|].
  exists d. split; [reflexivity|]. split; [exact Hh | exact Hv].
Defined.

(** X16.  [Graph.draw] raises when a year of a range with [first < last] is
    missing from the data, and for every range of a single year (a
    division by zero); for an empty range ([last < first]) it returns,
    having drawn the six horizontal lines and neither a vertical line nor
    a data line. *)
Theorem timeline_graph_errors (self : Graph.t) (data : gmap Z (list Q))
    (first last year : Z) :
  ((first < last)%Z -> (first <= year <= last)%Z -> data !! year = None ->
   Graph.draw self data (first, last) = None) /\
  Graph.draw self data (first, first) = None /\
  ((last < first)%Z ->
   exists d, Graph.draw self data (first, last) = Some d /\
     Graph.vlines d = [] /\ Graph.points d = [] /\
     Graph.polyline d = false /\ length (Graph.hlines d) = 6%nat).
Proof.
  split_and!.
  - intros Hlt Hy Hnone. unfold Graph.draw.
    destruct (mapM _ (py_range_step _ _ _)) as [vl|]; [|reflexivity].
    cbn [mbind option_bind].
    rewrite (mapM_None_elem _ _ year); [reflexivity | |].
    + apply elem_of_py_range. lia.
    + rewrite py_floordiv_Some by lia. cbn [mbind option_bind].
      rewrite Hnone. reflexivity.
  - unfold Graph.draw.
    destruct (mapM _ (py_range_step _ _ _)) as [vl|] eqn:Ev; [|reflexivity].
    exfalso. rewrite (mapM_None_elem _ _ first) in Ev; [discriminate | |].
    + unfold py_range_step. apply list_elem_of_fmap. exists 0%Z.
      split; [lia|]. apply elem_of_seqZ. Z.div_mod_to_equations. lia.
    + unfold py_floordiv. rewrite Z.sub_diag. reflexivity.
  - intros Hlt. unfold Graph.draw, py_range_step, py_range.
    rewrite (seqZ_nil 0 ((last + 1 - first + 5 - 1) `div` 5))
      by (Z.div_mod_to_equations; lia).
    rewrite (seqZ_nil first) by lia.
    eexists. split; [reflexivity|]. repeat split.
Qed.

Lemma timeline_graph_errors_witness :
  Graph.draw timeline_graph ∅ (1993, 2023)%Z = None /\
  Graph.draw timeline_graph two_year_data (2000, 2000)%Z = None /\
  exists d, Graph.draw timeline_graph ∅ (2023, 1993)%Z = Some d /\
            Graph.points d = [].
Proof.
  destruct (timeline_graph_errors timeline_graph ∅ 1993 2023 2000)
    as (H1 & _ & _).
  destruct (timeline_graph_errors timeline_graph two_year_data 2000 2000 2000)
    as (_ & H2 & _).
  destruct (timeline_graph_errors timeline_graph ∅ 2023 1993 2000)
    as (_ & _ & H3).
  split; [apply H1; [lia | lia | apply lookup_empty]|].
  split; [exact H2|].
  destruct H3 as (d & E & _ & Hp & _); [lia|].
  exists d. split; [exact E | exact Hp].
Defined.


(** ** Depth order of the particles *)

Lemma insert_by_z_perm (p : Particle.t) (l : list Particle.t) :
  insert_by_z p l ≡ₚ p :: l.
Proof.
  induction l as [|q l IH]; [reflexivity|].
  cbn [insert_by_z]. destruct (Qle_bool _ _); [reflexivity|].
  rewrite IH. apply Permutation_swap.
Qed.

Lemma insert_by_z_Forall (P : Particle.t -> Prop) (p : Particle.t)
    (l : list Particle.t) :
  P p -> Forall P l -> Forall P (insert_by_z p l).
Proof.
  intros Hp Hl. rewrite insert_by_z_perm. constructor; assumption.
Qed.

Lemma insert_by_z_sorted (p : Particle.t) (l : list Particle.t) :
  StronglySorted z_le l -> StronglySorted z_le (insert_by_z p l).
Proof.
  induction 1 as [|q l Hs IH Hq]; cbn [insert_by_z].
  - repeat constructor.
  - destruct (Qle_bool (Particle.z p) (Particle.z q)) eqn:E.
    + apply Qle_bool_iff in E. constructor.
      * constructor; assumption.
      * constructor; [exact E|].
        eapply Forall_impl; [exact Hq|].
        intros r Hr. unfold z_le in *. lra.
    + apply Qle_bool_false in E. constructor; [exact IH|].
      apply insert_by_z_Forall; [unfold z_le; lra | exact Hq].
Qed.

Lemma insert_by_z_head (p : Particle.t) (l : list Particle.t) :
  Forall (z_le p) l -> insert_by_z p l = p :: l.
Proof.
  intros H. destruct H as [|q l Hq _]; [reflexivity|].
  cbn [insert_by_z]. apply Qle_bool_iff in Hq. rewrite Hq. reflexivity.
Qed.

(** X17.  The order [draw] renders the particles in is a permutation of
    [self.particles] of the same length, sorted by non-decreasing [z]
    (back to front); particles already in that order keep it. *)
Theorem depth_sort_orders_the_particles (l : list Particle.t) :
  sorted_by_z l ≡ₚ l /\
  StronglySorted z_le (sorted_by_z l) /\
  length (sorted_by_z l) = length l /\
  (StronglySorted z_le l -> sorted_by_z l = l).
Proof.
  assert (Hperm : sorted_by_z l ≡ₚ l).
  { induction l as [|p l IH]; [reflexivity|].
    cbn [sorted_by_z foldr]. fold (sorted_by_z l).
    rewrite insert_by_z_perm, IH. reflexivity. }
  split_and!.
  - exact Hperm.
  - clear Hperm. induction l as [|p l IH]; [constructor|].
    cbn [sorted_by_z foldr]. fold (sorted_by_z l).
    apply insert_by_z_sorted, IH.
  - apply Permutation_length, Hperm.
  - clear Hperm. induction 1 as [|p l Hs IH Hp]; [reflexivity|].
    cbn [sorted_by_z foldr]. fold (sorted_by_z l).
    rewrite IH. apply insert_by_z_head, Hp.
Qed.

Lemma depth_sort_orders_the_particles_witness :
  sorted_by_z [edge_particle 0; edge_particle 1200]
  = [edge_particle 0; edge_particle 1200].
Proof.
  destruct (depth_sort_orders_the_particles
              [edge_particle 0; edge_particle 1200]) as (_ & _ & _ & H).
  apply H. apply SSorted_cons.
  - apply SSorted_cons; [apply SSorted_nil | constructor].
  - constructor; [|constructor]. unfold z_le. cbn. lra.
Defined.

(** ** What a pass of the loop draws *)

Lemma frame_shown (np_cos np_sin : Q -> Q) (st st' : Loop) (inp : FrameInput)
    (shown : Frame) :
  frame np_cos np_sin st inp = Some (st', shown) ->
  exists v, draw v = Some shown /\
    year v = year (viz st') /\ particles v = particles (viz st') /\
    fixed_parts v = fixed_parts (viz st').
Proof.
  unfold frame.
  destruct (for_each _ _ _) as [st1|]; [|discriminate].
  cbn [mbind option_bind].
  destruct (update_particles _ _ _ _) as [v|]; [|discriminate].
  cbn [mbind option_bind].
  destruct (draw v) as [sh|] eqn:Ed; [|discriminate].
  cbn [mbind option_bind].
  destruct (_ <=? _)%Z; intros [= <- <-]; exists v; cbn [viz];
    repeat split; exact Ed.
Qed.

(** X18.  A pass of the loop from a state with years in range and clipped
    data draws the nine district cells in the order of [DISTRICTS], every
    particle of the new state exactly once in non-decreasing [z], the year as
    the integer part of [year], between 1993 and 2023, and an overall AQI
    text between 0 and 150. *)
Theorem drawn_frame_shape (np_cos np_sin : Q -> Q) (st st' : Loop)
    (inp : FrameInput) (shown : Frame) :
  good_state (viz st) -> good_data (viz st) ->
  frame np_cos np_sin st inp = Some (st', shown) ->
  length (frame_cells shown) = 9%nat /\
  map cell_name (frame_cells shown) = DISTRICTS /\
  length (frame_particles shown) = length (particles (viz st)) /\
  (exists ps, ps ≡ₚ particles (viz st') /\ StronglySorted z_le ps /\
              frame_particles shown = map Particle.draw ps) /\
  frame_year_text shown = Qfloor (year (viz st')) /\
  (1993 <= frame_year_text shown <= 2023)%Z /\
  (0 <= frame_aqi_text shown <= 150)%Z.
Proof.
  intros Hgood Hdata E.
  destruct (frame_spec np_cos np_sin st inp Hgood)
    as (st1 & st2 & shown2 & _ & E2 & Hg' & _).
  rewrite E in E2. injection E2 as <- <-.
  pose proof (frame_fixed _ _ _ _ _ _ E) as Hfix.
  destruct (frame_shown _ _ _ _ _ _ E) as (v & Ed & Hy & Hp & Hfv).
  unfold draw in Ed.
  destruct (draw_district_visualization v) as [cells|] eqn:Ec; [|discriminate].
  cbn [mbind option_bind] in Ed.
  destruct (Graph.draw timeline_graph (aqi_data v) (1993, 2023)%Z)
    as [timeline|]; [|discriminate].
  cbn [mbind option_bind] in Ed.
  destruct (overall_aqi v) as [aqi|] eqn:Ea; [|discriminate].
  cbn [mbind option_bind] in Ed. injection Ed as <-.
  cbn [frame_cells frame_particles frame_year_text frame_aqi_text].
  destruct (draw_cells_spec v cells Ec) as [Hlen Hcell].
  assert (Hy0 : 0 <= year v) by (rewrite Hy; destruct Hg' as (_ & H & _); lra).
  assert (Hperm : sorted_by_z (particles v) ≡ₚ particles v).
  { clear. induction (particles v) as [|p l IH]; [reflexivity|].
    cbn [sorted_by_z foldr]. fold (sorted_by_z l).
    rewrite insert_by_z_perm, IH. reflexivity. }
  split; [|split; [|split; [|split; [|split; [|split]]]]].
  - exact Hlen.
  - apply list_eq. intros i. rewrite list_lookup_fmap.
    destruct (cells !! i) as [c|] eqn:Eci.
    + destruct (Hcell i c Eci) as (d & a & col & Hd & _ & _ & ->).
      cbn. symmetry. exact Hd.
    + cbn. symmetry. apply lookup_ge_None_2.
      apply lookup_ge_None_1 in Eci. rewrite Hlen in Eci. exact Eci.
  - rewrite length_map, (Permutation_length Hperm), Hp.
    apply (f_equal (fun x => length x.1.2)) in Hfix.
    cbn [fixed_parts fst snd] in Hfix. rewrite !length_map in Hfix.
    exact Hfix.
  - exists (sorted_by_z (particles v)). split; [rewrite <- Hp; exact Hperm|].
    split; [|reflexivity].
    clear. induction (particles v) as [|p l IH]; [constructor|].
    cbn [sorted_by_z foldr]. fold (sorted_by_z l).
    apply insert_by_z_sorted, IH.
  - rewrite <- Hy. apply py_int_floor, Hy0.
  - rewrite Hy. apply year_floor_in_range, Hg'.
  - assert (Hin : in_range aqi).
    { destruct (call_sites_agree v "Eastern" Hy0) as (_ & Ho & _).
      apply (interpolated_value_in_range (aqi_data v) (year v)); [|congruence].
      apply (f_equal (fun x => x.1.1.1)) in Hfix, Hfv.
      cbn [fixed_parts fst snd] in Hfix, Hfv. rewrite Hfv, Hfix.
      apply Hdata. }
    unfold in_range in Hin. split.
    + apply py_int_ge; [change (inject_Z 0) with 0|]; lra.
    + apply py_int_le; [|change (inject_Z 150) with 150]; lra.
Qed.

Lemma drawn_frame_shape_witness :
  exists st' shown,
    frame (fun _ => 0) (fun _ => 0) sample_start idle_input
    = Some (st', shown) /\
    length (frame_cells shown) = 9%nat /\
    (1993 <= frame_year_text shown <= 2023)%Z /\
    (0 <= frame_aqi_text shown <= 150)%Z.
Proof.
  destruct sample_start_good as (_ & Hg & _).
  destruct (frame_spec (fun _ => 0) (fun _ => 0) sample_start idle_input Hg)
    as (s1 & st' & shown & _ & E & _).
  destruct (drawn_frame_shape (fun _ => 0) (fun _ => 0) sample_start st'
              idle_input shown Hg sample_start_data E)
    as (Hl & _ & _ & _ & _ & Hy & Ha).
  exists st', shown. split; [exact E|]. split; [exact Hl|].
  split; [exact Hy | exact Ha].
Defined.

(** X19.  In every state [main] reaches, drawing [self.timeline_graph]
    (the [Graph(150, HEIGHT - 200, WIDTH - 300, 150)] of [__init__]) over
    [self.aqi_data] with the default range 1993..2023 returns: it draws
    31 data points joined by a line and 7 vertical grid lines. *)
Theorem timeline_is_drawn_in_every_state (np_cos np_sin : Q -> Q)
    (g : NpRandom) (seeds : nat -> ParticleSeed) (inputs : list FrameInput) :
  exists st0 st d,
    main_start g seeds = Some st0 /\
    main_loop np_cos np_sin st0 inputs = Some st /\
    Graph.draw timeline_graph (aqi_data (viz st)) (1993, 2023)%Z = Some d /\
    length (Graph.points d) = 31%nat /\
    length (Graph.vlines d) = 7%nat /\
    Graph.polyline d = true.
Proof.
  destruct (main_loop_from_start np_cos np_sin g seeds inputs)
    as (st0 & st & E0 & E & Hg & _).
  exists st0, st.
  set (mean := fun y : Z => np_mean (default [] (aqi_data (viz st) !! y))).
  eexists. split; [exact E0|]. split; [exact E|]. split.
  - apply (graph_draw_eq timeline_graph (aqi_data (viz st)) 1993 2023 mean);
      [lia|].
    intros y Hy. destruct Hg as (_ & _ & _ & Hk & _).
    destruct (Hk y Hy) as [s Hs]. exists s. split; [exact Hs|].
    subst mean. cbn beta. rewrite Hs. reflexivity.
  - cbn [Graph.points Graph.vlines Graph.polyline].
    rewrite !length_fmap. split_and!; reflexivity.
Qed.


(** ** What the generators store *)

Lemma normal_n_draws (n : nat) (g : NpRandom) :
  (normal_n n g).1 = next_draws g n.
Proof.
  destruct (normal_n_spec n g) as (Hl & _ & _ & Hi).
  apply list_eq. intros i. unfold next_draws. rewrite list_lookup_fmap.
  destruct (decide (i < n)%nat) as [Hlt | Hge].
  - rewrite Hi by exact Hlt. rewrite lookup_seq_lt by exact Hlt. reflexivity.
  - rewrite lookup_ge_None_2 by lia. rewrite lookup_seq_ge by lia. reflexivity.
Qed.

Lemma advance_0 (g : NpRandom) : advance g 0 = g.
Proof. destruct g. unfold advance. cbn. rewrite Nat.add_0_r. reflexivity. Qed.

Lemma advance_advance (g : NpRandom) (n m : nat) :
  advance (advance g n) m = advance g (n + m).
Proof. unfold advance. cbn. f_equal. lia. Qed.

Lemma historical_fold_shape (n : nat) (data : gmap Z (list Q)) (g : NpRandom)
    (a : Z) :
  let r := foldl historical_year (data, g) (seqZ a (Z.of_nat n)) in
  r.2 = advance g (12 * n) /\
  (forall y, ~ (a <= y < a + Z.of_nat n)%Z -> r.1 !! y = data !! y) /\
  (forall i, (i < n)%nat ->
     r.1 !! (a + Z.of_nat i)%Z
     = Some (np_clip (zip_with Qplus (base_pattern (a + Z.of_nat i))
                        (next_draws (advance g (12 * i)) 12)) 0 150)).
Proof.
  induction n as [|n IH]; cbn zeta.
  - cbn [seqZ Z.of_nat Z.to_nat seq fmap list_fmap foldl fst snd].
    split_and!.
    + rewrite Nat.mul_0_r. symmetry. apply advance_0.
    + reflexivity.
    + intros i Hi. lia.
  - rewrite seqZ_S, foldl_app. cbn [foldl]. cbn zeta in IH.
    destruct (foldl historical_year (data, g) (seqZ a (Z.of_nat n)))
      as [d1 g1]. cbn [fst snd] in IH. destruct IH as (-> & Hout & Hin).
    rewrite historical_year_eq. cbn [fst snd]. split_and!.
    + unfold advance. cbn [draws pos]. f_equal. lia.
    + intros y Hy. rewrite lookup_insert_ne by lia. apply Hout. lia.
    + intros i Hi. destruct (decide (i = n)) as [-> | Hne].
      * rewrite lookup_insert_eq, normal_n_draws. reflexivity.
      * rewrite lookup_insert_ne by lia. apply Hin. lia.
Qed.

Lemma generate_historical_data_keys (self : t) (g : NpRandom) (y : Z) :
  is_Some ((generate_historical_data self g).1.1 !! y)
  -> (1993 <= y <= 2023)%Z.
Proof.
  unfold generate_historical_data, py_range.
  destruct (historical_fold_shape 31 ∅ g 1993) as (_ & Hout & _).
  cbn zeta in Hout. change (Z.of_nat 31) with (2024 - 1993)%Z in Hout.
  destruct (foldl historical_year (∅, g) (seqZ 1993 (2024 - 1993)))
    as [data g1]. cbn [fst snd] in *.
  intros Hs. destruct (decide (1993 <= y <= 2023)%Z) as [H | H]; [exact H|].
  rewrite Hout, lookup_empty in Hs by lia. destruct Hs as [? Hs]. discriminate.
Qed.

Lemma generate_historical_data_lookup (self : t) (g : NpRandom) (y : Z) :
  (1993 <= y <= 2023)%Z ->
  (generate_historical_data self g).1.1 !! y
  = Some (np_clip (zip_with Qplus (base_pattern y)
                     (next_draws (advance g (12 * Z.to_nat (y - 1993))) 12))
            0 150).
Proof.
  unfold generate_historical_data, py_range.
  destruct (historical_fold_shape 31 ∅ g 1993) as (_ & _ & Hin).
  cbn zeta in Hin. change (Z.of_nat 31) with (2024 - 1993)%Z in Hin.
  destruct (foldl historical_year (∅, g) (seqZ 1993 (2024 - 1993)))
    as [data g1]. cbn [fst snd] in *.
  intros Hy. specialize (Hin (Z.to_nat (y - 1993))).
  replace (1993 + Z.of_nat (Z.to_nat (y - 1993)))%Z with y in Hin by lia.
  apply Hin. lia.
Qed.

(** X20.  The mapping [generate_historical_data] returns has exactly the
    years 1993..2023 as keys, and the sample of year [y] is the base
    pattern of [y] plus the twelve draws numbered [12 * (y - 1993)]
    onward, clipped to [0, 150]. *)
Theorem historical_data_shape (self : t) (g : NpRandom) (y : Z) :
  let data := (generate_historical_data self g).1.1 in
  (is_Some (data !! y) <-> (1993 <= y <= 2023)%Z) /\
  ((1993 <= y <= 2023)%Z ->
   data !! y
   = Some (np_clip (zip_with Qplus (base_pattern y)
                      (next_draws (advance g (12 * Z.to_nat (y - 1993))) 12))
             0 150)).
Proof.
  cbn zeta. split; [|apply generate_historical_data_lookup]. split.
  - apply generate_historical_data_keys.
  - intros Hy. rewrite (generate_historical_data_lookup self g y Hy).
    eexists. reflexivity.
Qed.

Lemma historical_data_shape_witness :
  (generate_historical_data blank_viz counting_rng).1.1 !! 2000%Z
  = Some (np_clip (zip_with Qplus (base_pattern 2000)
                     (next_draws (advance counting_rng 84) 12)) 0 150).
Proof.
  destruct (historical_data_shape blank_viz counting_rng 2000) as [_ H].
  apply H. lia.
Defined.

Lemma district_year_eq (base : gmap Z (list Q)) (d : string)
    (dd : gmap string (gmap Z (list Q))) (g : NpRandom) (y : Z)
    (b : list Q) (inner : gmap Z (list Q)) :
  base !! y = Some b -> dd !! d = Some inner ->
  district_year base d (dd, g) y
  = Some (<[d := <[y := shifted_sample b (draws g (pos g))]> inner]> dd,
          advance g 1).
Proof.
  intros Hb Hd. unfold district_year. cbn [normal].
  rewrite Hb. cbn [mbind option_bind]. rewrite Hd. cbn [mbind option_bind].
  unfold advance, shifted_sample. do 3 f_equal. lia.
Qed.

Lemma district_years_shape (base : gmap Z (list Q)) (d : string)
    (years : list Z) (dd : gmap string (gmap Z (list Q))) (g : NpRandom)
    (inner0 : gmap Z (list Q)) :
  (forall y, y ∈ years -> is_Some (base !! y)) ->
  dd !! d = Some inner0 ->
  exists m,
    for_each years (district_year base d) (dd, g)
    = Some (<[d := m]> dd, advance g (length years)) /\
    (forall y, y ∉ years -> m !! y = inner0 !! y) /\
    (forall y, y ∈ years ->
       exists b v, base !! y = Some b /\ m !! y = Some (shifted_sample b v)).
Proof.
  revert dd g inner0. induction years as [|y ys IH]; intros dd g inner0 Hb Hd.
  - exists inner0. cbn [for_each length]. rewrite advance_0, insert_id by exact Hd.
    split; [reflexivity|]. split; [reflexivity|].
    intros y Hy. inversion Hy.
  - destruct (Hb y) as [b Eb]; [left|].
    cbn [for_each]. rewrite (district_year_eq base d dd g y b inner0 Eb Hd).
    cbn [mbind option_bind].
    set (s := shifted_sample b (draws g (pos g))).
    destruct (IH (<[d := <[y := s]> inner0]> dd) (advance g 1)
                (<[y := s]> inner0)) as (m & E & Hout & Hin).
    { intros y' Hy'. apply Hb. right. exact Hy'. }
    { apply lookup_insert_eq. }
    exists m. rewrite E, insert_insert_eq, advance_advance. cbn [length].
    split; [reflexivity|]. split.
    + intros y' Hy'. rewrite Hout by (intros H; apply Hy'; right; exact H).
      apply lookup_insert_ne. intros ->. apply Hy'. left.
    + intros y' Hy'. destruct (decide (y' ∈ ys)) as [H | H]; [apply Hin, H|].
      apply elem_of_cons in Hy' as [-> | Hy']; [|contradiction].
      exists b, (draws g (pos g)). split; [exact Eb|].
      rewrite (Hout y H). apply lookup_insert_eq.
Qed.

Lemma districts_shape (base : gmap Z (list Q)) (years : list Z)
    (ds : list string) (dd : gmap string (gmap Z (list Q))) (g : NpRandom) :
  (forall y, y ∈ years -> is_Some (base !! y)) ->
  (forall d, d ∈ ds -> is_Some (dd !! d)) ->
  exists dd',
    for_each ds
      (fun acc district => for_each years (district_year base district) acc)
      (dd, g)
    = Some (dd', advance g (length years * length ds)) /\
    (forall d, d ∉ ds -> dd' !! d = dd !! d) /\
    (forall d, d ∈ ds ->
       exists m0 m, dd !! d = Some m0 /\ dd' !! d = Some m /\
         (forall y, y ∉ years -> m !! y = m0 !! y) /\
         (forall y, y ∈ years ->
            exists b v, base !! y = Some b /\
                        m !! y = Some (shifted_sample b v))).
Proof.
  intros Hb. revert dd g. induction ds as [|d ds IH]; intros dd g Hk.
  - exists dd. cbn [for_each length]. rewrite Nat.mul_0_r, advance_0.
    split; [reflexivity|]. split; [reflexivity|].
    intros d Hd. inversion Hd.
  - destruct (Hk d) as [inner0 Ed]; [left|].
    destruct (district_years_shape base d years dd g inner0 Hb Ed)
      as (m & E & Hout & Hin).
    cbn [for_each]. rewrite E. cbn [mbind option_bind].
    destruct (IH (<[d := m]> dd) (advance g (length years)))
      as (dd' & E' & Hout' & Hin').
    { intros d' Hd'. destruct (decide (d = d')) as [-> | Hne].
      - rewrite lookup_insert_eq. eexists. reflexivity.
      - rewrite lookup_insert_ne by exact Hne. apply Hk. right. exact Hd'. }
    exists dd'. rewrite E', advance_advance. cbn [length].
    split; [do 3 f_equal; lia|]. split.
    + intros d' Hd'. rewrite Hout' by (intros H; apply Hd'; right; exact H).
      apply lookup_insert_ne. intros ->. apply Hd'. left.
    + intros d' Hd'. destruct (decide (d' ∈ ds)) as [H | H].
      * destruct (Hin' d' H) as (m0' & m' & E0 & E1 & Hout1 & Hin1).
        destruct (decide (d = d')) as [<- | Hne].
        -- rewrite lookup_insert_eq in E0. injection E0 as <-.
           exists inner0, m'. split; [exact Ed|]. split; [exact E1|].
           split; [|exact Hin1].
           intros y Hy. rewrite (Hout1 y Hy). apply Hout, Hy.
        -- rewrite lookup_insert_ne in E0 by exact Hne.
           exists m0', m'. auto.
      * apply elem_of_cons in Hd' as [-> | Hd']; [|contradiction].
        exists inner0, m. split; [exact Ed|].
        rewrite (Hout' d H), lookup_insert_eq. auto.
Qed.

Lemma initial_districts_keys :
  ((fun district : string => (district, (∅ : gmap Z (list Q)))) <$> DISTRICTS).*1
  = DISTRICTS.
Proof. reflexivity. Qed.

Lemma initial_districts_lookup (d : string) :
  (list_to_map ((fun district => (district, ∅)) <$> DISTRICTS)
     : gmap string (gmap Z (list Q))) !! d
  = if decide (d ∈ DISTRICTS) then Some ∅ else None.
Proof.
  destruct (decide (d ∈ DISTRICTS)) as [H | H].
  - apply elem_of_list_to_map_1.
    + rewrite initial_districts_keys. apply DISTRICTS_NoDup.
    + apply list_elem_of_fmap. exists d. split; [reflexivity | exact H].
  - apply not_elem_of_list_to_map_1. rewrite initial_districts_keys. exact H.
Qed.

Lemma generate_district_data_core (self self' : t) (g g' : NpRandom)
    (dd : gmap string (gmap Z (list Q))) :
  generate_district_data self g = Some (dd, self', g') ->
  g' = advance g 651 /\
  self' = set_historical_events self EVENT_MARKS /\
  (forall d, d ∈ DISTRICTS -> is_Some (dd !! d)) /\
  (forall d m, dd !! d = Some m ->
     d ∈ DISTRICTS /\
     (forall y, y ∉ py_range 1993 2024 -> m !! y = None) /\
     (forall y, y ∈ py_range 1993 2024 ->
        exists b v,
          (generate_historical_data self g).1.1 !! y = Some b /\
          m !! y = Some (shifted_sample b v))).
Proof.
  unfold generate_district_data.
  destruct (generate_historical_data_spec self g) as (_ & Hkeys & Hself & Hg).
  destruct (generate_historical_data self g) as [[base self1] g1].
  cbn [fst snd] in *. subst self1.
  assert (Hg1 : g1 = advance g 372) by (rewrite Hg; reflexivity).
  destruct (districts_shape base (py_range 1993 2024) DISTRICTS
              (list_to_map ((fun district => (district, ∅)) <$> DISTRICTS)) g1)
    as (dd' & E & Hout & Hin).
  { intros y Hy. apply Hkeys. apply elem_of_py_range in Hy. lia. }
  { intros d Hd. rewrite initial_districts_lookup.
    rewrite decide_True by exact Hd. eexists. reflexivity. }
  rewrite E. cbn [mbind option_bind]. intros [= <- <- <-].
  split; [rewrite Hg1, advance_advance; reflexivity|].
  split; [reflexivity|]. split.
  - intros d Hd. destruct (Hin d Hd) as (m0 & m & _ & E1 & _).
    eexists. exact E1.
  - intros d m Hm. destruct (decide (d ∈ DISTRICTS)) as [Hd | Hd].
    + destruct (Hin d Hd) as (m0 & m' & E0 & E1 & Ho & Hi).
      rewrite initial_districts_lookup, decide_True in E0 by exact Hd.
      injection E0 as <-. rewrite Hm in E1. injection E1 as <-.
      split; [exact Hd|]. split; [|exact Hi].
      intros y Hy. rewrite (Ho y Hy). apply lookup_empty.
    + rewrite (Hout d Hd), initial_districts_lookup, decide_False in Hm
        by exact Hd. discriminate.
Qed.

(** X21.  When [generate_district_data] returns, it has consumed 651 draws
    (372 for a base dataset, then one per district and year) and stored
    the event table in [self]; the result has exactly the nine districts
    as keys, each with exactly the years 1993..2023, and every sample is
    the base sample of its year with one offset added to all twelve
    months, clipped to [0, 150]. *)
Theorem district_data_shape (self self' : t) (g g' : NpRandom)
    (dd : gmap string (gmap Z (list Q))) :
  generate_district_data self g = Some (dd, self', g') ->
  g' = advance g 651 /\
  self' = set_historical_events self EVENT_MARKS /\
  (forall d, is_Some (dd !! d) <-> d ∈ DISTRICTS) /\
  (forall d m y, dd !! d = Some m ->
     (is_Some (m !! y) <-> (1993 <= y <= 2023)%Z)) /\
  (forall d m y s, dd !! d = Some m -> m !! y = Some s ->
     exists b v,
       (generate_historical_data self g).1.1 !! y = Some b /\
       s = shifted_sample b v).
Proof.
  intros E.
  destruct (generate_district_data_core self self' g g' dd E)
    as (Hg & Hself & Hkeys & Hshape).
  split; [exact Hg|]. split; [exact Hself|]. split_and!.
  - intros d. split.
    + intros [m Hm]. apply (Hshape d m Hm).
    + apply Hkeys.
  - intros d m y Hm. destruct (Hshape d m Hm) as (_ & Ho & Hi). split.
    + intros Hs. destruct (decide (y ∈ py_range 1993 2024)) as [H | H].
      * apply elem_of_py_range in H. lia.
      * rewrite (Ho y H) in Hs. destruct Hs as [? Hs]. discriminate.
    + intros Hy. destruct (Hi y) as (b & v & _ & ->);
        [apply elem_of_py_range; lia | eexists; reflexivity].
  - intros d m y s Hm Hs. destruct (Hshape d m Hm) as (_ & Ho & Hi).
    destruct (decide (y ∈ py_range 1993 2024)) as [H | H].
    + destruct (Hi y H) as (b & v & Eb & Es). exists b, v.
      split; [exact Eb | congruence].
    + rewrite (Ho y H) in Hs. discriminate.
Qed.

Lemma district_data_shape_witness :
  exists dd self' g',
    generate_district_data blank_viz counting_rng = Some (dd, self', g') /\
    pos g' = 651%nat /\
    (forall d, is_Some (dd !! d) <-> d ∈ DISTRICTS).
Proof.
  destruct (generate_district_data_spec blank_viz counting_rng)
    as (dd & g' & E & _).
  destruct (district_data_shape _ _ _ _ _ E) as (Hg' & _ & Hk & _).
  exists dd, (set_historical_events blank_viz EVENT_MARKS), g'.
  split; [exact E|]. split; [rewrite Hg'; reflexivity | exact Hk].
Defined.

(** X22.  [AirQualityViz()] returns for every stream of draws, having
    consumed 1023 of them.  [self.aqi_data] is built from the first 372
    draws; the district samples are offsets of a second base dataset,
    built from the next 372 draws, not of [self.aqi_data].  The constructor leaves
    the event table in [self.historical_events] and 200 particles. *)
Theorem constructor_draws_two_base_datasets (g : NpRandom)
    (seeds : nat -> ParticleSeed) :
  exists v,
    init g seeds = Some (v, advance g 1023) /\
    (forall y, (1993 <= y <= 2023)%Z ->
       aqi_data v !! y
       = Some (np_clip (zip_with Qplus (base_pattern y)
                  (next_draws (advance g (12 * Z.to_nat (y - 1993))) 12))
                 0 150)) /\
    (forall d m y s, district_data v !! d = Some m -> m !! y = Some s ->
       exists variation,
         s = shifted_sample
               (np_clip (zip_with Qplus (base_pattern y)
                  (next_draws (advance g (372 + 12 * Z.to_nat (y - 1993))) 12))
                 0 150)
               variation) /\
    historical_events v = Some EVENT_MARKS /\
    length (particles v) = 200%nat.
Proof.
  unfold init.
  set (self0 := {| particles := []; year := 1993; target_year := 1993;
                   year_transition_speed := 0.05; aqi_data := ∅;
                   district_data := ∅; selected_district := None;
                   historical_events := None |}).
  pose proof (generate_historical_data_lookup self0 g) as Hlk.
  destruct (generate_historical_data_spec self0 g) as (_ & _ & Hself & Hg).
  destruct (generate_historical_data self0 g) as [[data self1] g1].
  cbn [fst snd] in Hlk, Hself, Hg. subst self1.
  assert (Hg1 : g1 = advance g 372) by (rewrite Hg; reflexivity).
  clear Hg. subst g1.
  set (self2 := set_aqi_data _ data).
  destruct (generate_district_data_spec self2 (advance g 372))
    as (dd & g2 & Edd & _).
  rewrite Edd. cbn [mbind option_bind].
  apply generate_district_data_core in Edd as (-> & _ & _ & Hshape).
  rewrite advance_advance. change (372 + 651)%nat with 1023%nat.
  unfold initialize_particles, lookup_num.
  change (Qeq_bool _ _) with true. cbn iota.
  change (aqi_data _ !! Qfloor _) with (data !! 1993%Z).
  rewrite (Hlk 1993%Z) by lia. cbn [mbind option_bind].
  destruct (get_particle_properties _) as [[color sz] sp].
  eexists. split; [reflexivity|].
  cbn [aqi_data district_data historical_events particles
       set_selected_district set_particles set_district_data set_aqi_data
       set_historical_events self2].
  split; [exact Hlk|]. split; [|split; [reflexivity|]].
  - intros d m y s Hm Hs. destruct (Hshape d m Hm) as (_ & Ho & Hi).
    destruct (decide (y ∈ py_range 1993 2024)) as [Hy | Hy].
    + destruct (Hi y Hy) as (b & v & Hb & Es).
      apply elem_of_py_range in Hy.
      rewrite (generate_historical_data_lookup _ _ y) in Hb by lia.
      injection Hb as <-. rewrite advance_advance in Es.
      exists v. rewrite Es in Hs. injection Hs as <-. reflexivity.
    + rewrite (Ho y Hy) in Hs. discriminate.
  - rewrite length_app, length_map, length_seq. reflexivity.
Qed.

Lemma constructor_draws_two_base_datasets_witness :
  exists v,
    init counting_rng sample_seeds = Some (v, advance counting_rng 1023) /\
    aqi_data v !! 1993%Z
    = Some (np_clip (zip_with Qplus (base_pattern 1993)
                       (next_draws (advance counting_rng 0) 12)) 0 150) /\
    length (particles v) = 200%nat.
Proof.
  destruct (constructor_draws_two_base_datasets counting_rng sample_seeds)
    as (v & E & Ha & _ & _ & Hl).
  exists v. split; [exact E|]. split; [apply (Ha 1993%Z); lia | exact Hl].
Defined.


Lemma inject_Z_nonneg (n : Z) : (0 <= n)%Z -> 0 <= inject_Z n.
Proof. intros H. change 0 with (inject_Z 0). rewrite <- Zle_Qle. exact H. Qed.

Lemma interpolate_channel_between (c1 c2 : Z) (f : Q) :
  (0 <= c1)%Z -> (0 <= c2)%Z -> 0 <= f <= 1 ->
  (Z.min c1 c2 <= interpolate_channel c1 c2 f <= Z.max c1 c2)%Z.
Proof.
  intros H1 H2 Hf. unfold interpolate_channel.
  pose proof (inject_Z_nonneg c1 H1) as Q1.
  pose proof (inject_Z_nonneg c2 H2) as Q2.
  destruct (Z.le_ge_cases c1 c2) as [H | H].
  - rewrite Z.min_l, Z.max_r by lia.
    assert (Hd : 0 <= inject_Z c2 - inject_Z c1)
      by (rewrite Zle_Qle in H; lra).
    assert (Ha : 0 <= (inject_Z c2 - inject_Z c1) * f)
      by (apply Qmult_le_0_compat; lra).
    assert (Hb : 0 <= (inject_Z c2 - inject_Z c1) * (1 - f))
      by (apply Qmult_le_0_compat; lra).
    split; [apply py_int_ge | apply py_int_le]; lra.
  - rewrite Z.min_r, Z.max_l by lia.
    assert (Hd : 0 <= inject_Z c1 - inject_Z c2)
      by (rewrite Zle_Qle in H; lra).
    assert (Ha : 0 <= (inject_Z c1 - inject_Z c2) * f)
      by (apply Qmult_le_0_compat; lra).
    assert (Hb : 0 <= (inject_Z c1 - inject_Z c2) * (1 - f))
      by (apply Qmult_le_0_compat; lra).
    split; [apply py_int_ge | apply py_int_le]; lra.
Qed.


Lemma interpolate_channel_1 (c1 c2 : Z) : interpolate_channel c1 c2 1 = c2.
Proof.
  unfold interpolate_channel.
  rewrite (py_int_comp (_ + _ * 1) (inject_Z c2)) by ring.
  apply py_int_inject_Z.
Qed.

(** X23.  For two colours with channels in 0..255 and a factor in [0, 1],
    every channel of [interpolate_color] lies between the two channels it
    is computed from, so the result is a colour with channels in 0..255;
    the factor 0 gives the first colour and the factor 1 the second. *)
Theorem interpolate_color_between (color1 color2 : Color) (f : Q) :
  rgb color1 -> rgb color2 -> 0 <= f <= 1 ->
  let c := interpolate_color color1 color2 f in
  (Z.min color1.1.1 color2.1.1 <= c.1.1 <= Z.max color1.1.1 color2.1.1)%Z /\
  (Z.min color1.1.2 color2.1.2 <= c.1.2 <= Z.max color1.1.2 color2.1.2)%Z /\
  (Z.min color1.2 color2.2 <= c.2 <= Z.max color1.2 color2.2)%Z /\
  rgb c /\
  interpolate_color color1 color2 0 = color1 /\
  interpolate_color color1 color2 1 = color2.
Proof.
  destruct color1 as [[r1 g1] b1], color2 as [[r2 g2] b2].
  unfold rgb, channel. cbn [fst snd interpolate_color].
  intros (Hr1 & Hg1 & Hb1) (Hr2 & Hg2 & Hb2) Hf.
  pose proof (interpolate_channel_between r1 r2 f
                ltac:(lia) ltac:(lia) Hf) as Hr.
  pose proof (interpolate_channel_between g1 g2 f
                ltac:(lia) ltac:(lia) Hf) as Hg.
  pose proof (interpolate_channel_between b1 b2 f
                ltac:(lia) ltac:(lia) Hf) as Hb.
  split; [exact Hr|]. split; [exact Hg|]. split; [exact Hb|].
  split; [lia|].
  split; [apply (interpolate_color_0 (r1, g1, b1) (r2, g2, b2))|].
  rewrite !interpolate_channel_1. reflexivity.
Qed.

Lemma interpolate_color_between_witness :
  rgb (interpolate_color (50, 205, 50)%Z (255, 255, 0)%Z (1 # 2)) /\
  interpolate_color (50, 205, 50)%Z (255, 255, 0)%Z 1 = (255, 255, 0)%Z.
Proof.
  destruct (interpolate_color_between (50, 205, 50)%Z (255, 255, 0)%Z (1 # 2))
    as (_ & _ & _ & Hc & _ & H1).
  - unfold rgb, channel. cbn [fst snd]. lia.
  - unfold rgb, channel. cbn [fst snd]. lia.
  - lra.
  - split; [exact Hc | exact H1].
Defined.




(** X25.  [get_particle_properties] is monotone: a larger AQI gives a size
    and a speed at least as large.  The size is between 3 and 6, the speed
    is [(size - 1) / 2], and for an AQI in [0, 150] the largest tier
    (size 6) is reached only at 150 exactly. *)
Theorem particle_tiers_grow_with_aqi (a b : Q) :
  a <= b ->
  let '(_, size_a, speed_a) := get_particle_properties a in
  let '(_, size_b, speed_b) := get_particle_properties b in
  size_a <= size_b /\ speed_a <= speed_b /\
  3 <= size_a <= 6 /\ speed_a == (size_a - 1) / 2 /\
  (in_range a -> (size_a == 6 <-> a == 150)).
Proof.
  intros Hab. unfold get_particle_properties, in_range.
  repeat case_cmp; try lra;
    (split; [lra|]; split; [lra|]; split; [lra|]; split; [reflexivity|]);
    intros Hr; split; intros H; try lra; try discriminate H.
Qed.

Lemma particle_tiers_grow_with_aqi_witness :
  (get_particle_properties 40).1.2 <= (get_particle_properties 120).1.2 /\
  (get_particle_properties 40).2 <= (get_particle_properties 120).2.
Proof.
  pose proof (particle_tiers_grow_with_aqi 40 120) as H.
  destruct H as (Hs & Hv & _); [lra|].
  split; [exact Hs | exact Hv].
Defined.
